(** * openbook-api: posts, comments and reactions

    A shallow embedding of [openbook_posts/models.py]: the rows of the
    [Post], [PostImage], [PostVideo], [PostComment] and [PostReaction]
    models, the tables they live in, the class-method factories and the
    overridden [save] methods, written as state-passing functions over a
    database value.  An exception leaves the rows written before it in
    place, as the ORM does outside a transaction. *)

From Stdlib Require Import List Arith Bool String Lia Sorted Permutation.
Import ListNotations.

Set Implicit Arguments.

(** ** Python truthiness

    [if x:] and [not x] test the truth value of [x]: [None], the empty
    string and the integer zero are false. *)

Class Truthy (A : Type) := truthy : A -> bool.

#[export] Instance Truthy_string : Truthy string :=
  fun s => match s with EmptyString => false | String _ _ => true end.

#[export] Instance Truthy_nat : Truthy nat :=
  fun n => negb (n =? 0).

#[export] Instance Truthy_option {A : Type} `{Truthy A} : Truthy (option A) :=
  fun o => match o with Some a => truthy a | None => false end.

(** A [datetime] value; every [datetime] is true. *)
Record DateTime := { timestamp : nat }.

#[export] Instance Truthy_DateTime : Truthy DateTime := fun _ => true.

(** An uploaded file; a file object is true when it has a name.
    [file_is_image] tells whether its content can be opened as an image,
    which the processed image field does when a [PostImage] is saved. *)
Record File := { file_name : string; file_is_image : bool }.

#[export] Instance Truthy_File : Truthy File := fun f => truthy (file_name f).

(** ** Rows

    The primary key [id] of an instance is [None] until its first save.
    Users, circles and emoji are referred to by primary key.  The methods
    are passed users as instances, which stand for stored users; circles
    and emoji they are passed as keys, which may name no row. *)

Record Post := {
  Post_id : option nat;
  Post_text : option string;
  Post_created : option DateTime;
  Post_creator : nat;
  Post_public_comments : bool;
  Post_public_reactions : bool }.

Record PostImage := {
  PostImage_id : option nat;
  PostImage_post_id : nat;
  PostImage_image : File }.

Record PostVideo := {
  PostVideo_id : option nat;
  PostVideo_post_id : nat;
  PostVideo_video : File }.

Record PostComment := {
  PostComment_id : option nat;
  PostComment_post_id : nat;
  PostComment_created : option DateTime;
  PostComment_commenter : nat;
  PostComment_text : string }.

Record PostReaction := {
  PostReaction_id : option nat;
  PostReaction_post_id : nat;
  PostReaction_created : option DateTime;
  PostReaction_reactor : nat;
  PostReaction_emoji_id : nat }.

(** [openbook_common.models.Emoji], with the columns its serializer lists. *)
Record Emoji := {
  Emoji_id : nat;
  Emoji_keyword : string;
  Emoji_order : nat }.

Definition Emoji_eq_dec (a b : Emoji) : {a = b} + {a <> b}.
Proof. decide equality; try apply Nat.eq_dec; apply string_dec. Defined.

(** ** Tables and [models.Model.save] *)

Class Model (R : Type) := {
  pk : R -> option nat;
  with_pk : nat -> R -> R }.

#[export] Instance Model_Post : Model Post := {
  pk := Post_id;
  with_pk k p := {| Post_id := Some k; Post_text := Post_text p;
                    Post_created := Post_created p; Post_creator := Post_creator p;
                    Post_public_comments := Post_public_comments p;
                    Post_public_reactions := Post_public_reactions p |} }.

#[export] Instance Model_PostImage : Model PostImage := {
  pk := PostImage_id;
  with_pk k i := {| PostImage_id := Some k; PostImage_post_id := PostImage_post_id i;
                    PostImage_image := PostImage_image i |} }.

#[export] Instance Model_PostVideo : Model PostVideo := {
  pk := PostVideo_id;
  with_pk k v := {| PostVideo_id := Some k; PostVideo_post_id := PostVideo_post_id v;
                    PostVideo_video := PostVideo_video v |} }.

#[export] Instance Model_PostComment : Model PostComment := {
  pk := PostComment_id;
  with_pk k c := {| PostComment_id := Some k; PostComment_post_id := PostComment_post_id c;
                    PostComment_created := PostComment_created c;
                    PostComment_commenter := PostComment_commenter c;
                    PostComment_text := PostComment_text c |} }.

#[export] Instance Model_PostReaction : Model PostReaction := {
  pk := PostReaction_id;
  with_pk k r := {| PostReaction_id := Some k; PostReaction_post_id := PostReaction_post_id r;
                    PostReaction_created := PostReaction_created r;
                    PostReaction_reactor := PostReaction_reactor r;
                    PostReaction_emoji_id := PostReaction_emoji_id r |} }.

(** A table is its rows in insertion order and the next value of its
    auto-increment key. *)
Record Table (R : Type) := { rows : list R; next_pk : nat }.

Definition empty_table (R : Type) : Table R := {| rows := []; next_pk := 1 |}.

Section Tables.
Context {R : Type} `{Model R}.

Definition has_pk (k : nat) (r : R) : bool :=
  match pk r with Some j => j =? k | None => false end.

(** The rows an instance is compared with when a unique constraint is
    checked: every row but its own. *)
Definition others (r : R) (t : Table R) : list R :=
  match pk r with
  | Some k => filter (fun x => negb (has_pk k x)) (rows t)
  | None => rows t
  end.

(** [super().save()]: an instance without a key is inserted under the next
    key; one with a key replaces the row of that key, or is inserted under
    it when there is none. *)
Definition base_save (r : R) (t : Table R) : R * Table R :=
  match pk r with
  | None =>
      let r' := with_pk (next_pk t) r in
      (r', {| rows := rows t ++ [r']; next_pk := S (next_pk t) |})
  | Some k =>
      if existsb (has_pk k) (rows t)
      then (r, {| rows := map (fun x => if has_pk k x then r else x) (rows t);
                  next_pk := next_pk t |})
      else (r, {| rows := rows t ++ [r]; next_pk := Nat.max (next_pk t) (S k) |})
  end.

(** [queryset.delete()] on the rows selected by [sel]. *)
Definition delete_where (sel : R -> bool) (t : Table R) : Table R :=
  {| rows := filter (fun x => negb (sel x)) (rows t); next_pk := next_pk t |}.
End Tables.

(** ** The database *)

Record DB := {
  posts : Table Post;
  post_images : Table PostImage;
  post_videos : Table PostVideo;
  post_comments : Table PostComment;
  post_reactions : Table PostReaction;
  (** the many-to-many [Post.circles]: pairs (post id, circle id) *)
  post_circles : list (nat * nat);
  (** the reference data of [Emoji] *)
  emojis : list Emoji;
  (** [Circle.get_world_circle_id()], the key of the circle the fixture loads *)
  world_circle_id : nat;
  (** the keys of the stored [Circle] rows, kept by a model that is not
      among the sources *)
  circles : list nat;
  (** members of circles and of lists, kept by models that are not among
      the sources: pairs (group id, user id) *)
  circle_members : list (nat * nat);
  list_members : list (nat * nat);
  (** the job queue [convert_video] enqueues to: keys of [PostVideo] rows *)
  video_jobs : list nat }.

Definition set_posts (t : Table Post) (db : DB) : DB :=
  {| posts := t; post_images := post_images db; post_videos := post_videos db;
     post_comments := post_comments db; post_reactions := post_reactions db;
     post_circles := post_circles db; emojis := emojis db;
     world_circle_id := world_circle_id db; circles := circles db; circle_members := circle_members db;
     list_members := list_members db; video_jobs := video_jobs db |}.

Definition set_post_images (t : Table PostImage) (db : DB) : DB :=
  {| posts := posts db; post_images := t; post_videos := post_videos db;
     post_comments := post_comments db; post_reactions := post_reactions db;
     post_circles := post_circles db; emojis := emojis db;
     world_circle_id := world_circle_id db; circles := circles db; circle_members := circle_members db;
     list_members := list_members db; video_jobs := video_jobs db |}.

Definition set_post_videos (t : Table PostVideo) (jobs : list nat) (db : DB) : DB :=
  {| posts := posts db; post_images := post_images db; post_videos := t;
     post_comments := post_comments db; post_reactions := post_reactions db;
     post_circles := post_circles db; emojis := emojis db;
     world_circle_id := world_circle_id db; circles := circles db; circle_members := circle_members db;
     list_members := list_members db; video_jobs := jobs |}.

Definition set_post_comments (t : Table PostComment) (db : DB) : DB :=
  {| posts := posts db; post_images := post_images db; post_videos := post_videos db;
     post_comments := t; post_reactions := post_reactions db;
     post_circles := post_circles db; emojis := emojis db;
     world_circle_id := world_circle_id db; circles := circles db; circle_members := circle_members db;
     list_members := list_members db; video_jobs := video_jobs db |}.

Definition set_post_reactions (t : Table PostReaction) (db : DB) : DB :=
  {| posts := posts db; post_images := post_images db; post_videos := post_videos db;
     post_comments := post_comments db; post_reactions := t;
     post_circles := post_circles db; emojis := emojis db;
     world_circle_id := world_circle_id db; circles := circles db; circle_members := circle_members db;
     list_members := list_members db; video_jobs := video_jobs db |}.

Definition set_post_circles (l : list (nat * nat)) (db : DB) : DB :=
  {| posts := posts db; post_images := post_images db; post_videos := post_videos db;
     post_comments := post_comments db; post_reactions := post_reactions db;
     post_circles := l; emojis := emojis db;
     world_circle_id := world_circle_id db; circles := circles db; circle_members := circle_members db;
     list_members := list_members db; video_jobs := video_jobs db |}.

(** ** Exceptions and the state monad of a request

    [ValidationError] is raised by [create_post] itself; [IntegrityError]
    by the database, for a foreign key without a row, a unique constraint
    or a column that may not be null; [ValueError] by the ORM, when an
    unsaved instance is referred to; [OSError] by the image library, for an
    upload it cannot open; [AssertionError] by [Model.delete], for an
    instance without a key. *)

Inductive Error :=
| ValidationError (detail : string)
| IntegrityError
| ValueError
| OSError
| AssertionError.

Definition M (A : Type) : Type := DB -> (Error + A) * DB.

Definition ret {A : Type} (a : A) : M A := fun db => (inr a, db).

Definition raise {A : Type} (e : Error) : M A := fun db => (inl e, db).

Definition bind {A B : Type} (c : M A) (k : A -> M B) : M B :=
  fun db =>
    match c db with
    | (inl e, db') => (inl e, db')
    | (inr a, db') => k a db'
    end.

Notation "x <- c ;; k" := (bind c (fun x => k))
  (at level 61, c at next level, right associativity).
Notation "c ;;; k" := (bind c (fun _ => k))
  (at level 61, right associativity).

(** [when b c]: the statement [if b: c]. *)
Definition when (b : bool) (c : M unit) : M unit := if b then c else ret tt.

(** ** [Post] *)

Definition Post_set_created (c : option DateTime) (p : Post) : Post :=
  {| Post_id := Post_id p; Post_text := Post_text p; Post_created := c;
     Post_creator := Post_creator p;
     Post_public_comments := Post_public_comments p;
     Post_public_reactions := Post_public_reactions p |}.

Definition Post_set_text (t : option string) (p : Post) : Post :=
  {| Post_id := Post_id p; Post_text := t; Post_created := Post_created p;
     Post_creator := Post_creator p;
     Post_public_comments := Post_public_comments p;
     Post_public_reactions := Post_public_reactions p |}.

(** [super(Post, self).save()]; the column [created] is not nullable. *)
Definition Post_super_save (self : Post) : M Post :=
  fun db =>
    match Post_created self with
    | None => (inl IntegrityError, db)
    | Some _ =>
        let (r, t) := base_save self (posts db) in (inr r, set_posts t db)
    end.

(** [Post.save]; [now] is the value [timezone.now()] reads. *)
Definition Post_save (now : DateTime) (self : Post) : M Post :=
  let self :=
    if negb (truthy (Post_id self)) && negb (truthy (Post_created self))
    then Post_set_created (Some now) self
    else self in
  Post_super_save self.

(** [Post.objects.create(creator=creator, created=created)] *)
Definition Post_objects_create (now : DateTime) (creator : nat)
    (created : option DateTime) : M Post :=
  Post_save now
    {| Post_id := None; Post_text := None; Post_created := created;
       Post_creator := creator;
       Post_public_comments := true; Post_public_reactions := true |}.

Definition post_exists (k : nat) (db : DB) : bool :=
  existsb (has_pk k) (rows (posts db)).

(** ** [PostImage] and [PostVideo]

    [post] is a one-to-one field: a foreign key to an existing post that no
    other row of the table may share.  [image] is a processed image field:
    before the row is written the upload is opened as an image, which
    raises for a file that is not one. *)

Definition PostImage_save (self : PostImage) : M PostImage :=
  fun db =>
    if negb (file_is_image (PostImage_image self))
    then (inl OSError, db)
    else if negb (post_exists (PostImage_post_id self) db)
    then (inl IntegrityError, db)
    else if existsb (fun x => PostImage_post_id x =? PostImage_post_id self)
                    (others self (post_images db))
    then (inl IntegrityError, db)
    else let (r, t) := base_save self (post_images db) in
         (inr r, set_post_images t db).

(** [PostImage.objects.create(image=image, post_id=post_id)] *)
Definition PostImage_objects_create (image : File) (post_id : option nat)
    : M PostImage :=
  match post_id with
  | None => raise IntegrityError
  | Some k =>
      PostImage_save
        {| PostImage_id := None; PostImage_post_id := k; PostImage_image := image |}
  end.

(** Saving a [PostVideo] sends [post_save], whose receiver [convert_video]
    enqueues the conversion of the saved row. *)
Definition PostVideo_save (self : PostVideo) : M PostVideo :=
  fun db =>
    if negb (post_exists (PostVideo_post_id self) db)
    then (inl IntegrityError, db)
    else if existsb (fun x => PostVideo_post_id x =? PostVideo_post_id self)
                    (others self (post_videos db))
    then (inl IntegrityError, db)
    else let (r, t) := base_save self (post_videos db) in
         (inr r,
          set_post_videos t
            (match pk r with Some k => video_jobs db ++ [k] | None => video_jobs db end)
            db).

(** [PostVideo.objects.create(video=video, post_id=post_id)] *)
Definition PostVideo_objects_create (video : File) (post_id : option nat)
    : M PostVideo :=
  match post_id with
  | None => raise IntegrityError
  | Some k =>
      PostVideo_save
        {| PostVideo_id := None; PostVideo_post_id := k; PostVideo_video := video |}
  end.

(** A circle id refers to a stored [Circle]. *)
Definition circle_exists (c : nat) (db : DB) : bool :=
  existsb (Nat.eqb c) (circles db).

(** [post.circles.add( *circles_ids )]: the pairs not yet in the relation
    are added to it, in one statement; each refers to the post and to a
    circle by foreign key. *)
Definition add_link (links : list (nat * nat)) (l : nat * nat) : list (nat * nat) :=
  if existsb (fun x => (fst x =? fst l) && (snd x =? snd l)) links
  then links else links ++ [l].

Definition circles_add (post : Post) (circles_ids : list nat) : M unit :=
  match Post_id post with
  | None => raise ValueError
  | Some k =>
      fun db =>
        if negb (post_exists k db)
        then (inl IntegrityError, db)
        else if existsb
                  (fun c => negb (existsb (fun x => (fst x =? k) && (snd x =? c))
                                          (post_circles db)) &&
                            negb (circle_exists c db))
                  circles_ids
        then (inl IntegrityError, db)
        else
          (inr tt,
           set_post_circles
             (fold_left add_link (map (fun c => (k, c)) circles_ids) (post_circles db))
             db)
  end.

(** [Post.create_post] *)
Definition create_post (now : DateTime) (creator : nat) (circles_ids : list nat)
    (image : option File) (text : option string) (video : option File)
    (created : option DateTime) : M Post :=
  if negb (truthy text) && negb (truthy image) && negb (truthy video)
  then raise (ValidationError "A post requires text or an image/video.")
  else if truthy image && truthy video
  then raise (ValidationError "A post must have an image or a video, not both.")
  else
    post <- Post_objects_create now creator created ;;
    let post := if truthy text then Post_set_text text post else post in
    match image with
    | Some f => when (truthy f) (PostImage_objects_create f (Post_id post) ;;; ret tt)
    | None => ret tt
    end ;;;
    match video with
    | Some f => when (truthy f) (PostVideo_objects_create f (Post_id post) ;;; ret tt)
    | None => ret tt
    end ;;;
    circles_add post circles_ids ;;;
    post <- Post_save now post ;;
    ret post.

(** [Post.is_public_post], asked of a saved post (the related manager of an
    unsaved one cannot be used). *)
Definition is_public_post (self : Post) (db : DB) : bool :=
  match Post_id self with
  | None => false
  | Some k =>
      List.length (filter (fun l => (fst l =? k) && (snd l =? world_circle_id db))
                     (post_circles db)) =? 1
  end.

(** ** [PostComment] *)

Definition PostComment_set_created (c : option DateTime) (x : PostComment)
    : PostComment :=
  {| PostComment_id := PostComment_id x; PostComment_post_id := PostComment_post_id x;
     PostComment_created := c; PostComment_commenter := PostComment_commenter x;
     PostComment_text := PostComment_text x |}.

Definition PostComment_super_save (self : PostComment) : M PostComment :=
  fun db =>
    match PostComment_created self with
    | None => (inl IntegrityError, db)
    | Some _ =>
        if negb (post_exists (PostComment_post_id self) db)
        then (inl IntegrityError, db)
        else let (r, t) := base_save self (post_comments db) in
             (inr r, set_post_comments t db)
    end.

(** [PostComment.save] *)
Definition PostComment_save (now : DateTime) (self : PostComment) : M PostComment :=
  let self :=
    if negb (truthy (PostComment_id self))
    then PostComment_set_created (Some now) self
    else self in
  PostComment_super_save self.

(** [PostComment.create_comment]; an unsaved [post] cannot be referred to. *)
Definition create_comment (now : DateTime) (text : string) (commenter : nat)
    (post : Post) : M PostComment :=
  match Post_id post with
  | None => raise ValueError
  | Some k =>
      PostComment_save now
        {| PostComment_id := None; PostComment_post_id := k;
           PostComment_created := None; PostComment_commenter := commenter;
           PostComment_text := text |}
  end.

(** [Post.comment] *)
Definition comment (now : DateTime) (self : Post) (text : string) (commenter : nat)
    : M PostComment :=
  create_comment now text commenter self.

(** [Post.remove_comment_with_id]; the comments of an unsaved post are an
    empty set, and deleting from it deletes nothing. *)
Definition remove_comment_with_id (self : Post) (post_comment_id : nat) : M unit :=
  match Post_id self with
  | None => ret tt
  | Some k =>
      fun db =>
        (inr tt,
         set_post_comments
           (delete_where
              (fun c => (PostComment_post_id c =? k) && has_pk post_comment_id c)
              (post_comments db))
           db)
  end.

(** [PostComment.count_comments_for_post_with_id] *)
Definition count_comments_for_post_with_id (post_id : nat) (commenter_id : option nat)
    (db : DB) : nat :=
  List.length
    (filter
       (fun c =>
          (PostComment_post_id c =? post_id) &&
          match commenter_id with
          | Some u => if truthy u then PostComment_commenter c =? u else true
          | None => true
          end)
       (rows (post_comments db))).

(** ** [PostReaction] *)

Definition PostReaction_set_created (c : option DateTime) (x : PostReaction)
    : PostReaction :=
  {| PostReaction_id := PostReaction_id x; PostReaction_post_id := PostReaction_post_id x;
     PostReaction_created := c; PostReaction_reactor := PostReaction_reactor x;
     PostReaction_emoji_id := PostReaction_emoji_id x |}.

(** [emoji] is a foreign key to a stored [Emoji]. *)
Definition emoji_exists (e : nat) (db : DB) : bool :=
  existsb (fun x => Emoji_id x =? e) (emojis db).

(** [Meta.unique_together = ('reactor', 'post',)] *)
Definition same_reactor_and_post (a b : PostReaction) : bool :=
  (PostReaction_reactor a =? PostReaction_reactor b) &&
  (PostReaction_post_id a =? PostReaction_post_id b).

Definition PostReaction_super_save (self : PostReaction) : M PostReaction :=
  fun db =>
    match PostReaction_created self with
    | None => (inl IntegrityError, db)
    | Some _ =>
        if negb (post_exists (PostReaction_post_id self) db)
        then (inl IntegrityError, db)
        else if negb (emoji_exists (PostReaction_emoji_id self) db)
        then (inl IntegrityError, db)
        else if existsb (same_reactor_and_post self) (others self (post_reactions db))
        then (inl IntegrityError, db)
        else let (r, t) := base_save self (post_reactions db) in
             (inr r, set_post_reactions t db)
    end.

(** [PostReaction.save] *)
Definition PostReaction_save (now : DateTime) (self : PostReaction) : M PostReaction :=
  let self :=
    if negb (truthy (PostReaction_id self))
    then PostReaction_set_created (Some now) self
    else self in
  PostReaction_super_save self.

(** [PostReaction.create_reaction] *)
Definition create_reaction (now : DateTime) (reactor : nat) (emoji_id : nat)
    (post : Post) : M PostReaction :=
  match Post_id post with
  | None => raise ValueError
  | Some k =>
      PostReaction_save now
        {| PostReaction_id := None; PostReaction_post_id := k;
           PostReaction_created := None; PostReaction_reactor := reactor;
           PostReaction_emoji_id := emoji_id |}
  end.

(** [Post.react] *)
Definition react (now : DateTime) (self : Post) (reactor : nat) (emoji_id : nat)
    : M PostReaction :=
  create_reaction now reactor emoji_id self.

(** [Post.remove_reaction_with_id]; the reactions of an unsaved post are an
    empty set, and deleting from it deletes nothing. *)
Definition remove_reaction_with_id (self : Post) (reaction_id : nat) : M unit :=
  match Post_id self with
  | None => ret tt
  | Some k =>
      fun db =>
        (inr tt,
         set_post_reactions
           (delete_where
              (fun r => (PostReaction_post_id r =? k) && has_pk reaction_id r)
              (post_reactions db))
           db)
  end.

(** [PostReaction.count_reactions_for_post_with_id] *)
Definition count_reactions_for_post_with_id (post_id : nat) (reactor_id : option nat)
    (db : DB) : nat :=
  List.length
    (filter
       (fun r =>
          (PostReaction_post_id r =? post_id) &&
          match reactor_id with
          | Some u => if truthy u then PostReaction_reactor r =? u else true
          | None => true
          end)
       (rows (post_reactions db))).

(** ** Deleting a post

    [Post] does not override [delete]: the rows that refer to the post are
    collected under the [on_delete] rule their foreign key declares, the
    links of the many-to-many [circles] go with the post.  [Model.delete]
    asserts that the instance has a key. *)

Inductive OnDelete := CASCADE | PROTECT | DO_NOTHING.

Definition PostImage_post_on_delete : OnDelete := CASCADE.
Definition PostVideo_post_on_delete : OnDelete := CASCADE.
Definition PostComment_post_on_delete : OnDelete := CASCADE.
Definition PostReaction_post_on_delete : OnDelete := CASCADE.

Definition collect {R : Type} (rule : OnDelete) (refers : R -> bool) (t : Table R)
    : option (Table R) :=
  match rule with
  | CASCADE => Some (delete_where refers t)
  | PROTECT => if existsb refers (rows t) then None else Some t
  | DO_NOTHING => Some t
  end.

Definition Post_delete (self : Post) : M unit :=
  match Post_id self with
  | None => raise AssertionError
  | Some k =>
      fun db =>
        match collect PostImage_post_on_delete
                (fun i => PostImage_post_id i =? k) (post_images db),
              collect PostVideo_post_on_delete
                (fun v => PostVideo_post_id v =? k) (post_videos db),
              collect PostComment_post_on_delete
                (fun c => PostComment_post_id c =? k) (post_comments db),
              collect PostReaction_post_on_delete
                (fun r => PostReaction_post_id r =? k) (post_reactions db)
        with
        | Some ti, Some tv, Some tc, Some tr =>
            (inr tt,
             {| posts := delete_where (has_pk k) (posts db);
                post_images := ti; post_videos := tv;
                post_comments := tc; post_reactions := tr;
                post_circles := filter (fun l => negb (fst l =? k)) (post_circles db);
                emojis := emojis db; world_circle_id := world_circle_id db; circles := circles db;
                circle_members := circle_members db;
                list_members := list_members db; video_jobs := video_jobs db |})
        | _, _, _, _ => (inl IntegrityError, db)
        end
  end.

(** ** Emoji counts *)

Record EmojiCount := { emoji : Emoji; count : nat }.

(** [Q(reactions__post_id=post_id)], and [Q(reactions__emoji_id=emoji_id)]
    when [emoji_id] is true, on one joined reaction. *)
Definition emoji_query (post_id : nat) (emoji_id : option nat) (r : PostReaction)
    : bool :=
  (PostReaction_post_id r =? post_id) &&
  match emoji_id with
  | Some e => if truthy e then PostReaction_emoji_id r =? e else true
  | None => true
  end.

(** [Q(post_id=post_id, emoji_id=emoji.pk)], and [Q(reactor_id=reactor_id)]
    when [reactor_id] is true. *)
Definition reaction_query (post_id : nat) (emoji_pk : nat) (reactor_id : option nat)
    (r : PostReaction) : bool :=
  (PostReaction_post_id r =? post_id) && (PostReaction_emoji_id r =? emoji_pk) &&
  match reactor_id with
  | Some u => if truthy u then PostReaction_reactor r =? u else true
  | None => true
  end.

(** [Emoji.objects.filter(emoji_query).distinct()]: the emoji joined with
    their reactions, one copy of each kept. *)
Definition emojis_reacted_with (post_id : nat) (emoji_id : option nat) (db : DB)
    : list Emoji :=
  nodup Emoji_eq_dec
    (flat_map
       (fun e =>
          map (fun _ => e)
            (filter
               (fun r => (PostReaction_emoji_id r =? Emoji_id e) &&
                         emoji_query post_id emoji_id r)
               (rows (post_reactions db))))
       (emojis db)).

(** [list.sort(key=lambda x: x['count'], reverse=True)]: a stable sort,
    entries of equal count keep their order. *)
Fixpoint insert_by_count (x : EmojiCount) (l : list EmojiCount) : list EmojiCount :=
  match l with
  | [] => [x]
  | y :: l' => if count y <=? count x then x :: y :: l' else y :: insert_by_count x l'
  end.

Definition sort_by_count_reverse (l : list EmojiCount) : list EmojiCount :=
  fold_right insert_by_count [] l.

(** [Post.get_emoji_counts_for_post_with_id] *)
Definition get_emoji_counts_for_post_with_id (post_id : nat) (emoji_id : option nat)
    (reactor_id : option nat) (db : DB) : list EmojiCount :=
  let emoji_counts :=
    map
      (fun e =>
         {| emoji := e;
            count := List.length
                       (filter (reaction_query post_id (Emoji_id e) reactor_id)
                               (rows (post_reactions db))) |})
      (emojis_reacted_with post_id emoji_id db) in
  sort_by_count_reverse emoji_counts.

(** ** Runs of the application *)

Definition initial (es : list Emoji) (world : nat) (cs : list nat)
    (cm lm : list (nat * nat)) : DB :=
  {| posts := empty_table Post; post_images := empty_table PostImage;
     post_videos := empty_table PostVideo; post_comments := empty_table PostComment;
     post_reactions := empty_table PostReaction; post_circles := [];
     emojis := es; world_circle_id := world; circles := world :: cs;
     circle_members := cm;
     list_members := lm; video_jobs := [] |}.

Inductive Op :=
| Op_create_post (now : DateTime) (creator : nat) (circles_ids : list nat)
    (image : option File) (text : option string) (video : option File)
    (created : option DateTime)
| Op_comment (now : DateTime) (self : Post) (text : string) (commenter : nat)
| Op_remove_comment_with_id (self : Post) (post_comment_id : nat)
| Op_create_reaction (now : DateTime) (reactor : nat) (emoji_id : nat) (post : Post)
| Op_react (now : DateTime) (self : Post) (reactor : nat) (emoji_id : nat)
| Op_remove_reaction_with_id (self : Post) (reaction_id : nat)
| Op_delete (self : Post).

(** The database an operation leaves, whether it returns or raises. *)
Definition run (op : Op) (db : DB) : DB :=
  match op with
  | Op_create_post now creator circles_ids image text video created =>
      snd (create_post now creator circles_ids image text video created db)
  | Op_comment now self text commenter => snd (comment now self text commenter db)
  | Op_remove_comment_with_id self i => snd (remove_comment_with_id self i db)
  | Op_create_reaction now reactor emoji_id post =>
      snd (create_reaction now reactor emoji_id post db)
  | Op_react now self reactor emoji_id => snd (react now self reactor emoji_id db)
  | Op_remove_reaction_with_id self i => snd (remove_reaction_with_id self i db)
  | Op_delete self => snd (Post_delete self db)
  end.

Inductive reachable : DB -> Prop :=
| reachable_initial : forall es world cs cm lm, reachable (initial es world cs cm lm)
| reachable_run : forall op db, reachable db -> reachable (run op db).

(** Post [k] has an image (a video): a row of [PostImage] ([PostVideo])
    refers to it. *)
Definition image_exists (k : nat) (db : DB) : bool :=
  existsb (fun i => PostImage_post_id i =? k) (rows (post_images db)).

Definition video_exists (k : nat) (db : DB) : bool :=
  existsb (fun v => PostVideo_post_id v =? k) (rows (post_videos db)).

(** The content rule of a stored post. *)
Definition post_content_ok (p : Post) (db : DB) : Prop :=
  exists k, Post_id p = Some k /\
    (truthy (Post_text p) || image_exists k db || video_exists k db = true) /\
    (image_exists k db && video_exists k db = false).

(** The pair a reaction is unique in. *)
Definition reactor_and_post (r : PostReaction) : nat * nat :=
  (PostReaction_reactor r, PostReaction_post_id r).

(** ** The posts endpoint *)

Inductive Response (A : Type) :=
| HTTP_200_OK (body : A)
| HTTP_201_CREATED (body : A)
| HTTP_400_BAD_REQUEST
| HTTP_500_INTERNAL_SERVER_ERROR.

Arguments HTTP_400_BAD_REQUEST {A}.
Arguments HTTP_500_INTERNAL_SERVER_ERROR {A}.

(** Modelled from the spec: the view that handles PUT on the posts endpoint
    ([openbook_posts/views.py] and the [User] helpers it calls are not among
    the sources).  The authenticated user is the creator; a request that
    names no circle posts to the world circle; the post is made by
    [Post.create_post]; a post made answers 201 and a validation error
    answers 4xx. *)
Definition posts_put (now : DateTime) (user : nat) (text : option string)
    (image video : option File) (circle_id : list nat) (db : DB)
    : Response Post * DB :=
  let circles_ids :=
    match circle_id with [] => [world_circle_id db] | _ :: _ => circle_id end in
  match create_post now user circles_ids image text video None db with
  | (inr post, db') => (HTTP_201_CREATED post, db')
  | (inl (ValidationError _), db') => (HTTP_400_BAD_REQUEST, db')
  | (inl _, db') => (HTTP_500_INTERNAL_SERVER_ERROR, db')
  end.

(** Modelled from the spec: the query parameters of a feed request,
    [count], [max_id], [circle_id], [list_id] and [username] (the serializer
    that reads them is not among the sources); [username] is given as the
    key of the user it names. *)
Record FeedQuery := {
  q_count : option nat;
  q_max_id : option nat;
  q_circle_id : list nat;
  q_list_id : list nat;
  q_username : option nat }.

(** Modelled from the spec: user [u] is a member of one of [groups] (the
    models of circles, lists, connections and follows are not among the
    sources). *)
Definition member_of (groups : list nat) (members : list (nat * nat)) (u : nat) : bool :=
  existsb (fun m => existsb (Nat.eqb (fst m)) groups && (snd m =? u)) members.

(** Modelled from the spec: the posts a feed request selects, before the
    pagination window is cut (the view and the [User] queries behind it are
    not among the sources).  An unauthenticated request sees only public
    posts; an authenticated one sees its timeline, which the spec does not
    describe and which is the parameter [timeline]; with [circle_id] or
    [list_id] it sees instead the posts of the members of one of the named
    groups; [username] restricts them to the posts of that user. *)
Definition feed_candidates (timeline : nat -> DB -> Post -> bool)
    (viewer : option nat) (q : FeedQuery) (db : DB) : list Post :=
  filter
    (fun p =>
       match viewer with
       | None => is_public_post p db
       | Some u =>
           match q_circle_id q, q_list_id q with
           | [], [] => timeline u db p
           | _ :: _, [] => member_of (q_circle_id q) (circle_members db) (Post_creator p)
           | [], _ :: _ => member_of (q_list_id q) (list_members db) (Post_creator p)
           | _ :: _, _ :: _ =>
               member_of (q_circle_id q) (circle_members db) (Post_creator p) &&
               member_of (q_list_id q) (list_members db) (Post_creator p)
           end
       end &&
       match q_username q with
       | Some u => Post_creator p =? u
       | None => true
       end)
    (rows (posts db)).

(** Modelled from the spec: the pagination window, posts of an id below
    [max_id] and at most [count] of them. *)
Definition paginate (q : FeedQuery) (l : list Post) : list Post :=
  let below :=
    match q_max_id q with
    | Some m =>
        filter (fun p => match Post_id p with Some k => k <? m | None => false end) l
    | None => l
    end in
  match q_count q with
  | Some c => firstn c below
  | None => below
  end.

(** Modelled from the spec: GET on the posts endpoint. *)
Definition posts_get (timeline : nat -> DB -> Post -> bool)
    (viewer : option nat) (q : FeedQuery) (db : DB) : list Post :=
  paginate q (feed_candidates timeline viewer q db).

(** ** Sample data *)

Definition t0 : DateTime := {| timestamp := 100 |}.
Definition t1 : DateTime := {| timestamp := 200 |}.

(** Three emoji. *)
Definition smile : Emoji := {| Emoji_id := 1; Emoji_keyword := "smile"; Emoji_order := 1 |}.
Definition heart : Emoji := {| Emoji_id := 2; Emoji_keyword := "heart"; Emoji_order := 2 |}.
Definition clap : Emoji := {| Emoji_id := 3; Emoji_keyword := "clap"; Emoji_order := 3 |}.

(** An empty database: the three emoji, the world circle 1 and the circles
    3, 4 and 5. *)
Definition db0 : DB := initial [smile; heart; clap] 1 [3; 4; 5] [] [].

Definition hello : option string := Some "hello"%string.
Definition photo : option File :=
  Some {| file_name := "photo.jpg"; file_is_image := true |}.
Definition clip : option File :=
  Some {| file_name := "clip.mp4"; file_is_image := false |}.

(** An upload that is named like an image and is not one. *)
Definition broken_photo : option File :=
  Some {| file_name := "notes.txt"; file_is_image := false |}.

(** The database after user 7 has made two public text posts. *)
Definition db_two_posts : DB :=
  run (Op_create_post t0 7 [1] None hello None None)
    (run (Op_create_post t0 7 [1] None hello None None) db0).

Definition saved_post (k : nat) : Post :=
  {| Post_id := Some k; Post_text := hello; Post_created := Some t0;
     Post_creator := 7; Post_public_comments := true;
     Post_public_reactions := true |}.

(** User 9 has reacted to the first post with emoji 3. *)
Definition db_reacted : DB := run (Op_react t1 (saved_post 1) 9 3) db_two_posts.

(** A post built with [created] given, not yet saved. *)
Definition supplied_post : Post :=
  {| Post_id := None; Post_text := hello; Post_created := Some t0;
     Post_creator := 7; Post_public_comments := true;
     Post_public_reactions := true |}.

Definition unsaved_comment : PostComment :=
  {| PostComment_id := None; PostComment_post_id := 1;
     PostComment_created := None; PostComment_commenter := 9;
     PostComment_text := "nice" |}.

(** A comment built under the key 5, not yet saved. *)
Definition keyed_comment : PostComment :=
  {| PostComment_id := Some 5; PostComment_post_id := 1;
     PostComment_created := Some t0; PostComment_commenter := 9;
     PostComment_text := "nice" |}.

(** Users 9, 10 and 11 react to the first post, user 9 to the second. *)

Definition db_emoji : DB :=
  run (Op_react t1 (saved_post 2) 9 1)
    (run (Op_react t1 (saved_post 1) 11 2)
       (run (Op_react t1 (saved_post 1) 10 3)
          (run (Op_react t1 (saved_post 1) 9 2)
             (run (Op_create_post t0 7 [1] None hello None None)
                (run (Op_create_post t0 7 [1] None hello None None)
                   db0))))).


(** A request for the posts of user 7 with [max_id] 2 and [count] 5. *)
Definition window_query : FeedQuery :=
  {| q_count := Some 5; q_max_id := Some 2; q_circle_id := [];
     q_list_id := []; q_username := Some 7 |}.





(** After [db_two_posts], user 8 posts a photo with text to circles 3 and 4,
    and user 7 a clip to the world circle. *)
Definition db_media : DB :=
  run (Op_create_post t1 7 [1] None None clip None)
    (run (Op_create_post t1 8 [3; 3; 4] photo hello None None) db_two_posts).

Definition everything (u : nat) (db : DB) (p : Post) : bool := true.

(** ** Invariants *)

(** Every row of a table has a key below the counter, and no two rows
    share a key. *)
Definition table_ok {R : Type} `{Model R} (t : Table R) : Prop :=
  (forall r, In r (rows t) -> exists k, pk r = Some k /\ k < next_pk t) /\
  NoDup (map pk (rows t)).

(** What every write keeps: keys are well formed, images, videos and
    circle links refer to posts that were made, a link is stored once, and
    a (reactor, post) pair is stored once. *)
Definition base_ok (db : DB) : Prop :=
  table_ok (posts db) /\
  table_ok (post_reactions db) /\
  (forall i, In i (rows (post_images db)) -> PostImage_post_id i < next_pk (posts db)) /\
  (forall v, In v (rows (post_videos db)) -> PostVideo_post_id v < next_pk (posts db)) /\
  (forall l, In l (post_circles db) -> fst l < next_pk (posts db)) /\
  NoDup (post_circles db) /\
  NoDup (map reactor_and_post (rows (post_reactions db))).

Definition content_ok (db : DB) : Prop :=
  forall p, In p (rows (posts db)) -> post_content_ok p db.

(** No post has both an image and a video. *)
Definition never_both (db : DB) : Prop :=
  forall k, image_exists k db && video_exists k db = false.

Definition unique_reactions (db : DB) : Prop :=
  NoDup (map reactor_and_post (rows (post_reactions db))).

(** A computation keeps [P] when the database it leaves, returning or
    raising, satisfies [P] whenever the one it started from does. *)
Definition preserves {A : Type} (P : DB -> Prop) (c : M A) : Prop :=
  forall db, P db -> P (snd (c db)).

(** [create_post] rejects the arguments. *)
Definition rejected (image : option File) (text : option string) (video : option File)
    : bool :=
  (negb (truthy text) && negb (truthy image) && negb (truthy video)) ||
  (truthy image && truthy video).

(** The image of a call can be stored: none is given, or the one given
    can be opened as an image. *)
Definition image_ok (image : option File) : bool :=
  match image with
  | Some f => negb (truthy f) || file_is_image f
  | None => true
  end.

(** Every circle named by a call is stored. *)
Definition circles_ok (circles_ids : list nat) (db : DB) : bool :=
  forallb (fun c => circle_exists c db) circles_ids.

(** The world circle is stored. *)
Definition world_ok (db : DB) : Prop :=
  circle_exists (world_circle_id db) db = true.


(** An operation that is not stopped between its writes: every operation
    but a call of [create_post] that passes the checks and then meets an
    upload that cannot be opened or a circle that is not stored. *)
Definition completes (op : Op) (db : DB) : bool :=
  match op with
  | Op_create_post _ _ circles_ids image text video _ =>
      rejected image text video || (image_ok image && circles_ok circles_ids db)
  | _ => true
  end.

(** The post [Post.objects.create] stores under key [k]. *)
Definition new_post (now : DateTime) (creator : nat) (created : option DateTime)
    (k : nat) : Post :=
  {| Post_id := Some k; Post_text := None;
     Post_created := match created with Some c => Some c | None => Some now end;
     Post_creator := creator;
     Post_public_comments := true; Post_public_reactions := true |}.

(** [P] is kept by every write to the database. *)
Definition stable (P : DB -> Prop) : Prop :=
  (forall p, preserves P (Post_super_save p)) /\
  (forall i, preserves P (PostImage_save i)) /\
  (forall v, preserves P (PostVideo_save v)) /\
  (forall p cs, preserves P (circles_add p cs)) /\
  (forall c, preserves P (PostComment_super_save c)) /\
  (forall r, preserves P (PostReaction_super_save r)) /\
  (forall p i, preserves P (remove_comment_with_id p i)) /\
  (forall p i, preserves P (remove_reaction_with_id p i)) /\
  (forall p, preserves P (Post_delete p)).

(** The reactions of one user to one post. *)
Definition reactions_by (reactor post_id : nat) (db : DB) : list PostReaction :=
  filter
    (fun r => (PostReaction_reactor r =? reactor) && (PostReaction_post_id r =? post_id))
    (rows (post_reactions db)).

Definition at_most_one_reaction (db : DB) : Prop :=
  forall reactor post_id, List.length (reactions_by reactor post_id db) <= 1.

(** The database [create_post] leaves when it returns: the row of the new
    post, its image or video, its circle links, and the row saved again
    with its text. *)
Definition insert_image (image : option File) (k : nat) (db : DB) : DB :=
  match image with
  | Some f =>
      if truthy f
      then set_post_images
             {| rows := rows (post_images db) ++
                        [{| PostImage_id := Some (next_pk (post_images db));
                            PostImage_post_id := k; PostImage_image := f |}];
                next_pk := S (next_pk (post_images db)) |} db
      else db
  | None => db
  end.

Definition insert_video (video : option File) (k : nat) (db : DB) : DB :=
  match video with
  | Some f =>
      if truthy f
      then set_post_videos
             {| rows := rows (post_videos db) ++
                        [{| PostVideo_id := Some (next_pk (post_videos db));
                            PostVideo_post_id := k; PostVideo_video := f |}];
                next_pk := S (next_pk (post_videos db)) |}
             (video_jobs db ++ [next_pk (post_videos db)]) db
      else db
  | None => db
  end.

Definition created_post (now : DateTime) (creator : nat) (text : option string)
    (created : option DateTime) (db : DB) : Post :=
  let p := new_post now creator created (next_pk (posts db)) in
  if truthy text then Post_set_text text p else p.

Definition created_db (now : DateTime) (creator : nat) (circles_ids : list nat)
    (image : option File) (text : option string) (video : option File)
    (created : option DateTime) (db : DB) : DB :=
  let k := next_pk (posts db) in
  let db1 :=
    set_posts {| rows := rows (posts db) ++ [new_post now creator created k];
                 next_pk := S k |} db in
  let db3 := insert_video video k (insert_image image k db1) in
  let db4 :=
    set_post_circles
      (fold_left add_link (map (fun c => (k, c)) circles_ids) (post_circles db3))
      db3 in
  set_posts
    {| rows := map (fun x => if has_pk k x
                             then created_post now creator text created db else x)
                   (rows (posts db4));
       next_pk := next_pk (posts db4) |} db4.

(** The database [create_post] leaves when the image cannot be opened:
    the row [Post.objects.create] stored, without text. *)
Definition stored_db (now : DateTime) (creator : nat) (created : option DateTime)
    (db : DB) : DB :=
  let k := next_pk (posts db) in
  set_posts {| rows := rows (posts db) ++ [new_post now creator created k];
               next_pk := S k |} db.

(** The database [create_post] leaves when a circle is not stored: the row
    without text, and its image or video. *)
Definition media_db (now : DateTime) (creator : nat) (image video : option File)
    (created : option DateTime) (db : DB) : DB :=
  let k := next_pk (posts db) in
  insert_video video k (insert_image image k (stored_db now creator created db)).

(** [d] has the posts, images and videos of [db]. *)
Definition same_posts (db d : DB) : Prop :=
  posts d = posts db /\ post_images d = post_images db /\
  post_videos d = post_videos db.

(** A computation that raises no validation error. *)
Definition no_validation_error {A : Type} (c : M A) : Prop :=
  forall db detail, fst (c db) <> inl (ValidationError detail).

(** The counters of the tables with a [created] column are positive, so
    the key a first save gives is true. *)
Definition keys_ok (db : DB) : Prop :=
  0 < next_pk (posts db) /\ 0 < next_pk (post_comments db) /\
  0 < next_pk (post_reactions db).

(** The order [sort(..., reverse=True)] leaves the counts in. *)
Definition by_count_reverse (a b : EmojiCount) : Prop := count b <= count a.

(** ** The other methods of [Post] *)

(** [Post.post_with_id_has_public_comments] *)
Definition post_with_id_has_public_comments (post_id : nat) (db : DB) : bool :=
  List.length
    (filter (fun p => has_pk post_id p && Post_public_comments p) (rows (posts db)))
  =? 1.

(** [Post.post_with_id_has_public_reactions] *)
Definition post_with_id_has_public_reactions (post_id : nat) (db : DB) : bool :=
  List.length
    (filter (fun p => has_pk post_id p && Post_public_reactions p) (rows (posts db)))
  =? 1.

(** [Post.count_comments] and [Post.count_reactions]; no row refers to the
    missing key of an unsaved post. *)
Definition count_comments (self : Post) (commenter_id : option nat) (db : DB) : nat :=
  match Post_id self with
  | Some k => count_comments_for_post_with_id k commenter_id db
  | None => 0
  end.

Definition count_reactions (self : Post) (reactor_id : option nat) (db : DB) : nat :=
  match Post_id self with
  | Some k => count_reactions_for_post_with_id k reactor_id db
  | None => 0
  end.

(** [Post.has_text] *)
Definition has_text (self : Post) : bool :=
  if truthy (Post_text self) then true else false.

(** The reverse accessors [post.image] and [post.video] of the one-to-one
    fields: they give the related row, and raise when there is none (which
    is why the tests ask [hasattr(created_post, 'image')]). *)
Inductive DoesNotExist := RelatedObjectDoesNotExist.

Definition Post_image (self : Post) (db : DB) : DoesNotExist + PostImage :=
  match Post_id self with
  | None => inl RelatedObjectDoesNotExist
  | Some k =>
      match find (fun i => PostImage_post_id i =? k) (rows (post_images db)) with
      | Some i => inr i
      | None => inl RelatedObjectDoesNotExist
      end
  end.

Definition Post_video (self : Post) (db : DB) : DoesNotExist + PostVideo :=
  match Post_id self with
  | None => inl RelatedObjectDoesNotExist
  | Some k =>
      match find (fun v => PostVideo_post_id v =? k) (rows (post_videos db)) with
      | Some v => inr v
      | None => inl RelatedObjectDoesNotExist
      end
  end.

(** A model instance is true. *)
#[export] Instance Truthy_PostImage : Truthy PostImage := fun _ => true.
#[export] Instance Truthy_PostVideo : Truthy PostVideo := fun _ => true.

(** [Post.has_image] and [Post.has_video] *)
Definition has_image (self : Post) (db : DB) : DoesNotExist + bool :=
  match Post_image self db with
  | inl e => inl e
  | inr i => inr (if truthy i then true else false)
  end.

Definition has_video (self : Post) (db : DB) : DoesNotExist + bool :=
  match Post_video self db with
  | inl e => inl e
  | inr v => inr (if truthy v then true else false)
  end.

(** A post of [get_trending_posts], annotated with [Count('reactions')]. *)
Record Trending := { trending_post : Post; reactions__count : nat }.

Definition created_key (p : Post) : nat :=
  match Post_created p with Some d => timestamp d | None => 0 end.

(** [order_by('-reactions__count', '-created')]: [a] may come before [b]. *)
Definition trending_leb (a b : Trending) : bool :=
  (reactions__count b <? reactions__count a) ||
  ((reactions__count b =? reactions__count a) &&
   (created_key (trending_post b) <=? created_key (trending_post a))).

Fixpoint insert_trending (x : Trending) (l : list Trending) : list Trending :=
  match l with
  | [] => [x]
  | y :: l' => if trending_leb x y then x :: y :: l' else y :: insert_trending x l'
  end.

(** [Post.get_trending_posts]: the posts joined with their reactions and
    with their links to the world circle, grouped by post, the reactions of
    each group counted. *)
Definition get_trending_posts (db : DB) : list Trending :=
  fold_right insert_trending []
    (flat_map
       (fun p =>
          match Post_id p with
          | None => []
          | Some k =>
              let links :=
                filter (fun l => (fst l =? k) && (snd l =? world_circle_id db))
                       (post_circles db) in
              let joined :=
                flat_map
                  (fun _ => filter (fun r => PostReaction_post_id r =? k)
                                   (rows (post_reactions db)))
                  links in
              match links with
              | [] => []
              | _ :: _ => [{| trending_post := p;
                              reactions__count := List.length joined |}]
              end
          end)
       (rows (posts db))).

(** The sum of the counts of a list of emoji counts. *)
Definition total_count (l : list EmojiCount) : nat :=
  fold_right (fun x n => count x + n) 0 l.

(** ** More invariants *)

Definition comments_ok (db : DB) : Prop := table_ok (post_comments db).

(** Every stored post has the two flags at their default. *)
Definition flags_ok (db : DB) : Prop :=
  forall p, In p (rows (posts db)) ->
            Post_public_comments p = true /\ Post_public_reactions p = true.

Definition trending_before (a b : Trending) : Prop := trending_leb a b = true.

(** Every row that refers to a post refers to a stored one. *)
Definition references_ok (db : DB) : Prop :=
  (forall i, In i (rows (post_images db)) -> post_exists (PostImage_post_id i) db = true) /\
  (forall v, In v (rows (post_videos db)) -> post_exists (PostVideo_post_id v) db = true) /\
  (forall c, In c (rows (post_comments db)) ->
             post_exists (PostComment_post_id c) db = true) /\
  (forall r, In r (rows (post_reactions db)) ->
             post_exists (PostReaction_post_id r) db = true) /\
  (forall l, In l (post_circles db) -> post_exists (fst l) db = true).

(** * Proofs *)

(** ** The monad *)

Lemma preserves_ret {A : Type} (P : DB -> Prop) (a : A) : preserves P (ret a).
Proof. intros db H; exact H. Qed.

Lemma preserves_raise {A : Type} (P : DB -> Prop) (e : Error) :
  preserves P (@raise A e).
Proof. intros db H; exact H. Qed.

Lemma preserves_bind {A B : Type} (P : DB -> Prop) (c : M A) (k : A -> M B) :
  preserves P c -> (forall a, preserves P (k a)) -> preserves P (bind c k).
Proof.
  intros Hc Hk db HP. unfold bind.
  specialize (Hc db HP).
  destruct (c db) as [[e | a] db']; simpl in *.
  - exact Hc.
  - apply Hk, Hc.
Qed.

Lemma preserves_when (P : DB -> Prop) (b : bool) (c : M unit) :
  preserves P c -> preserves P (when b c).
Proof. intros Hc. destruct b; simpl; [exact Hc | apply preserves_ret]. Qed.

Lemma preserves_and {A : Type} (P Q : DB -> Prop) (c : M A) :
  preserves P c -> preserves Q c -> preserves (fun db => P db /\ Q db) c.
Proof. intros HP HQ db [H1 H2]. split; [apply HP | apply HQ]; assumption. Qed.

(** ** Lists *)

Lemma NoDup_map_filter {A B : Type} (f : A -> B) (g : A -> bool) (l : list A) :
  NoDup (map f l) -> NoDup (map f (filter g l)).
Proof.
  induction l as [| x l IH]; simpl; intros H.
  - constructor.
  - inversion H as [| y l' Hx Hl]; subst.
    destruct (g x); simpl.
    + constructor.
      * intros Hin. apply Hx. apply in_map_iff in Hin.
        destruct Hin as [z [Hz Hin]]. apply filter_In in Hin.
        apply in_map_iff. exists z. tauto.
      * apply IH, Hl.
    + apply IH, Hl.
Qed.

Lemma NoDup_snoc {A : Type} (l : list A) (x : A) :
  NoDup l -> ~ In x l -> NoDup (l ++ [x]).
Proof.
  intros Hl Hx. induction l as [| y l IH]; simpl.
  - constructor; [intros [] | constructor].
  - inversion Hl; subst. constructor.
    + rewrite in_app_iff. simpl. intros [Hin | [Heq | []]].
      * contradiction.
      * subst. apply Hx. left. reflexivity.
    + apply IH; [assumption | intros Hin; apply Hx; right; exact Hin].
Qed.

Lemma existsb_false_forall {A : Type} (f : A -> bool) (l : list A) :
  existsb f l = false <-> forall x, In x l -> f x = false.
Proof.
  split.
  - intros H x Hx. destruct (f x) eqn:E; [| reflexivity].
    assert (existsb f l = true) by (apply existsb_exists; eauto). congruence.
  - intros H. destruct (existsb f l) eqn:E; [| reflexivity].
    apply existsb_exists in E. destruct E as [x [Hx Hf]].
    rewrite (H x Hx) in Hf. discriminate.
Qed.

(** ** Tables *)

Section TableFacts.
Context {R : Type} `{Model R}.
Hypothesis pk_with_pk : forall k r, pk (with_pk k r) = Some k.

Lemma has_pk_true (k : nat) (r : R) : has_pk k r = true <-> pk r = Some k.
Proof.
  unfold has_pk. destruct (pk r) as [j |].
  - rewrite Nat.eqb_eq. split; congruence.
  - split; discriminate.
Qed.

Lemma table_ok_empty : table_ok (empty_table R).
Proof. split; simpl; [intros r [] | constructor]. Qed.

Lemma map_pk_replace (k : nat) (r : R) (l : list R) :
  pk r = Some k ->
  map pk (map (fun x => if has_pk k x then r else x) l) = map pk l.
Proof.
  intros Hr. induction l as [| x l IH]; simpl; [reflexivity |].
  rewrite IH. f_equal.
  destruct (has_pk k x) eqn:E; [| reflexivity].
  apply has_pk_true in E. congruence.
Qed.

Lemma base_save_ok (r : R) (t : Table R) :
  table_ok t -> table_ok (snd (base_save r t)).
Proof.
  intros [Hk Hn]. unfold base_save.
  destruct (pk r) as [k |] eqn:Er.
  - destruct (existsb (has_pk k) (rows t)) eqn:Ex; simpl.
    + split; simpl.
      * intros x Hx. apply in_map_iff in Hx. destruct Hx as [y [Hy Hin]].
        destruct (has_pk k y) eqn:Ey.
        -- subst x. apply has_pk_true in Ey.
           destruct (Hk y Hin) as [j [Hj Hlt]]. exists k. split; [assumption |].
           congruence.
        -- subst x. apply Hk, Hin.
      * rewrite map_pk_replace; assumption.
    + split; simpl.
      * intros x Hx. apply in_app_iff in Hx. destruct Hx as [Hx | [Hx | []]].
        -- destruct (Hk x Hx) as [j [Hj Hlt]]. exists j. split; [assumption | lia].
        -- subst x. exists k. split; [assumption | lia].
      * rewrite map_app. simpl. apply NoDup_snoc; [assumption |].
        intros Hin. apply in_map_iff in Hin. destruct Hin as [y [Hy Hin]].
        rewrite existsb_false_forall in Ex. specialize (Ex y Hin).
        assert (has_pk k y = true) by (apply has_pk_true; congruence). congruence.
  - simpl. split; simpl.
    + intros x Hx. apply in_app_iff in Hx. destruct Hx as [Hx | [Hx | []]].
      * destruct (Hk x Hx) as [j [Hj Hlt]]. exists j. split; [assumption | lia].
      * subst x. exists (next_pk t). split; [apply pk_with_pk | lia].
    + rewrite map_app. simpl. apply NoDup_snoc; [assumption |].
      rewrite pk_with_pk. intros Hin. apply in_map_iff in Hin.
      destruct Hin as [y [Hy Hin]]. destruct (Hk y Hin) as [j [Hj Hlt]].
      rewrite Hj in Hy. inversion Hy. lia.
Qed.

Lemma delete_where_ok (sel : R -> bool) (t : Table R) :
  table_ok t -> table_ok (delete_where sel t).
Proof.
  intros [Hk Hn]. split; simpl.
  - intros r Hr. apply filter_In in Hr. apply Hk, Hr.
  - apply NoDup_map_filter, Hn.
Qed.

(** After a save the saved instance is a row of the table. *)
Lemma base_save_In (r : R) (t : Table R) :
  In (fst (base_save r t)) (rows (snd (base_save r t))).
Proof.
  unfold base_save. destruct (pk r) as [k |] eqn:Er.
  - destruct (existsb (has_pk k) (rows t)) eqn:Ex; simpl.
    + apply existsb_exists in Ex. destruct Ex as [y [Hy Hpk]].
      apply in_map_iff. exists y. rewrite Hpk. auto.
    + apply in_app_iff. right. left. reflexivity.
  - simpl. apply in_app_iff. right. left. reflexivity.
Qed.

Lemma base_save_next_pk (r : R) (t : Table R) :
  next_pk t <= next_pk (snd (base_save r t)).
Proof.
  unfold base_save. destruct (pk r) as [k |].
  - destruct (existsb (has_pk k) (rows t)); simpl; lia.
  - simpl. lia.
Qed.

Lemma base_save_fst (r : R) (t : Table R) :
  fst (base_save r t) = r \/
  (pk r = None /\ fst (base_save r t) = with_pk (next_pk t) r).
Proof.
  unfold base_save. destruct (pk r) as [k |].
  - destruct (existsb (has_pk k) (rows t)); simpl; auto.
  - simpl. auto.
Qed.

Lemma base_save_rows (r : R) (t : Table R) (x : R) :
  In x (rows (snd (base_save r t))) ->
  In x (rows t) \/ x = fst (base_save r t).
Proof.
  unfold base_save. destruct (pk r) as [k |].
  - destruct (existsb (has_pk k) (rows t)); simpl; intros Hx.
    + apply in_map_iff in Hx. destruct Hx as [y [Hy Hin]].
      destruct (has_pk k y); subst; auto.
    + apply in_app_iff in Hx. destruct Hx as [Hx | [Hx | []]]; auto.
  - simpl. intros Hx.
    apply in_app_iff in Hx. destruct Hx as [Hx | [Hx | []]]; auto.
Qed.

(** Replacing the row of key [k] keeps a column unique when the new row
    differs in it from every other row. *)
Lemma NoDup_replace {K : Type} (key : R -> K) (k : nat) (r : R) (l : list R) :
  NoDup (map pk l) ->
  NoDup (map key l) ->
  (forall x, In x l -> has_pk k x = false -> key x <> key r) ->
  NoDup (map key (map (fun x => if has_pk k x then r else x) l)).
Proof.
  induction l as [| x l IH]; simpl; intros Hp Hkey Hr.
  - constructor.
  - inversion Hp as [| ? ? Hpx Hpl]; subst.
    inversion Hkey as [| ? ? Hkx Hkl]; subst.
    assert (IH' := IH Hpl Hkl (fun y Hy => Hr y (or_intror Hy))).
    destruct (has_pk k x) eqn:Ex.
    + assert (Hl : forall y, In y l -> has_pk k y = false).
      { intros y Hy. destruct (has_pk k y) eqn:Ey; [| reflexivity].
        exfalso. apply Hpx. apply has_pk_true in Ex. apply has_pk_true in Ey.
        apply in_map_iff. exists y. split; [congruence | assumption]. }
      assert (Hsame : map (fun y => if has_pk k y then r else y) l = l).
      { clear - Hl. induction l as [| y l IHl]; simpl; [reflexivity |].
        rewrite (Hl y (or_introl eq_refl)). f_equal.
        apply IHl. intros z Hz. apply Hl. right. exact Hz. }
      rewrite Hsame. constructor; [| assumption].
      intros Hin. apply in_map_iff in Hin. destruct Hin as [y [Hy Hin]].
      apply (Hr y (or_intror Hin) (Hl y Hin)). exact Hy.
    + constructor; [| assumption].
      intros Hin. apply in_map_iff in Hin. destruct Hin as [y [Hy Hin]].
      apply in_map_iff in Hin. destruct Hin as [z [Hz Hin]].
      destruct (has_pk k z) eqn:Ez.
      * subst y. apply (Hr x (or_introl eq_refl) Ex). symmetry. exact Hy.
      * subst y. apply Hkx. apply in_map_iff. exists z. auto.
Qed.

(** A save that passes the check of a unique column keeps it unique. *)
Lemma base_save_unique {K : Type} (key : R -> K) (same : R -> R -> bool)
    (r : R) (t : Table R) :
  (forall a b, same a b = false -> key b <> key a) ->
  (forall k a, key (with_pk k a) = key a) ->
  table_ok t ->
  NoDup (map key (rows t)) ->
  existsb (same r) (others r t) = false ->
  NoDup (map key (rows (snd (base_save r t)))).
Proof.
  intros Hsame Hwith [Hk Hp] Hn Hex.
  rewrite existsb_false_forall in Hex.
  unfold base_save, others in *. destruct (pk r) as [k |] eqn:Er.
  - assert (Hoth : forall x, In x (rows t) -> has_pk k x = false -> key x <> key r).
    { intros x Hx Hpk. apply Hsame, Hex. apply filter_In. rewrite Hpk. auto. }
    destruct (existsb (has_pk k) (rows t)) eqn:Ex; simpl.
    + apply NoDup_replace; assumption.
    + rewrite map_app. simpl. apply NoDup_snoc; [assumption |].
      intros Hin. apply in_map_iff in Hin. destruct Hin as [y [Hy Hin]].
      rewrite existsb_false_forall in Ex.
      apply (Hoth y Hin (Ex y Hin)). exact Hy.
  - simpl. rewrite map_app. simpl. apply NoDup_snoc; [assumption |].
    rewrite Hwith. intros Hin. apply in_map_iff in Hin.
    destruct Hin as [y [Hy Hin]]. apply (Hsame r y (Hex y Hin)). exact Hy.
Qed.
End TableFacts.

(** ** Every write keeps [base_ok] *)

Lemma pk_with_pk_Post (k : nat) (p : Post) : pk (with_pk k p) = Some k.
Proof. reflexivity. Qed.

Lemma pk_with_pk_PostReaction (k : nat) (r : PostReaction) : pk (with_pk k r) = Some k.
Proof. reflexivity. Qed.

Lemma post_exists_lt (k : nat) (db : DB) :
  table_ok (posts db) -> post_exists k db = true -> k < next_pk (posts db).
Proof.
  intros [Hk _] Hex. apply existsb_exists in Hex. destruct Hex as [p [Hp Hpk]].
  apply has_pk_true in Hpk. destruct (Hk p Hp) as [j [Hj Hlt]].
  congruence.
Qed.

Lemma base_ok_initial (es : list Emoji) (world : nat) (cs : list nat)
    (cm lm : list (nat * nat)) :
  base_ok (initial es world cs cm lm).
Proof.
  unfold base_ok; simpl.
  repeat split; try (intros ? []); try constructor.
Qed.

Lemma base_ok_Post_super_save (p : Post) : preserves base_ok (Post_super_save p).
Proof.
  intros db H. unfold Post_super_save.
  destruct (Post_created p); [| exact H].
  pose proof (base_save_ok pk_with_pk_Post p (t := posts db)) as Hok.
  pose proof (base_save_next_pk p (posts db)) as Hle.
  destruct (base_save p (posts db)) as [r t]. simpl in *.
  destruct H as (H1 & H2 & H3 & H4 & H5 & H6 & H7).
  unfold base_ok; simpl. repeat split; auto.
  - apply Hok, H1.
  - apply Hok, H1.
  - apply H2.
  - apply H2.
  - intros i Hi. specialize (H3 i Hi). lia.
  - intros v Hv. specialize (H4 v Hv). lia.
  - intros l Hl. specialize (H5 l Hl). lia.
Qed.

Lemma base_ok_PostImage_save (i : PostImage) : preserves base_ok (PostImage_save i).
Proof.
  intros db H. unfold PostImage_save.
  destruct (file_is_image (PostImage_image i)); simpl; [| exact H].
  destruct (post_exists (PostImage_post_id i) db) eqn:Ex; simpl; [| exact H].
  destruct (existsb _ (others i (post_images db))); [exact H |].
  pose proof (base_save_rows i (post_images db)) as Hrows.
  pose proof (base_save_fst i (post_images db)) as Hfst.
  destruct (base_save i (post_images db)) as [r t]. simpl in *.
  destruct H as (H1 & H2 & H3 & H4 & H5 & H6 & H7).
  pose proof (post_exists_lt _ _ H1 Ex) as Hlt.
  unfold base_ok; simpl. repeat split; auto; try apply H1; try apply H2.
  intros x Hx. destruct (Hrows x Hx) as [Hin | Heq]; [apply H3, Hin |].
  subst x. destruct Hfst as [-> | [_ ->]]; simpl; exact Hlt.
Qed.

Lemma base_ok_PostVideo_save (v : PostVideo) : preserves base_ok (PostVideo_save v).
Proof.
  intros db H. unfold PostVideo_save.
  destruct (post_exists (PostVideo_post_id v) db) eqn:Ex; simpl; [| exact H].
  destruct (existsb _ (others v (post_videos db))); [exact H |].
  pose proof (base_save_rows v (post_videos db)) as Hrows.
  pose proof (base_save_fst v (post_videos db)) as Hfst.
  destruct (base_save v (post_videos db)) as [r t]. simpl in *.
  destruct H as (H1 & H2 & H3 & H4 & H5 & H6 & H7).
  pose proof (post_exists_lt _ _ H1 Ex) as Hlt.
  unfold base_ok; simpl. repeat split; auto; try apply H1; try apply H2.
  intros x Hx. destruct (Hrows x Hx) as [Hin | Heq]; [apply H4, Hin |].
  subst x. destruct Hfst as [-> | [_ ->]]; simpl; exact Hlt.
Qed.

Lemma add_link_In (links : list (nat * nat)) (l x : nat * nat) :
  In x (add_link links l) <-> In x links \/ x = l.
Proof.
  unfold add_link.
  destruct (existsb _ links) eqn:E.
  - split; [auto |]. intros [H | ->]; [assumption |].
    apply existsb_exists in E. destruct E as [[a b] [Hin Heq]].
    destruct l as [c d]. simpl in Heq.
    apply andb_true_iff in Heq. destruct Heq as [Ha Hb].
    apply Nat.eqb_eq in Ha, Hb. subst. exact Hin.
  - rewrite in_app_iff. simpl. intuition congruence.
Qed.

Lemma add_link_NoDup (links : list (nat * nat)) (l : nat * nat) :
  NoDup links -> NoDup (add_link links l).
Proof.
  intros H. unfold add_link.
  destruct (existsb _ links) eqn:E; [assumption |].
  apply NoDup_snoc; [assumption |].
  intros Hin. rewrite existsb_false_forall in E.
  specialize (E l Hin). rewrite !Nat.eqb_refl in E. discriminate.
Qed.

Lemma fold_add_link_In (ls links : list (nat * nat)) (x : nat * nat) :
  In x (fold_left add_link ls links) <-> In x links \/ In x ls.
Proof.
  revert links. induction ls as [| l ls IH]; intros links; simpl.
  - tauto.
  - rewrite IH, add_link_In. intuition.
Qed.

Lemma fold_add_link_NoDup (ls links : list (nat * nat)) :
  NoDup links -> NoDup (fold_left add_link ls links).
Proof.
  revert links. induction ls as [| l ls IH]; intros links H; simpl.
  - exact H.
  - apply IH, add_link_NoDup, H.
Qed.

Lemma base_ok_circles_add (p : Post) (cs : list nat) :
  preserves base_ok (circles_add p cs).
Proof.
  intros db H. unfold circles_add.
  destruct (Post_id p) as [k |]; [| exact H].
  destruct (post_exists k db) eqn:Ex; simpl; [| exact H].
  destruct (existsb _ cs); [exact H |].
  destruct H as (H1 & H2 & H3 & H4 & H5 & H6 & H7).
  pose proof (post_exists_lt _ _ H1 Ex) as Hlt.
  unfold base_ok; simpl. repeat split; auto; try apply H1; try apply H2.
  - intros l Hl. apply fold_add_link_In in Hl. destruct Hl as [Hl | Hl].
    + apply H5, Hl.
    + apply in_map_iff in Hl. destruct Hl as [c [<- _]]. exact Hlt.
  - apply fold_add_link_NoDup, H6.
Qed.

Lemma base_ok_PostComment_super_save (c : PostComment) :
  preserves base_ok (PostComment_super_save c).
Proof.
  intros db H. unfold PostComment_super_save.
  destruct (PostComment_created c); [| exact H].
  destruct (post_exists _ db); simpl; [| exact H].
  destruct (base_save c (post_comments db)) as [r t]. simpl. exact H.
Qed.

Lemma same_reactor_and_post_false (a b : PostReaction) :
  same_reactor_and_post a b = false -> reactor_and_post b <> reactor_and_post a.
Proof.
  unfold same_reactor_and_post, reactor_and_post. intros H Heq.
  inversion Heq as [[Hr Hp]]. rewrite Hr, Hp, !Nat.eqb_refl in H. discriminate.
Qed.

Lemma base_ok_PostReaction_super_save (r : PostReaction) :
  preserves base_ok (PostReaction_super_save r).
Proof.
  intros db H. unfold PostReaction_super_save.
  destruct (PostReaction_created r); [| exact H].
  destruct (post_exists _ db); simpl; [| exact H].
  destruct (emoji_exists _ db); simpl; [| exact H].
  destruct (existsb _ (others r (post_reactions db))) eqn:Eu; [exact H |].
  destruct H as (H1 & H2 & H3 & H4 & H5 & H6 & H7).
  pose proof (base_save_ok pk_with_pk_PostReaction r H2) as Hok.
  pose proof (base_save_unique reactor_and_post same_reactor_and_post r
                same_reactor_and_post_false (fun _ _ => eq_refl) H2 H7 Eu) as Hu.
  destruct (base_save r (post_reactions db)) as [r' t]. simpl in *.
  unfold base_ok; simpl. repeat split; auto; try apply H1; try apply Hok.
Qed.

Lemma base_ok_remove_comment_with_id (p : Post) (i : nat) :
  preserves base_ok (remove_comment_with_id p i).
Proof.
  intros db H. unfold remove_comment_with_id.
  destruct (Post_id p); exact H.
Qed.

Lemma base_ok_remove_reaction_with_id (p : Post) (i : nat) :
  preserves base_ok (remove_reaction_with_id p i).
Proof.
  intros db H. unfold remove_reaction_with_id.
  destruct (Post_id p) as [k |]; [| exact H]. simpl.
  destruct H as (H1 & H2 & H3 & H4 & H5 & H6 & H7).
  pose proof (delete_where_ok
                (fun r => (PostReaction_post_id r =? k) && has_pk i r) H2) as Hok.
  unfold base_ok; simpl. repeat split; auto; try apply H1; try apply Hok.
  apply NoDup_map_filter, H7.
Qed.

Lemma base_ok_Post_delete (p : Post) : preserves base_ok (Post_delete p).
Proof.
  intros db H. unfold Post_delete.
  destruct (Post_id p) as [k |]; [| exact H]. simpl.
  destruct H as (H1 & H2 & H3 & H4 & H5 & H6 & H7).
  pose proof (delete_where_ok (has_pk k) H1) as Hp.
  pose proof (delete_where_ok (fun r => PostReaction_post_id r =? k) H2) as Hr.
  unfold base_ok; simpl. repeat split; try apply Hp; try apply Hr.
  - intros i Hi. apply filter_In in Hi. apply H3, Hi.
  - intros v Hv. apply filter_In in Hv. apply H4, Hv.
  - intros l Hl. apply filter_In in Hl. apply H5, Hl.
  - apply NoDup_filter, H6.
  - apply NoDup_map_filter, H7.
Qed.

(** ** Composite operations *)

Lemma preserves_Post_save (P : DB -> Prop) (now : DateTime) (p : Post) :
  (forall p, preserves P (Post_super_save p)) -> preserves P (Post_save now p).
Proof. intros H. unfold Post_save. apply H. Qed.

Lemma preserves_create_post (P : DB -> Prop) (now : DateTime) (creator : nat)
    (circles_ids : list nat) (image : option File) (text : option string)
    (video : option File) (created : option DateTime) :
  (forall p, preserves P (Post_super_save p)) ->
  (forall i, preserves P (PostImage_save i)) ->
  (forall v, preserves P (PostVideo_save v)) ->
  (forall p cs, preserves P (circles_add p cs)) ->
  preserves P (create_post now creator circles_ids image text video created).
Proof.
  intros Hp Hi Hv Hc. unfold create_post.
  destruct (negb (truthy text) && negb (truthy image) && negb (truthy video));
    [apply preserves_raise |].
  destruct (truthy image && truthy video); [apply preserves_raise |].
  apply preserves_bind; [apply preserves_Post_save, Hp |]. intros post.
  apply preserves_bind.
  { destruct image as [f |]; [| apply preserves_ret].
    apply preserves_when, preserves_bind; [| intros; apply preserves_ret].
    unfold PostImage_objects_create.
    destruct (Post_id _); [apply Hi | apply preserves_raise]. }
  intros _. apply preserves_bind.
  { destruct video as [f |]; [| apply preserves_ret].
    apply preserves_when, preserves_bind; [| intros; apply preserves_ret].
    unfold PostVideo_objects_create.
    destruct (Post_id _); [apply Hv | apply preserves_raise]. }
  intros _. apply preserves_bind; [apply Hc |].
  intros _. apply preserves_bind; [apply preserves_Post_save, Hp |].
  intros; apply preserves_ret.
Qed.

Lemma preserves_create_comment (P : DB -> Prop) (now : DateTime) (text : string)
    (commenter : nat) (post : Post) :
  (forall c, preserves P (PostComment_super_save c)) ->
  preserves P (create_comment now text commenter post).
Proof.
  intros H. unfold create_comment.
  destruct (Post_id post); [apply H | apply preserves_raise].
Qed.

Lemma preserves_create_reaction (P : DB -> Prop) (now : DateTime) (reactor : nat)
    (emoji_id : nat) (post : Post) :
  (forall r, preserves P (PostReaction_super_save r)) ->
  preserves P (create_reaction now reactor emoji_id post).
Proof.
  intros H. unfold create_reaction.
  destruct (Post_id post); [apply H | apply preserves_raise].
Qed.

Lemma stable_run (P : DB -> Prop) (op : Op) (db : DB) :
  stable P -> P db -> P (run op db).
Proof.
  intros (Hp & Hi & Hv & Hc & Hco & Hr & Hrc & Hrr & Hd) H.
  destruct op; simpl; unfold comment, react.
  - apply preserves_create_post; assumption.
  - apply preserves_create_comment; assumption.
  - apply Hrc, H.
  - apply preserves_create_reaction; assumption.
  - apply preserves_create_reaction; assumption.
  - apply Hrr, H.
  - apply Hd, H.
Qed.

Lemma stable_reachable (P : DB -> Prop) (db : DB) :
  stable P -> (forall es world cs cm lm, P (initial es world cs cm lm)) ->
  reachable db -> P db.
Proof.
  intros Hs Hi Hr. induction Hr.
  - apply Hi.
  - apply stable_run; assumption.
Qed.

Lemma stable_base_ok : stable base_ok.
Proof.
  unfold stable. repeat match goal with |- _ /\ _ => split end.
  - apply base_ok_Post_super_save.
  - apply base_ok_PostImage_save.
  - apply base_ok_PostVideo_save.
  - apply base_ok_circles_add.
  - apply base_ok_PostComment_super_save.
  - apply base_ok_PostReaction_super_save.
  - apply base_ok_remove_comment_with_id.
  - apply base_ok_remove_reaction_with_id.
  - apply base_ok_Post_delete.
Qed.

Lemma reachable_base_ok (db : DB) : reachable db -> base_ok db.
Proof.
  apply stable_reachable; [apply stable_base_ok | apply base_ok_initial].
Qed.

(** ** [create_post], step by step *)

Lemma bind_ok {A B : Type} (c : M A) (k : A -> M B) (db db' : DB) (a : A) :
  c db = (inr a, db') -> bind c k db = k a db'.
Proof. intros H. unfold bind. rewrite H. reflexivity. Qed.

Lemma Post_objects_create_eq (now : DateTime) (creator : nat)
    (created : option DateTime) (db : DB) :
  Post_objects_create now creator created db =
  (inr (new_post now creator created (next_pk (posts db))),
   set_posts {| rows := rows (posts db) ++
                        [new_post now creator created (next_pk (posts db))];
                next_pk := S (next_pk (posts db)) |} db).
Proof. destruct created; reflexivity. Qed.

Lemma image_exists_false (db : DB) :
  base_ok db -> image_exists (next_pk (posts db)) db = false.
Proof.
  intros (_ & _ & H3 & _). unfold image_exists. apply existsb_false_forall.
  intros i Hi. specialize (H3 i Hi). apply Nat.eqb_neq. lia.
Qed.

Lemma video_exists_false (db : DB) :
  base_ok db -> video_exists (next_pk (posts db)) db = false.
Proof.
  intros (_ & _ & _ & H4 & _). unfold video_exists. apply existsb_false_forall.
  intros v Hv. specialize (H4 v Hv). apply Nat.eqb_neq. lia.
Qed.

Lemma image_step (image : option File) (p : Post) (k : nat) (db : DB) :
  Post_id p = Some k -> post_exists k db = true -> image_exists k db = false ->
  image_ok image = true ->
  match image with
  | Some f => when (truthy f) (PostImage_objects_create f (Post_id p) ;;; ret tt)
  | None => ret tt
  end db = (inr tt, insert_image image k db).
Proof.
  intros Hp Hex Him Hok. unfold insert_image.
  destruct image as [f |]; [| reflexivity].
  unfold image_ok in Hok.
  destruct (truthy f); [| reflexivity]. simpl in Hok. simpl.
  rewrite Hp. unfold bind, PostImage_objects_create, PostImage_save, others. simpl.
  rewrite Hok, Hex. simpl. unfold image_exists in Him. rewrite Him. reflexivity.
Qed.

(** An upload that cannot be opened as an image stops the call there. *)
Lemma image_step_fails (image : option File) (p : Post) (k : nat) (db : DB) :
  Post_id p = Some k -> image_ok image = false ->
  match image with
  | Some f => when (truthy f) (PostImage_objects_create f (Post_id p) ;;; ret tt)
  | None => ret tt
  end db = (inl OSError, db).
Proof.
  intros Hp Hok. destruct image as [f |]; [| discriminate].
  unfold image_ok in Hok.
  destruct (truthy f); [| discriminate]. simpl in Hok. simpl.
  rewrite Hp. unfold bind, PostImage_objects_create, PostImage_save. simpl.
  rewrite Hok. reflexivity.
Qed.

Lemma video_step (video : option File) (p : Post) (k : nat) (db : DB) :
  Post_id p = Some k -> post_exists k db = true -> video_exists k db = false ->
  match video with
  | Some f => when (truthy f) (PostVideo_objects_create f (Post_id p) ;;; ret tt)
  | None => ret tt
  end db = (inr tt, insert_video video k db).
Proof.
  intros Hp Hex Hvi. unfold insert_video.
  destruct video as [f |]; [| reflexivity].
  destruct (truthy f); [| reflexivity]. simpl.
  rewrite Hp. unfold bind, PostVideo_objects_create, PostVideo_save, others. simpl.
  rewrite Hex. simpl. unfold video_exists in Hvi. rewrite Hvi. reflexivity.
Qed.

Lemma posts_insert_image (image : option File) (k : nat) (db : DB) :
  posts (insert_image image k db) = posts db.
Proof. unfold insert_image. destruct image as [f |]; [destruct (truthy f) |]; reflexivity. Qed.

Lemma posts_insert_video (video : option File) (k : nat) (db : DB) :
  posts (insert_video video k db) = posts db.
Proof. unfold insert_video. destruct video as [f |]; [destruct (truthy f) |]; reflexivity. Qed.

Lemma post_videos_insert_image (image : option File) (k : nat) (db : DB) :
  post_videos (insert_image image k db) = post_videos db.
Proof. unfold insert_image. destruct image as [f |]; [destruct (truthy f) |]; reflexivity. Qed.

Lemma post_images_insert_video (video : option File) (k : nat) (db : DB) :
  post_images (insert_video video k db) = post_images db.
Proof. unfold insert_video. destruct video as [f |]; [destruct (truthy f) |]; reflexivity. Qed.

Lemma post_circles_insert_image (image : option File) (k : nat) (db : DB) :
  post_circles (insert_image image k db) = post_circles db.
Proof. unfold insert_image. destruct image as [f |]; [destruct (truthy f) |]; reflexivity. Qed.

Lemma post_circles_insert_video (video : option File) (k : nat) (db : DB) :
  post_circles (insert_video video k db) = post_circles db.
Proof. unfold insert_video. destruct video as [f |]; [destruct (truthy f) |]; reflexivity. Qed.

Lemma world_insert_image (image : option File) (k : nat) (db : DB) :
  world_circle_id (insert_image image k db) = world_circle_id db.
Proof. unfold insert_image. destruct image as [f |]; [destruct (truthy f) |]; reflexivity. Qed.

Lemma world_insert_video (video : option File) (k : nat) (db : DB) :
  world_circle_id (insert_video video k db) = world_circle_id db.
Proof. unfold insert_video. destruct video as [f |]; [destruct (truthy f) |]; reflexivity. Qed.

Lemma image_exists_insert_image (image : option File) (k j : nat) (db : DB) :
  image_exists j (insert_image image k db) =
  image_exists j db || (truthy image && (k =? j)).
Proof.
  unfold insert_image, image_exists.
  destruct image as [f |]; [| simpl; rewrite orb_false_r; reflexivity].
  change (truthy (Some f)) with (truthy f).
  destruct (truthy f); [| simpl; rewrite orb_false_r; reflexivity].
  cbn [post_images set_post_images rows andb]. rewrite existsb_app. simpl.
  rewrite orb_false_r. rewrite (Nat.eqb_sym k j). reflexivity.
Qed.

Lemma video_exists_insert_video (video : option File) (k j : nat) (db : DB) :
  video_exists j (insert_video video k db) =
  video_exists j db || (truthy video && (k =? j)).
Proof.
  unfold insert_video, video_exists.
  destruct video as [f |]; [| simpl; rewrite orb_false_r; reflexivity].
  change (truthy (Some f)) with (truthy f).
  destruct (truthy f); [| simpl; rewrite orb_false_r; reflexivity].
  cbn [post_videos set_post_videos rows andb]. rewrite existsb_app. simpl.
  rewrite orb_false_r. rewrite (Nat.eqb_sym k j). reflexivity.
Qed.

Lemma existsb_has_pk_snoc (k : nat) (p : Post) (l : list Post) :
  Post_id p = Some k -> existsb (has_pk k) (l ++ [p]) = true.
Proof.
  intros H. rewrite existsb_app. simpl. unfold has_pk at 2. simpl. rewrite H.
  rewrite Nat.eqb_refl. rewrite orb_true_r. reflexivity.
Qed.

Lemma circles_insert_image (image : option File) (k : nat) (db : DB) :
  circles (insert_image image k db) = circles db.
Proof. unfold insert_image. destruct image as [f |]; [destruct (truthy f) |]; reflexivity. Qed.

Lemma circles_insert_video (video : option File) (k : nat) (db : DB) :
  circles (insert_video video k db) = circles db.
Proof. unfold insert_video. destruct video as [f |]; [destruct (truthy f) |]; reflexivity. Qed.

(** The check of the circle keys, for a post that has no link yet. *)
Lemma links_check (k : nat) (cs : list nat) (d db : DB) :
  (forall l, In l (post_circles d) -> fst l < k) -> circles d = circles db ->
  existsb (fun c => negb (existsb (fun x => (fst x =? k) && (snd x =? c))
                                  (post_circles d)) &&
                    negb (circle_exists c d)) cs =
  negb (circles_ok cs db).
Proof.
  intros Hlt Hc. unfold circles_ok, circle_exists. rewrite Hc.
  induction cs as [| c cs IH]; [reflexivity |]. simpl. rewrite IH.
  assert (Hno : existsb (fun x => (fst x =? k) && (snd x =? c)) (post_circles d) = false).
  { apply existsb_false_forall. intros l Hl. specialize (Hlt l Hl).
    apply andb_false_iff. left. apply Nat.eqb_neq. lia. }
  rewrite Hno. simpl. rewrite negb_andb. reflexivity.
Qed.

(** The three ways a call that passes the checks can end: the image cannot
    be opened, a circle is not stored, or the post is made. *)
Lemma create_post_outcome (now : DateTime) (creator : nat) (circles_ids : list nat)
    (image : option File) (text : option string) (video : option File)
    (created : option DateTime) (db : DB) :
  base_ok db -> rejected image text video = false ->
  create_post now creator circles_ids image text video created db =
  if negb (image_ok image)
  then (inl OSError, stored_db now creator created db)
  else if negb (circles_ok circles_ids db)
  then (inl IntegrityError, media_db now creator image video created db)
  else (inr (created_post now creator text created db),
        created_db now creator circles_ids image text video created db).
Proof.
  intros Hok Hrej. unfold rejected in Hrej. apply orb_false_iff in Hrej.
  destruct Hrej as [Hr1 Hr2]. unfold create_post. rewrite Hr1, Hr2.
  unfold media_db, stored_db.
  set (k := next_pk (posts db)).
  set (p0 := new_post now creator created k).
  set (p := if truthy text then Post_set_text text p0 else p0).
  assert (Hp : Post_id p = Some k) by (subst p; destruct (truthy text); reflexivity).
  assert (Hc : exists c, Post_created p = Some c).
  { subst p p0. destruct (truthy text); destruct created; simpl; eauto. }
  rewrite (bind_ok _ _ _ (Post_objects_create_eq now creator created db)).
  fold k p0 p.
  set (db1 := set_posts _ db).
  assert (Hex1 : post_exists k db1 = true).
  { unfold post_exists, db1. simpl. apply existsb_has_pk_snoc. reflexivity. }
  assert (Hi1 : image_exists k db1 = false) by (apply (image_exists_false Hok)).
  destruct (image_ok image) eqn:Him; cbn [negb].
  2:{ unfold bind at 1. rewrite (image_step_fails image p db1 Hp Him). reflexivity. }
  rewrite (bind_ok _ _ _ (image_step image p db1 Hp Hex1 Hi1 Him)).
  set (db2 := insert_image image k db1).
  assert (Hex2 : post_exists k db2 = true).
  { unfold post_exists, db2. rewrite posts_insert_image. exact Hex1. }
  assert (Hv2 : video_exists k db2 = false).
  { unfold video_exists, db2. rewrite post_videos_insert_image.
    apply (video_exists_false Hok). }
  rewrite (bind_ok _ _ _ (video_step video p db2 Hp Hex2 Hv2)).
  set (db3 := insert_video video k db2).
  assert (Hex3 : post_exists k db3 = true).
  { unfold post_exists, db3. rewrite posts_insert_video. exact Hex2. }
  assert (Hl3 : forall l, In l (post_circles db3) -> fst l < k).
  { unfold db3, db2. rewrite post_circles_insert_video, post_circles_insert_image.
    destruct Hok as (_ & _ & _ & _ & H5 & _). exact H5. }
  assert (Hc3 : circles db3 = circles db).
  { unfold db3, db2. rewrite circles_insert_video, circles_insert_image. reflexivity. }
  unfold bind at 1. unfold circles_add. rewrite Hp, Hex3. simpl negb. cbv iota.
  rewrite (@links_check k circles_ids db3 db Hl3 Hc3).
  destruct (circles_ok circles_ids db); cbn [negb]; [| reflexivity].
  set (db4 := set_post_circles _ db3).
  unfold bind, Post_save, Post_super_save.
  destruct Hc as [c Hc]. rewrite Hc. simpl truthy. rewrite andb_false_r.
  rewrite Hc. unfold base_save. simpl pk. rewrite Hp.
  assert (Hex4 : existsb (has_pk k) (rows (posts db4)) = true) by exact Hex3.
  rewrite Hex4. reflexivity.
Qed.

Lemma create_post_eq (now : DateTime) (creator : nat) (circles_ids : list nat)
    (image : option File) (text : option string) (video : option File)
    (created : option DateTime) (db : DB) :
  base_ok db -> rejected image text video = false ->
  image_ok image = true -> circles_ok circles_ids db = true ->
  create_post now creator circles_ids image text video created db =
  (inr (created_post now creator text created db),
   created_db now creator circles_ids image text video created db).
Proof.
  intros Hok Hrej Him Hcs. rewrite (@create_post_outcome now creator circles_ids image text video created db Hok Hrej).
  rewrite Him, Hcs. reflexivity.
Qed.

(** When the call returns, it returns the made post and leaves the
    database with it. *)
Lemma create_post_inr (now : DateTime) (creator : nat) (circles_ids : list nat)
    (image : option File) (text : option string) (video : option File)
    (created : option DateTime) (db db' : DB) (post : Post) :
  base_ok db ->
  create_post now creator circles_ids image text video created db = (inr post, db') ->
  rejected image text video = false /\
  image_ok image = true /\ circles_ok circles_ids db = true /\
  post = created_post now creator text created db /\
  db' = created_db now creator circles_ids image text video created db.
Proof.
  intros Hok Hrun.
  destruct (rejected image text video) eqn:Hrej.
  - exfalso. revert Hrun. unfold rejected in Hrej. unfold create_post.
    destruct (negb (truthy text) && negb (truthy image) && negb (truthy video));
      [discriminate |].
    simpl in Hrej. rewrite Hrej. discriminate.
  - rewrite (@create_post_outcome now creator circles_ids image text video created db Hok Hrej) in Hrun.
    destruct (image_ok image); [| discriminate].
    destruct (circles_ok circles_ids db); [| discriminate].
    cbn [negb] in Hrun. inversion Hrun. auto.
Qed.

(** ** The content rule *)

Lemma rejected_iff (image : option File) (text : option string) (video : option File) :
  rejected image text video = true <->
  (truthy text = false /\ truthy image = false /\ truthy video = false) \/
  (truthy image = true /\ truthy video = true).
Proof.
  unfold rejected.
  destruct (truthy text), (truthy image), (truthy video); simpl; intuition congruence.
Qed.

Lemma create_post_rejected (now : DateTime) (creator : nat) (circles_ids : list nat)
    (image : option File) (text : option string) (video : option File)
    (created : option DateTime) (db : DB) :
  rejected image text video = true ->
  exists detail,
    create_post now creator circles_ids image text video created db =
    (inl (ValidationError detail), db).
Proof.
  unfold rejected, create_post. intros H.
  destruct (negb (truthy text) && negb (truthy image) && negb (truthy video)).
  - eexists. reflexivity.
  - simpl in H. rewrite H. eexists. reflexivity.
Qed.

Lemma rows_posts_created_db (now : DateTime) (creator : nat) (circles_ids : list nat)
    (image : option File) (text : option string) (video : option File)
    (created : option DateTime) (db : DB) :
  rows (posts (created_db now creator circles_ids image text video created db)) =
  map (fun x => if has_pk (next_pk (posts db)) x
                then created_post now creator text created db else x)
      (rows (posts db) ++ [new_post now creator created (next_pk (posts db))]).
Proof.
  unfold created_db. simpl. rewrite posts_insert_video, posts_insert_image.
  reflexivity.
Qed.

Lemma image_exists_created_db (now : DateTime) (creator : nat) (circles_ids : list nat)
    (image : option File) (text : option string) (video : option File)
    (created : option DateTime) (db : DB) (j : nat) :
  image_exists j (created_db now creator circles_ids image text video created db) =
  image_exists j db || (truthy image && (next_pk (posts db) =? j)).
Proof.
  transitivity
    (image_exists j
       (insert_image image (next_pk (posts db))
          (set_posts
             {| rows := rows (posts db) ++
                        [new_post now creator created (next_pk (posts db))];
                next_pk := S (next_pk (posts db)) |} db))).
  - unfold image_exists, created_db. simpl. rewrite post_images_insert_video.
    reflexivity.
  - rewrite image_exists_insert_image. reflexivity.
Qed.

Lemma video_exists_created_db (now : DateTime) (creator : nat) (circles_ids : list nat)
    (image : option File) (text : option string) (video : option File)
    (created : option DateTime) (db : DB) (j : nat) :
  video_exists j (created_db now creator circles_ids image text video created db) =
  video_exists j db || (truthy video && (next_pk (posts db) =? j)).
Proof.
  transitivity
    (video_exists j
       (insert_video video (next_pk (posts db))
          (insert_image image (next_pk (posts db))
             (set_posts
                {| rows := rows (posts db) ++
                           [new_post now creator created (next_pk (posts db))];
                   next_pk := S (next_pk (posts db)) |} db)))).
  - reflexivity.
  - rewrite video_exists_insert_video. unfold video_exists.
    rewrite post_videos_insert_image. reflexivity.
Qed.

Lemma truthy_text_created_post (now : DateTime) (creator : nat) (text : option string)
    (created : option DateTime) (db : DB) :
  truthy (Post_text (created_post now creator text created db)) = truthy text.
Proof.
  unfold created_post. destruct (truthy text) eqn:E; simpl; [exact E | reflexivity].
Qed.

Lemma Post_id_created_post (now : DateTime) (creator : nat) (text : option string)
    (created : option DateTime) (db : DB) :
  Post_id (created_post now creator text created db) = Some (next_pk (posts db)).
Proof. unfold created_post. destruct (truthy text); reflexivity. Qed.

Lemma created_post_content_ok (now : DateTime) (creator : nat) (circles_ids : list nat)
    (image : option File) (text : option string) (video : option File)
    (created : option DateTime) (db : DB) :
  base_ok db -> rejected image text video = false ->
  post_content_ok (created_post now creator text created db)
    (created_db now creator circles_ids image text video created db).
Proof.
  intros Hok Hrej. exists (next_pk (posts db)).
  rewrite Post_id_created_post, truthy_text_created_post.
  rewrite image_exists_created_db, video_exists_created_db.
  rewrite (image_exists_false Hok), (video_exists_false Hok), Nat.eqb_refl.
  unfold rejected in Hrej.
  destruct (truthy text), (truthy image), (truthy video); simpl in *;
    auto; discriminate.
Qed.

Lemma content_ok_created_db (now : DateTime) (creator : nat) (circles_ids : list nat)
    (image : option File) (text : option string) (video : option File)
    (created : option DateTime) (db : DB) :
  base_ok db -> content_ok db -> rejected image text video = false ->
  content_ok (created_db now creator circles_ids image text video created db).
Proof.
  intros Hok Hc Hrej p Hp. rewrite rows_posts_created_db in Hp.
  apply in_map_iff in Hp. destruct Hp as [y [Hy Hin]].
  apply in_app_iff in Hin. destruct Hin as [Hin | [Hin | []]].
  - destruct Hok as ([Hk _] & _).
    destruct (Hk y Hin) as [j [Hj Hlt]].
    assert (Hpk : has_pk (next_pk (posts db)) y = false).
    { unfold has_pk. rewrite Hj. apply Nat.eqb_neq. lia. }
    rewrite Hpk in Hy. subst p.
    destruct (Hc y Hin) as [j' [Hj' [H1 H2]]].
    change (Post_id y = Some j) in Hj.
    assert (j' = j) by congruence. subst j'.
    exists j. rewrite image_exists_created_db, video_exists_created_db.
    assert (Hne : (next_pk (posts db) =? j) = false) by (apply Nat.eqb_neq; lia).
    rewrite Hne, !andb_false_r, !orb_false_r. auto.
  - subst y. unfold has_pk in Hy. simpl in Hy. rewrite Nat.eqb_refl in Hy.
    subst p. apply created_post_content_ok; assumption.
Qed.

Lemma content_ok_same_posts (db d : DB) :
  same_posts db d -> content_ok db -> content_ok d.
Proof.
  intros (Hp & Hi & Hv) Hc p Hin. rewrite Hp in Hin.
  destruct (Hc p Hin) as [k [Hk [H1 H2]]].
  exists k. unfold image_exists, video_exists in *. rewrite Hi, Hv. auto.
Qed.

Lemma same_posts_PostComment_super_save (db : DB) (c : PostComment) :
  preserves (same_posts db) (PostComment_super_save c).
Proof.
  intros d H. unfold PostComment_super_save.
  destruct (PostComment_created c); [| exact H].
  destruct (post_exists _ d); simpl; [| exact H].
  destruct (base_save c (post_comments d)). exact H.
Qed.

Lemma same_posts_PostReaction_super_save (db : DB) (r : PostReaction) :
  preserves (same_posts db) (PostReaction_super_save r).
Proof.
  intros d H. unfold PostReaction_super_save.
  destruct (PostReaction_created r); [| exact H].
  destruct (post_exists _ d); simpl; [| exact H].
  destruct (emoji_exists _ d); simpl; [| exact H].
  destruct (existsb _ _); [exact H |].
  destruct (base_save r (post_reactions d)). exact H.
Qed.

Lemma same_posts_refl (db : DB) : same_posts db db.
Proof. repeat split. Qed.

Lemma existsb_filter_other {A : Type} (key : A -> nat) (j k : nat) (l : list A) :
  j <> k ->
  existsb (fun x => key x =? j) (filter (fun x => negb (key x =? k)) l) =
  existsb (fun x => key x =? j) l.
Proof.
  intros Hne. induction l as [| x l IH]; simpl; [reflexivity |].
  destruct (key x =? k) eqn:Ek; simpl.
  - apply Nat.eqb_eq in Ek.
    assert (Hj : (key x =? j) = false) by (apply Nat.eqb_neq; lia).
    rewrite Hj. exact IH.
  - rewrite IH. reflexivity.
Qed.

Lemma content_ok_Post_delete (p : Post) : preserves content_ok (Post_delete p).
Proof.
  intros db Hc. unfold Post_delete.
  destruct (Post_id p) as [k |]; [| exact Hc]. simpl.
  intros y Hy. simpl in Hy. apply filter_In in Hy. destruct Hy as [Hin Hpk].
  destruct (Hc y Hin) as [j [Hj [H1 H2]]].
  assert (Hne : j <> k).
  { intros ->. unfold has_pk in Hpk. simpl in Hpk.
    rewrite Hj, Nat.eqb_refl in Hpk. discriminate. }
  exists j. split; [exact Hj |].
  unfold image_exists, video_exists in *. simpl.
  rewrite (existsb_filter_other PostImage_post_id _ Hne).
  rewrite (existsb_filter_other PostVideo_post_id _ Hne). auto.
Qed.

(** Every operation that is not stopped between its writes keeps the
    content rule. *)
Lemma content_ok_run (op : Op) (db : DB) :
  base_ok db -> content_ok db -> completes op db = true -> content_ok (run op db).
Proof.
  intros Hok IH Hcomp.
  destruct op; simpl; unfold comment, react.
  - simpl in Hcomp. destruct (rejected image text video) eqn:Hrej.
    + destruct (create_post_rejected now creator circles_ids image text video
                  created db Hrej) as [detail ->]. exact IH.
    + simpl in Hcomp. apply andb_true_iff in Hcomp. destruct Hcomp as [Him Hcs].
      rewrite create_post_eq by assumption. simpl.
      apply content_ok_created_db; assumption.
  - apply (content_ok_same_posts (db := db)); [| exact IH].
    apply preserves_create_comment;
      [apply same_posts_PostComment_super_save | apply same_posts_refl].
  - unfold remove_comment_with_id. destruct (Post_id self); exact IH.
  - apply (content_ok_same_posts (db := db)); [| exact IH].
    apply preserves_create_reaction;
      [apply same_posts_PostReaction_super_save | apply same_posts_refl].
  - apply (content_ok_same_posts (db := db)); [| exact IH].
    apply preserves_create_reaction;
      [apply same_posts_PostReaction_super_save | apply same_posts_refl].
  - unfold remove_reaction_with_id. destruct (Post_id self); exact IH.
  - apply content_ok_Post_delete, IH.
Qed.

Lemma never_both_same_posts (db d : DB) :
  same_posts db d -> never_both db -> never_both d.
Proof.
  intros (Hp & Hi & Hv) Hn k. specialize (Hn k).
  unfold image_exists, video_exists in *. rewrite Hi, Hv. exact Hn.
Qed.

Lemma existsb_filter_le {A : Type} (f g : A -> bool) (l : list A) :
  existsb f l = false -> existsb f (filter g l) = false.
Proof.
  intros H. rewrite existsb_false_forall in H. apply existsb_false_forall.
  intros x Hx. apply filter_In in Hx. apply H, Hx.
Qed.

Lemma never_both_Post_delete (p : Post) : preserves never_both (Post_delete p).
Proof.
  intros db Hn. unfold Post_delete.
  destruct (Post_id p) as [k |]; [| exact Hn]. simpl.
  intros j. specialize (Hn j). unfold image_exists, video_exists in *. simpl.
  apply andb_false_iff in Hn. apply andb_false_iff.
  destruct Hn as [Hn | Hn]; [left | right]; apply existsb_filter_le, Hn.
Qed.

Lemma never_both_media_db (now : DateTime) (creator : nat)
    (image : option File) (text : option string) (video : option File)
    (created : option DateTime) (db : DB) :
  base_ok db -> never_both db -> rejected image text video = false ->
  never_both (media_db now creator image video created db).
Proof.
  intros Hok Hn Hrej j. unfold media_db, stored_db.
  assert (Hi : image_exists j
                 (insert_video video (next_pk (posts db))
                    (insert_image image (next_pk (posts db))
                       (set_posts
                          {| rows := rows (posts db) ++
                                     [new_post now creator created (next_pk (posts db))];
                             next_pk := S (next_pk (posts db)) |} db))) =
               image_exists j db || (truthy image && (next_pk (posts db) =? j))).
  { unfold image_exists at 1. rewrite post_images_insert_video.
    fold (image_exists j
            (insert_image image (next_pk (posts db))
               (set_posts
                  {| rows := rows (posts db) ++
                             [new_post now creator created (next_pk (posts db))];
                     next_pk := S (next_pk (posts db)) |} db))).
    rewrite image_exists_insert_image. reflexivity. }
  assert (Hv : video_exists j
                 (insert_video video (next_pk (posts db))
                    (insert_image image (next_pk (posts db))
                       (set_posts
                          {| rows := rows (posts db) ++
                                     [new_post now creator created (next_pk (posts db))];
                             next_pk := S (next_pk (posts db)) |} db))) =
               video_exists j db || (truthy video && (next_pk (posts db) =? j))).
  { rewrite video_exists_insert_video. unfold video_exists.
    rewrite post_videos_insert_image. reflexivity. }
  cbv zeta. rewrite Hi, Hv. specialize (Hn j).
  destruct (next_pk (posts db) =? j) eqn:E.
  - apply Nat.eqb_eq in E. subst j.
    rewrite (image_exists_false Hok), (video_exists_false Hok).
    unfold rejected in Hrej.
    destruct (truthy text), (truthy image), (truthy video); simpl in *;
      auto; discriminate.
  - rewrite !andb_false_r, !orb_false_r. exact Hn.
Qed.

Lemma never_both_created_db (now : DateTime) (creator : nat) (circles_ids : list nat)
    (image : option File) (text : option string) (video : option File)
    (created : option DateTime) (db : DB) :
  base_ok db -> never_both db -> rejected image text video = false ->
  never_both (created_db now creator circles_ids image text video created db).
Proof.
  intros Hok Hn Hrej j.
  rewrite image_exists_created_db, video_exists_created_db. specialize (Hn j).
  destruct (next_pk (posts db) =? j) eqn:E.
  - apply Nat.eqb_eq in E. subst j.
    rewrite (image_exists_false Hok), (video_exists_false Hok).
    unfold rejected in Hrej.
    destruct (truthy text), (truthy image), (truthy video); simpl in *;
      auto; discriminate.
  - rewrite !andb_false_r, !orb_false_r. exact Hn.
Qed.

(** No post of a reachable database has both an image and a video, whether
    or not the calls that made it returned. *)
Lemma reachable_never_both (db : DB) : reachable db -> never_both db.
Proof.
  intros Hr. induction Hr as [es world cs cm lm | op db Hr IH].
  - intros k. reflexivity.
  - pose proof (reachable_base_ok Hr) as Hok.
    destruct op; simpl; unfold comment, react.
    + destruct (rejected image text video) eqn:Hrej.
      * destruct (create_post_rejected now creator circles_ids image text video
                    created db Hrej) as [detail ->]. exact IH.
      * rewrite (@create_post_outcome now creator circles_ids image text video
                   created db Hok Hrej).
        destruct (image_ok image); cbn [negb snd].
        2:{ intros k. exact (IH k). }
        destruct (circles_ok circles_ids db); cbn [negb snd].
        -- apply never_both_created_db; assumption.
        -- apply (@never_both_media_db now creator image text video created db);
             assumption.
    + apply (never_both_same_posts (db := db)); [| exact IH].
      apply preserves_create_comment;
        [apply same_posts_PostComment_super_save | apply same_posts_refl].
    + unfold remove_comment_with_id. destruct (Post_id self); exact IH.
    + apply (never_both_same_posts (db := db)); [| exact IH].
      apply preserves_create_reaction;
        [apply same_posts_PostReaction_super_save | apply same_posts_refl].
    + apply (never_both_same_posts (db := db)); [| exact IH].
      apply preserves_create_reaction;
        [apply same_posts_PostReaction_super_save | apply same_posts_refl].
    + unfold remove_reaction_with_id. destruct (Post_id self); exact IH.
    + apply never_both_Post_delete, IH.
Qed.

(** ** Which exceptions [create_post] raises *)

Lemma no_validation_error_ret {A : Type} (a : A) : no_validation_error (ret a).
Proof. intros db detail. discriminate. Qed.

Lemma no_validation_error_bind {A B : Type} (c : M A) (k : A -> M B) :
  no_validation_error c -> (forall a, no_validation_error (k a)) ->
  no_validation_error (bind c k).
Proof.
  intros Hc Hk db detail. unfold bind.
  specialize (Hc db detail).
  destruct (c db) as [[e | a] db']; simpl in *.
  - intros Heq. apply Hc. inversion Heq. reflexivity.
  - apply Hk.
Qed.

Lemma no_validation_error_Post_save (now : DateTime) (p : Post) :
  no_validation_error (Post_save now p).
Proof.
  intros db detail. unfold Post_save, Post_super_save.
  destruct (Post_created _); [| discriminate].
  destruct (base_save _ (posts db)). discriminate.
Qed.

Lemma no_validation_error_PostImage_objects_create (f : File) (k : option nat) :
  no_validation_error (PostImage_objects_create f k).
Proof.
  intros db detail. unfold PostImage_objects_create, PostImage_save.
  destruct k; [| discriminate].
  repeat match goal with
         | |- context [if ?b then _ else _] => destruct b
         end; try discriminate.
Qed.

Lemma no_validation_error_PostVideo_objects_create (f : File) (k : option nat) :
  no_validation_error (PostVideo_objects_create f k).
Proof.
  intros db detail. unfold PostVideo_objects_create, PostVideo_save.
  destruct k; [| discriminate].
  repeat match goal with
         | |- context [if ?b then _ else _] => destruct b
         end; try discriminate.
Qed.

Lemma no_validation_error_circles_add (p : Post) (cs : list nat) :
  no_validation_error (circles_add p cs).
Proof.
  intros db detail. unfold circles_add.
  destruct (Post_id p); [| discriminate].
  destruct (post_exists _ db); simpl; [| discriminate].
  destruct (existsb _ cs); discriminate.
Qed.

Lemma create_post_validation_error_rejected (now : DateTime) (creator : nat)
    (circles_ids : list nat) (image : option File) (text : option string)
    (video : option File) (created : option DateTime) (db : DB) (detail : string) :
  fst (create_post now creator circles_ids image text video created db) =
    inl (ValidationError detail) ->
  rejected image text video = true.
Proof.
  unfold rejected, create_post.
  destruct (negb (truthy text) && negb (truthy image) && negb (truthy video));
    [reflexivity |].
  destruct (truthy image && truthy video); [reflexivity |].
  intros H. exfalso. revert H.
  apply no_validation_error_bind; [apply no_validation_error_Post_save |].
  intros post. apply no_validation_error_bind.
  { destruct image as [f |]; [| apply no_validation_error_ret].
    destruct (truthy f); simpl; [| apply no_validation_error_ret].
    apply no_validation_error_bind;
      [apply no_validation_error_PostImage_objects_create |].
    intros; apply no_validation_error_ret. }
  intros _. apply no_validation_error_bind.
  { destruct video as [f |]; [| apply no_validation_error_ret].
    destruct (truthy f); simpl; [| apply no_validation_error_ret].
    apply no_validation_error_bind;
      [apply no_validation_error_PostVideo_objects_create |].
    intros; apply no_validation_error_ret. }
  intros _. apply no_validation_error_bind; [apply no_validation_error_circles_add |].
  intros _. apply no_validation_error_bind; [apply no_validation_error_Post_save |].
  intros; apply no_validation_error_ret.
Qed.

(** C9.  A call of [create_post] that raises a validation error leaves the
    database as it was: no row of [Post], [PostImage] or [PostVideo] and no
    circle link is written, since both checks come before the first write. *)
Theorem create_post_validation_error_writes_nothing (now : DateTime) (creator : nat)
    (circles_ids : list nat) (image : option File) (text : option string)
    (video : option File) (created : option DateTime) (db : DB) (detail : string) :
  fst (create_post now creator circles_ids image text video created db) =
    inl (ValidationError detail) ->
  snd (create_post now creator circles_ids image text video created db) = db.
Proof.
  intros H. apply create_post_validation_error_rejected in H.
  destruct (create_post_rejected now creator circles_ids image text video created db H)
    as [d ->].
  reflexivity.
Qed.

Lemma create_post_validation_error_writes_nothing_witness :
  fst (create_post t0 7 [1] photo None clip None db_two_posts) =
    inl (ValidationError "A post must have an image or a video, not both.") /\
  snd (create_post t0 7 [1] photo None clip None db_two_posts) = db_two_posts.
Proof.
  split; [reflexivity |].
  apply (@create_post_validation_error_writes_nothing t0 7 [1] photo None clip None
           db_two_posts "A post must have an image or a video, not both.").
  reflexivity.
Defined.

(** C1, amended.  A call of [create_post] raises a validation error
    exactly when it is given neither text nor image nor video, or both an
    image and a video.  In every other case a row of [Post] is stored; the
    post is returned when the image, if one is given, can be opened as an
    image and every circle named is stored; a post that is returned is
    stored and has content, and the posts stored before keep theirs.  In
    every reachable database no post has both an image and a video. *)
Theorem create_post_checks_content (db : DB) :
  reachable db ->
  never_both db /\
  forall now creator circles_ids image text video created,
    let r := create_post now creator circles_ids image text video created db in
    ((exists detail, fst r = inl (ValidationError detail)) <->
     (truthy text = false /\ truthy image = false /\ truthy video = false) \/
     (truthy image = true /\ truthy video = true)) /\
    (~ ((truthy text = false /\ truthy image = false /\ truthy video = false) \/
        (truthy image = true /\ truthy video = true)) ->
     (exists p, In p (rows (posts (snd r))) /\ Post_id p = Some (next_pk (posts db))) /\
     (image_ok image = true -> circles_ok circles_ids db = true ->
      exists post, fst r = inr post)) /\
    (forall post, fst r = inr post ->
       In post (rows (posts (snd r))) /\ post_content_ok post (snd r) /\
       (content_ok db -> content_ok (snd r))).
Proof.
  intros Hr. split; [apply reachable_never_both, Hr |].
  pose proof (reachable_base_ok Hr) as Hok.
  intros now creator circles_ids image text video created r. subst r.
  repeat match goal with |- _ /\ _ => split end.
  - rewrite <- rejected_iff. split.
    + intros [detail H]. apply create_post_validation_error_rejected in H. exact H.
    + intros H.
      destruct (create_post_rejected now creator circles_ids image text video
                  created db H) as [detail ->].
      exists detail. reflexivity.
  - intros Hacc.
    assert (Hrej : rejected image text video = false).
    { destruct (rejected image text video) eqn:E; [| reflexivity].
      exfalso. apply Hacc, rejected_iff, E. }
    rewrite (@create_post_outcome now creator circles_ids image text video
               created db Hok Hrej).
    split.
    + destruct (image_ok image); cbn [negb].
      2:{ exists (new_post now creator created (next_pk (posts db))).
          split; [| reflexivity]. unfold stored_db. simpl.
          apply in_app_iff. right. left. reflexivity. }
      destruct (circles_ok circles_ids db); cbn [negb snd].
      * exists (created_post now creator text created db).
        split; [| apply Post_id_created_post].
        rewrite rows_posts_created_db. apply in_map_iff.
        exists (new_post now creator created (next_pk (posts db))). split.
        -- unfold has_pk. simpl. rewrite Nat.eqb_refl. reflexivity.
        -- apply in_app_iff. right. left. reflexivity.
      * exists (new_post now creator created (next_pk (posts db))).
        split; [| reflexivity]. unfold media_db, stored_db.
        rewrite posts_insert_video, posts_insert_image. simpl.
        apply in_app_iff. right. left. reflexivity.
    + intros -> ->. eexists. reflexivity.
  - intros post Hpost.
    destruct (create_post now creator circles_ids image text video created db)
      as [res db'] eqn:Hrun.
    cbn [fst snd] in *. subst res.
    destruct (@create_post_inr _ _ _ _ _ _ _ _ _ _ Hok Hrun) as (Hrej & Him & Hcs & -> & ->).
    repeat match goal with |- _ /\ _ => split end.
    + rewrite rows_posts_created_db. apply in_map_iff.
      exists (new_post now creator created (next_pk (posts db))). split.
      * unfold has_pk. simpl. rewrite Nat.eqb_refl. reflexivity.
      * apply in_app_iff. right. left. reflexivity.
    + apply created_post_content_ok; assumption.
    + intros Hc. apply content_ok_created_db; assumption.
Qed.

(** An empty text is no text. *)
Example create_post_empty_text :
  fst (create_post t1 7 [1] None (Some EmptyString) None None db_two_posts) =
    inl (ValidationError "A post requires text or an image/video.") /\
  exists post,
    fst (create_post t1 7 [1] photo (Some EmptyString) None None db_two_posts) =
      inr post /\ Post_text post = None.
Proof. split; [reflexivity |]. eexists. split; reflexivity. Qed.

Lemma create_post_checks_content_witness :
  reachable db_two_posts /\
  exists post,
    fst (create_post t1 7 [1] photo hello None None db_two_posts) = inr post /\
    In post (rows (posts (snd (create_post t1 7 [1] photo hello None None
                                 db_two_posts)))) /\
    post_content_ok post
      (snd (create_post t1 7 [1] photo hello None None db_two_posts)).
Proof.
  assert (H : reachable db_two_posts)
    by (repeat apply reachable_run; apply reachable_initial).
  split; [exact H |].
  destruct (create_post_checks_content H) as [_ Hc].
  destruct (Hc t1 7 [1] photo hello None None) as [_ [Hret Hin]].
  assert (Hacc : ~ ((truthy hello = false /\ truthy photo = false /\
                     truthy (@None File) = false) \/
                    (truthy photo = true /\ truthy (@None File) = true))).
  { intros [[H1 _] | [_ H2]]; discriminate. }
  destruct (Hret Hacc) as [_ Hpost].
  destruct (Hpost eq_refl eq_refl) as [post H1].
  exists post. split; [exact H1 |].
  destruct (Hin post H1) as [H2 [H3 _]]. split; assumption.
Defined.

(** C1, as stated, fails: a call that passes both checks and names a
    circle that is not stored raises after the row of the post was
    written, and leaves a stored post that has neither text nor image nor
    video, since the text is written only by the last save; so does a call
    whose image cannot be opened. *)
Lemma create_post_leaves_post_without_content :
  reachable db0 /\
  ~ ((truthy hello = false /\ truthy (@None File) = false /\
      truthy (@None File) = false) \/
     (truthy (@None File) = true /\ truthy (@None File) = true)) /\
  fst (create_post t0 7 [99] None hello None None db0) = inl IntegrityError /\
  (exists p,
     In p (rows (posts (snd (create_post t0 7 [99] None hello None None db0)))) /\
     ~ post_content_ok p (snd (create_post t0 7 [99] None hello None None db0))) /\
  fst (create_post t0 7 [1] broken_photo hello None None db0) = inl OSError /\
  (exists p,
     In p (rows (posts (snd (create_post t0 7 [1] broken_photo hello None None
                               db0)))) /\
     ~ post_content_ok p
         (snd (create_post t0 7 [1] broken_photo hello None None db0))).
Proof.
  split; [apply reachable_initial |].
  split; [intros [[H1 _] | [H1 _]]; discriminate |].
  split; [reflexivity |]. split.
  - exists (new_post t0 7 None 1). split; [left; reflexivity |].
    intros [k [Hk [H _]]]. vm_compute in H. discriminate.
  - split; [reflexivity |].
    exists (new_post t0 7 None 1). split; [left; reflexivity |].
    intros [k [Hk [H _]]]. vm_compute in H. discriminate.
Qed.

(** ** One reaction per reactor and post *)

Lemma reactor_and_post_eqb (a b : nat) (r : PostReaction) :
  (PostReaction_reactor r =? a) && (PostReaction_post_id r =? b) = true <->
  reactor_and_post r = (a, b).
Proof.
  unfold reactor_and_post. rewrite andb_true_iff, !Nat.eqb_eq.
  split; [intros [-> ->]; reflexivity | intros H; inversion H; auto].
Qed.

Lemma unique_iff_at_most_one (db : DB) :
  unique_reactions db <-> at_most_one_reaction db.
Proof.
  unfold unique_reactions, at_most_one_reaction, reactions_by.
  induction (rows (post_reactions db)) as [| x l IH]; simpl.
  - split; [intros _ a b; simpl; lia | intros _; constructor].
  - split.
    + intros H a b. inversion H as [| ? ? Hx Hl]; subst.
      destruct ((PostReaction_reactor x =? a) && (PostReaction_post_id x =? b)) eqn:E.
      * apply reactor_and_post_eqb in E. simpl.
        assert (Hnil : filter (fun r => (PostReaction_reactor r =? a) &&
                                        (PostReaction_post_id r =? b)) l = []).
        { destruct (filter _ l) as [| y l'] eqn:Ef; [reflexivity |].
          exfalso. apply Hx.
          assert (Hy : In y (filter (fun r => (PostReaction_reactor r =? a) &&
                                              (PostReaction_post_id r =? b)) l))
            by (rewrite Ef; left; reflexivity).
          apply filter_In in Hy. destruct Hy as [Hin Hy].
          apply reactor_and_post_eqb in Hy.
          apply in_map_iff. exists y. split; [congruence | assumption]. }
        rewrite Hnil. simpl. lia.
      * apply IH, Hl.
    + intros H. constructor.
      * intros Hin. apply in_map_iff in Hin. destruct Hin as [y [Hy Hin]].
        specialize (H (PostReaction_reactor x) (PostReaction_post_id x)).
        rewrite !Nat.eqb_refl in H. simpl in H.
        assert (Hy' : In y (filter (fun r =>
                        (PostReaction_reactor r =? PostReaction_reactor x) &&
                        (PostReaction_post_id r =? PostReaction_post_id x)) l)).
        { apply filter_In. split; [assumption |].
          apply reactor_and_post_eqb. exact Hy. }
        destruct (filter _ l); [destruct Hy' | simpl in H; lia].
      * apply IH. intros a b. specialize (H a b).
        destruct ((PostReaction_reactor x =? a) && (PostReaction_post_id x =? b));
          simpl in H; lia.
Qed.

Lemma unique_reactions_create_reaction (now : DateTime) (reactor emoji_id : nat)
    (post : Post) :
  preserves unique_reactions (create_reaction now reactor emoji_id post).
Proof.
  intros db H. unfold create_reaction.
  destruct (Post_id post) as [k |]; [| exact H].
  unfold PostReaction_save, PostReaction_super_save, others, base_save. simpl.
  destruct (post_exists k db); simpl; [| exact H].
  destruct (emoji_exists emoji_id db); simpl; [| exact H].
  destruct (existsb _ (rows (post_reactions db))) eqn:Ex; simpl; [exact H |].
  unfold unique_reactions. simpl. rewrite map_app. simpl.
  apply NoDup_snoc; [exact H |].
  intros Hin. apply in_map_iff in Hin. destruct Hin as [y [Hy Hin]].
  rewrite existsb_false_forall in Ex. specialize (Ex y Hin).
  apply same_reactor_and_post_false in Ex. apply Ex. exact Hy.
Qed.

Lemma unique_reactions_remove_reaction_with_id (self : Post) (reaction_id : nat) :
  preserves unique_reactions (remove_reaction_with_id self reaction_id).
Proof.
  intros db H. unfold remove_reaction_with_id.
  destruct (Post_id self) as [k |]; [| exact H].
  unfold unique_reactions. simpl. apply NoDup_map_filter, H.
Qed.

Lemma react_twice (now now' : DateTime) (post : Post) (reactor e e' : nat)
    (db db' : DB) (r : PostReaction) :
  react now post reactor e db = (inr r, db') ->
  react now' post reactor e' db' = (inl IntegrityError, db').
Proof.
  unfold react, create_reaction.
  destruct (Post_id post) as [k |]; [| discriminate].
  unfold PostReaction_save, PostReaction_super_save, others, base_save. simpl.
  destruct (post_exists k db) eqn:Ep; simpl; [| discriminate].
  destruct (emoji_exists e db) eqn:Ee; simpl; [| discriminate].
  destruct (existsb _ (rows (post_reactions db))) eqn:Ex; simpl; [discriminate |].
  intros H. inversion H; subst; clear H.
  unfold post_exists in *. simpl. rewrite Ep. simpl.
  destruct (emoji_exists e' _); simpl; [| reflexivity].
  rewrite existsb_app. simpl. unfold same_reactor_and_post at 2. simpl.
  rewrite !Nat.eqb_refl. simpl. rewrite orb_true_r. reflexivity.
Qed.

(** C2.  In every reachable database a (reactor, post) pair has at most one
    row of [PostReaction]; [create_reaction], [react] and
    [remove_reaction_with_id] keep it so; and after a user has reacted to a
    post, reacting again raises an integrity error and writes nothing. *)
Theorem reaction_unique_per_reactor_and_post :
  (forall db, reachable db -> at_most_one_reaction db) /\
  (forall db now reactor emoji_id post,
      at_most_one_reaction db ->
      at_most_one_reaction (snd (create_reaction now reactor emoji_id post db))) /\
  (forall db now self reactor emoji_id,
      at_most_one_reaction db ->
      at_most_one_reaction (snd (react now self reactor emoji_id db))) /\
  (forall db self reaction_id,
      at_most_one_reaction db ->
      at_most_one_reaction (snd (remove_reaction_with_id self reaction_id db))) /\
  (forall db now self reactor emoji_id r db',
      react now self reactor emoji_id db = (inr r, db') ->
      forall now' emoji_id',
        react now' self reactor emoji_id' db' = (inl IntegrityError, db')).
Proof.
  repeat match goal with |- _ /\ _ => split end.
  - intros db Hr. apply unique_iff_at_most_one.
    apply reachable_base_ok in Hr. apply Hr.
  - intros db now reactor emoji_id post H. apply unique_iff_at_most_one.
    apply unique_reactions_create_reaction, unique_iff_at_most_one, H.
  - intros db now self reactor emoji_id H. apply unique_iff_at_most_one.
    apply unique_reactions_create_reaction, unique_iff_at_most_one, H.
  - intros db self reaction_id H. apply unique_iff_at_most_one.
    apply unique_reactions_remove_reaction_with_id, unique_iff_at_most_one, H.
  - intros db now self reactor emoji_id r db' H now' emoji_id'.
    eapply react_twice. exact H.
Qed.

Lemma reaction_unique_per_reactor_and_post_witness :
  reachable db_reacted /\
  List.length (reactions_by 9 1 db_reacted) = 1 /\
  at_most_one_reaction db_reacted /\
  react t1 (saved_post 1) 9 4 db_reacted = (inl IntegrityError, db_reacted).
Proof.
  assert (H : reachable db_reacted)
    by (repeat apply reachable_run; apply reachable_initial).
  destruct reaction_unique_per_reactor_and_post as (H1 & _ & _ & _ & H5).
  split; [exact H |]. split; [reflexivity |]. split; [apply H1, H |].
  apply (H5 db_two_posts t1 (saved_post 1) 9 3
            {| PostReaction_id := Some 1; PostReaction_post_id := 1;
               PostReaction_created := Some t1; PostReaction_reactor := 9;
               PostReaction_emoji_id := 3 |}).
  reflexivity.
Defined.

(** ** Deleting a post *)

Lemma filter_not_key_In {A : Type} (key : A -> nat) (k : nat) (l : list A) (x : A) :
  In x (filter (fun y => negb (key y =? k)) l) <-> In x l /\ key x <> k.
Proof.
  rewrite filter_In, negb_true_iff, Nat.eqb_neq. reflexivity.
Qed.

Lemma filter_key_after_delete {A : Type} (key : A -> nat) (k : nat)
    (f : A -> bool) (l : list A) :
  filter (fun y => (key y =? k) && f y) (filter (fun y => negb (key y =? k)) l) = [].
Proof.
  induction l as [| x l IH]; simpl; [reflexivity |].
  destruct (key x =? k) eqn:E; simpl; [exact IH |].
  rewrite E. simpl. exact IH.
Qed.

(** C8.  Deleting a post deletes, with the post, exactly the rows of
    [PostComment], [PostReaction], [PostImage] and [PostVideo] that refer to
    it: afterwards the post has no comment, reaction, image or video. *)
Theorem Post_delete_cascades (self : Post) (k : nat) (db : DB) :
  Post_id self = Some k ->
  let db' := snd (Post_delete self db) in
  fst (Post_delete self db) = inr tt /\
  (forall p, In p (rows (posts db')) <-> In p (rows (posts db)) /\ Post_id p <> Some k) /\
  (forall c, In c (rows (post_comments db')) <->
             In c (rows (post_comments db)) /\ PostComment_post_id c <> k) /\
  (forall r, In r (rows (post_reactions db')) <->
             In r (rows (post_reactions db)) /\ PostReaction_post_id r <> k) /\
  (forall i, In i (rows (post_images db')) <->
             In i (rows (post_images db)) /\ PostImage_post_id i <> k) /\
  (forall v, In v (rows (post_videos db')) <->
             In v (rows (post_videos db)) /\ PostVideo_post_id v <> k) /\
  count_comments_for_post_with_id k None db' = 0 /\
  count_reactions_for_post_with_id k None db' = 0 /\
  image_exists k db' = false /\ video_exists k db' = false.
Proof.
  intros Hk db'. subst db'. unfold Post_delete. rewrite Hk. simpl.
  repeat match goal with |- _ /\ _ => split end.
  - reflexivity.
  - intros p. rewrite filter_In, negb_true_iff.
    unfold has_pk. simpl. destruct (Post_id p) as [j |].
    + rewrite Nat.eqb_neq. split; intros [H1 H2]; (split; [exact H1 |]); congruence.
    + split; intros [H1 H2]; (split; [exact H1 |]); congruence.
  - intros c. apply (filter_not_key_In PostComment_post_id).
  - intros r. apply (filter_not_key_In PostReaction_post_id).
  - intros i. apply (filter_not_key_In PostImage_post_id).
  - intros v. apply (filter_not_key_In PostVideo_post_id).
  - unfold count_comments_for_post_with_id. simpl.
    rewrite (filter_key_after_delete PostComment_post_id k (fun _ => true)).
    reflexivity.
  - unfold count_reactions_for_post_with_id. simpl.
    rewrite (filter_key_after_delete PostReaction_post_id k (fun _ => true)).
    reflexivity.
  - unfold image_exists. simpl. apply existsb_false_forall. intros i Hi.
    apply (filter_not_key_In PostImage_post_id) in Hi. apply Nat.eqb_neq, Hi.
  - unfold video_exists. simpl. apply existsb_false_forall. intros v Hv.
    apply (filter_not_key_In PostVideo_post_id) in Hv. apply Nat.eqb_neq, Hv.
Qed.

Lemma Post_delete_cascades_witness :
  Post_id (saved_post 1) = Some 1 /\
  count_reactions_for_post_with_id 1 None db_reacted = 1 /\
  fst (Post_delete (saved_post 1) db_reacted) = inr tt /\
  count_reactions_for_post_with_id 1 None
    (snd (Post_delete (saved_post 1) db_reacted)) = 0.
Proof.
  split; [reflexivity |]. split; [reflexivity |].
  destruct (@Post_delete_cascades (saved_post 1) 1 db_reacted eq_refl)
    as (H1 & _ & _ & _ & _ & _ & _ & H8 & _).
  split; [exact H1 | exact H8].
Defined.

(** ** Timestamps *)

Lemma stable_keys_ok : stable keys_ok.
Proof.
  unfold stable. repeat match goal with |- _ /\ _ => split end.
  - intros p db H. unfold Post_super_save.
    destruct (Post_created p); [| exact H].
    pose proof (base_save_next_pk p (posts db)) as Hle.
    destruct (base_save p (posts db)). simpl in *.
    unfold keys_ok in *. simpl. intuition lia.
  - intros i db H. unfold PostImage_save.
    destruct (negb _); [exact H |].
    destruct (negb _); [exact H |].
    destruct (existsb _ (others i (post_images db))); [exact H |].
    destruct (base_save i (post_images db)). exact H.
  - intros v db H. unfold PostVideo_save.
    destruct (negb _); [exact H |].
    destruct (existsb _ (others v (post_videos db))); [exact H |].
    destruct (base_save v (post_videos db)). exact H.
  - intros p cs db H. unfold circles_add.
    destruct (Post_id p); [| exact H].
    destruct (negb _); [exact H |].
    destruct (existsb _ cs); exact H.
  - intros c db H. unfold PostComment_super_save.
    destruct (PostComment_created c); [| exact H].
    destruct (negb _); [exact H |].
    pose proof (base_save_next_pk c (post_comments db)) as Hle.
    destruct (base_save c (post_comments db)). simpl in *.
    unfold keys_ok in *. simpl. intuition lia.
  - intros r db H. unfold PostReaction_super_save.
    destruct (PostReaction_created r); [| exact H].
    destruct (negb _); [exact H |].
    destruct (negb _); [exact H |].
    destruct (existsb _ (others r (post_reactions db))); [exact H |].
    pose proof (base_save_next_pk r (post_reactions db)) as Hle.
    destruct (base_save r (post_reactions db)). simpl in *.
    unfold keys_ok in *. simpl. intuition lia.
  - intros p i db H. unfold remove_comment_with_id.
    destruct (Post_id p); exact H.
  - intros p i db H. unfold remove_reaction_with_id.
    destruct (Post_id p); exact H.
  - intros p db H. unfold Post_delete.
    destruct (Post_id p); exact H.
Qed.

Lemma reachable_keys_ok (db : DB) : reachable db -> keys_ok db.
Proof.
  apply stable_reachable; [apply stable_keys_ok |].
  intros. unfold keys_ok. simpl. lia.
Qed.

Lemma Post_save_first (now : DateTime) (self : Post) (db : DB) :
  Post_id self = None ->
  exists p db',
    Post_save now self db = (inr p, db') /\ In p (rows (posts db')) /\
    Post_id p = Some (next_pk (posts db)) /\
    Post_created p =
      match Post_created self with Some c => Some c | None => Some now end.
Proof.
  intros Hid. unfold Post_save, Post_super_save, base_save. rewrite Hid. simpl.
  destruct (Post_created self) as [c |] eqn:Ec; simpl.
  - rewrite Ec, Hid. do 2 eexists. split; [reflexivity |]. simpl.
    split; [apply in_app_iff; right; left; reflexivity |].
    split; [reflexivity | first [reflexivity | exact Ec]].
  - rewrite Hid. do 2 eexists. split; [reflexivity |]. simpl.
    split; [apply in_app_iff; right; left; reflexivity |].
    split; reflexivity.
Qed.

Lemma PostComment_save_first (now : DateTime) (self : PostComment) (db : DB) :
  PostComment_id self = None ->
  post_exists (PostComment_post_id self) db = true ->
  exists c db',
    PostComment_save now self db = (inr c, db') /\
    In c (rows (post_comments db')) /\
    PostComment_id c = Some (next_pk (post_comments db)) /\
    PostComment_created c = Some now.
Proof.
  intros Hid Hex.
  unfold PostComment_save, PostComment_super_save, base_save. rewrite Hid. simpl.
  rewrite Hex, Hid. simpl. do 2 eexists. split; [reflexivity |]. simpl.
  split; [apply in_app_iff; right; left; reflexivity |].
  split; reflexivity.
Qed.

Lemma PostReaction_save_first (now : DateTime) (self : PostReaction) (db : DB) :
  PostReaction_id self = None ->
  post_exists (PostReaction_post_id self) db = true ->
  emoji_exists (PostReaction_emoji_id self) db = true ->
  existsb (same_reactor_and_post self) (rows (post_reactions db)) = false ->
  exists r db',
    PostReaction_save now self db = (inr r, db') /\
    In r (rows (post_reactions db')) /\
    PostReaction_id r = Some (next_pk (post_reactions db)) /\
    PostReaction_created r = Some now.
Proof.
  intros Hid Hex Hem Hun.
  unfold PostReaction_save, PostReaction_super_save, base_save, others.
  rewrite Hid. simpl. rewrite Hex, Hem, Hid. simpl.
  unfold same_reactor_and_post in *. simpl. rewrite Hun.
  do 2 eexists. split; [reflexivity |]. simpl.
  split; [apply in_app_iff; right; left; reflexivity |].
  split; reflexivity.
Qed.

Lemma Post_save_later (now : DateTime) (self p : Post) (db db' : DB) :
  truthy (Post_id self) = true ->
  Post_save now self db = (inr p, db') ->
  Post_created p = Post_created self /\ In p (rows (posts db')).
Proof.
  intros Hid. unfold Post_save, Post_super_save. rewrite Hid. simpl.
  destruct (Post_created self) as [c |] eqn:Ec; [| discriminate].
  pose proof (base_save_In self (posts db)) as Hin.
  pose proof (base_save_fst self (posts db)) as Hfst.
  destruct (base_save self (posts db)) as [q t]. simpl in *.
  intros H. inversion H; subst; clear H. simpl. split; [| exact Hin].
  destruct Hfst as [-> | [Hnone _]]; [exact Ec |].
  rewrite Hnone in Hid. discriminate.
Qed.

Lemma PostComment_save_later (now : DateTime) (self c : PostComment) (db db' : DB) :
  truthy (PostComment_id self) = true ->
  PostComment_save now self db = (inr c, db') ->
  PostComment_created c = PostComment_created self /\
  In c (rows (post_comments db')).
Proof.
  intros Hid. unfold PostComment_save, PostComment_super_save. rewrite Hid. simpl.
  destruct (PostComment_created self) as [d |] eqn:Ec; [| discriminate].
  destruct (negb _); [discriminate |].
  pose proof (base_save_In self (post_comments db)) as Hin.
  pose proof (base_save_fst self (post_comments db)) as Hfst.
  destruct (base_save self (post_comments db)) as [q t]. simpl in *.
  intros H. inversion H; subst; clear H. simpl. split; [| exact Hin].
  destruct Hfst as [-> | [Hnone _]]; [exact Ec |].
  rewrite Hnone in Hid. discriminate.
Qed.

Lemma PostReaction_save_later (now : DateTime) (self r : PostReaction) (db db' : DB) :
  truthy (PostReaction_id self) = true ->
  PostReaction_save now self db = (inr r, db') ->
  PostReaction_created r = PostReaction_created self /\
  In r (rows (post_reactions db')).
Proof.
  intros Hid. unfold PostReaction_save, PostReaction_super_save. rewrite Hid. simpl.
  destruct (PostReaction_created self) as [d |] eqn:Ec; [| discriminate].
  destruct (negb _); [discriminate |].
  destruct (negb _); [discriminate |].
  destruct (existsb _ (others self (post_reactions db))); [discriminate |].
  pose proof (base_save_In self (post_reactions db)) as Hin.
  pose proof (base_save_fst self (post_reactions db)) as Hfst.
  destruct (base_save self (post_reactions db)) as [q t]. simpl in *.
  intros H. inversion H; subst; clear H. simpl. split; [| exact Hin].
  destruct Hfst as [-> | [Hnone _]]; [exact Ec |].
  rewrite Hnone in Hid. discriminate.
Qed.

(** C7, as amended.  The first save of a [PostComment] or a [PostReaction]
    that was built without a key sets [created] to the time of the save;
    the first save of a [Post] built without a key does so unless [created]
    was supplied when the post was built, and then keeps the supplied
    value; every save of an instance of the three models that carries a
    key, a later save of a stored row as well as the first save of an
    instance built under a key, leaves [created] as it is.  The key a first
    save gives is true in every reachable database, so a saved row is saved
    under a key from then on. *)
Theorem created_set_on_first_save_then_kept :
  (forall now self db,
      Post_id self = None ->
      exists p db',
        Post_save now self db = (inr p, db') /\ In p (rows (posts db')) /\
        Post_id p = Some (next_pk (posts db)) /\
        Post_created p =
          match Post_created self with Some c => Some c | None => Some now end) /\
  (forall now self db,
      PostComment_id self = None ->
      post_exists (PostComment_post_id self) db = true ->
      exists c db',
        PostComment_save now self db = (inr c, db') /\
        In c (rows (post_comments db')) /\
        PostComment_id c = Some (next_pk (post_comments db)) /\
        PostComment_created c = Some now) /\
  (forall now self db,
      PostReaction_id self = None ->
      post_exists (PostReaction_post_id self) db = true ->
      emoji_exists (PostReaction_emoji_id self) db = true ->
      existsb (same_reactor_and_post self) (rows (post_reactions db)) = false ->
      exists r db',
        PostReaction_save now self db = (inr r, db') /\
        In r (rows (post_reactions db')) /\
        PostReaction_id r = Some (next_pk (post_reactions db)) /\
        PostReaction_created r = Some now) /\
  (forall now self p db db',
      truthy (Post_id self) = true ->
      Post_save now self db = (inr p, db') ->
      Post_created p = Post_created self /\ In p (rows (posts db'))) /\
  (forall now self c db db',
      truthy (PostComment_id self) = true ->
      PostComment_save now self db = (inr c, db') ->
      PostComment_created c = PostComment_created self /\
      In c (rows (post_comments db'))) /\
  (forall now self r db db',
      truthy (PostReaction_id self) = true ->
      PostReaction_save now self db = (inr r, db') ->
      PostReaction_created r = PostReaction_created self /\
      In r (rows (post_reactions db'))) /\
  (forall db, reachable db -> keys_ok db).
Proof.
  repeat match goal with |- _ /\ _ => split end.
  - apply Post_save_first.
  - apply PostComment_save_first.
  - apply PostReaction_save_first.
  - intros now self p db db'. apply Post_save_later.
  - intros now self c db db'. apply PostComment_save_later.
  - intros now self r db db'. apply PostReaction_save_later.
  - apply reachable_keys_ok.
Qed.

Lemma created_set_on_first_save_then_kept_witness :
  PostComment_id unsaved_comment = None /\
  post_exists (PostComment_post_id unsaved_comment) db_two_posts = true /\
  (exists c db',
      PostComment_save t1 unsaved_comment db_two_posts = (inr c, db') /\
      PostComment_created c = Some t1) /\
  truthy (Post_id (saved_post 1)) = true /\
  (forall p db',
      Post_save t1 (saved_post 1) db_two_posts = (inr p, db') ->
      Post_created p = Some t0).
Proof.
  destruct created_set_on_first_save_then_kept as (_ & H2 & _ & H4 & _).
  split; [reflexivity |]. split; [reflexivity |]. split.
  - destruct (H2 t1 unsaved_comment db_two_posts eq_refl eq_refl)
      as [c [db' [Hs [_ [_ Hc]]]]].
    exists c, db'. split; assumption.
  - split; [reflexivity |]. intros p db' Hs.
    apply (H4 t1 (saved_post 1) p db_two_posts db' eq_refl Hs).
Defined.

(** C7, as stated, fails for a post built with [created] given, as
    [create_post] builds it when it is passed [created]: its first save, at
    time [t1], does not assign [created] but keeps the value [t0] it was
    built with.  It fails as well for a comment built under a key: its
    first save, which stores the row, keeps the [created] it was built
    with. *)
Lemma created_not_assigned_on_first_save_when_supplied :
  Post_id supplied_post = None /\
  (exists p,
      fst (Post_save t1 supplied_post db0) = inr p /\
      In p (rows (posts (snd (Post_save t1 supplied_post db0)))) /\
      Post_created p = Some t0 /\ Post_created p <> Some t1) /\
  (exists p,
      fst (create_post t1 7 [1] None hello None (Some t0) db0) = inr p /\
      Post_created p = Some t0 /\ Post_created p <> Some t1) /\
  ~ In keyed_comment (rows (post_comments db_two_posts)) /\
  (exists c,
      fst (PostComment_save t1 keyed_comment db_two_posts) = inr c /\
      In c (rows (post_comments (snd (PostComment_save t1 keyed_comment
                                        db_two_posts)))) /\
      PostComment_created c = Some t0 /\ PostComment_created c <> Some t1).
Proof.
  split; [reflexivity |]. split.
  - eexists. split; [reflexivity |]. split; [left; reflexivity |].
    split; [reflexivity |]. discriminate.
  - split.
    + eexists. split; [reflexivity |]. split; [reflexivity |]. discriminate.
    + split; [intros [] |].
      eexists. split; [reflexivity |]. split; [left; reflexivity |].
      split; [reflexivity |]. discriminate.
Qed.

(** ** Emoji counts *)

Lemma insert_by_count_perm (x : EmojiCount) (l : list EmojiCount) :
  Permutation (insert_by_count x l) (x :: l).
Proof.
  induction l as [| y l IH]; simpl; [reflexivity |].
  destruct (count y <=? count x); [reflexivity |].
  rewrite IH. apply perm_swap.
Qed.

Lemma sort_by_count_reverse_perm (l : list EmojiCount) :
  Permutation (sort_by_count_reverse l) l.
Proof.
  induction l as [| x l IH]; simpl; [constructor |].
  rewrite insert_by_count_perm. constructor. exact IH.
Qed.

Lemma insert_by_count_sorted (x : EmojiCount) (l : list EmojiCount) :
  StronglySorted by_count_reverse l ->
  StronglySorted by_count_reverse (insert_by_count x l).
Proof.
  induction l as [| y l IH]; simpl; intros H.
  - constructor; constructor.
  - inversion H as [| ? ? Hl Hy]; subst.
    destruct (count y <=? count x) eqn:E.
    + apply Nat.leb_le in E. constructor; [exact H |].
      constructor; [exact E |].
      eapply Forall_impl; [| exact Hy].
      unfold by_count_reverse. intros z Hz. lia.
    + apply Nat.leb_gt in E. constructor; [apply IH, Hl |].
      apply Forall_forall. intros z Hz.
      apply (Permutation_in _ (insert_by_count_perm x l)) in Hz.
      destruct Hz as [<- | Hz].
      * unfold by_count_reverse. lia.
      * rewrite Forall_forall in Hy. apply Hy, Hz.
Qed.

Lemma sort_by_count_reverse_sorted (l : list EmojiCount) :
  StronglySorted by_count_reverse (sort_by_count_reverse l).
Proof.
  induction l as [| x l IH]; simpl; [constructor |].
  apply insert_by_count_sorted, IH.
Qed.

Lemma emojis_reacted_with_In (post_id : nat) (emoji_id : option nat) (db : DB)
    (e : Emoji) :
  In e (emojis_reacted_with post_id emoji_id db) <->
  In e (emojis db) /\
  (exists r, In r (rows (post_reactions db)) /\
             PostReaction_post_id r = post_id /\
             PostReaction_emoji_id r = Emoji_id e) /\
  (forall k, emoji_id = Some k -> truthy k = true -> Emoji_id e = k).
Proof.
  unfold emojis_reacted_with. rewrite nodup_In, in_flat_map. split.
  - intros [e' [He' Hin]]. apply in_map_iff in Hin.
    destruct Hin as [r [<- Hr]]. apply filter_In in Hr.
    destruct Hr as [Hr Hq]. unfold emoji_query in Hq.
    apply andb_true_iff in Hq. destruct Hq as [Hem Hq].
    apply andb_true_iff in Hq. destruct Hq as [Hpost Hfil].
    apply Nat.eqb_eq in Hem, Hpost.
    split; [exact He' |]. split; [exists r; auto |].
    intros k -> Hk. rewrite Hk in Hfil. apply Nat.eqb_eq in Hfil. congruence.
  - intros [He [[r [Hr [Hpost Hem]]] Hfil]].
    exists e. split; [exact He |]. apply in_map_iff. exists r.
    split; [reflexivity |]. apply filter_In. split; [exact Hr |].
    unfold emoji_query. rewrite Hem, Hpost, !Nat.eqb_refl. simpl.
    destruct emoji_id as [k |]; [| reflexivity].
    destruct (truthy k) eqn:Hk; [| reflexivity].
    apply Nat.eqb_eq. apply Hfil; [reflexivity | exact Hk].
Qed.

(** C10.  [get_emoji_counts_for_post_with_id] returns one entry for each
    emoji that has a reaction on the post (and is the emoji [emoji_id] when
    that argument is true); the count of an entry is the number of reactions
    on the post with its emoji (by the reactor [reactor_id] when that
    argument is true); and the entries are in non-increasing order of
    count. *)
Theorem get_emoji_counts_for_post_with_id_correct (post_id : nat)
    (emoji_id reactor_id : option nat) (db : DB) :
  let emoji_counts := get_emoji_counts_for_post_with_id post_id emoji_id reactor_id db in
  NoDup (map emoji emoji_counts) /\
  (forall e,
      In e (map emoji emoji_counts) <->
      In e (emojis db) /\
      (exists r, In r (rows (post_reactions db)) /\
                 PostReaction_post_id r = post_id /\
                 PostReaction_emoji_id r = Emoji_id e) /\
      (forall k, emoji_id = Some k -> truthy k = true -> Emoji_id e = k)) /\
  (forall x,
      In x emoji_counts ->
      count x =
      List.length
        (filter
           (fun r =>
              (PostReaction_post_id r =? post_id) &&
              (PostReaction_emoji_id r =? Emoji_id (emoji x)) &&
              match reactor_id with
              | Some u => if truthy u then PostReaction_reactor r =? u else true
              | None => true
              end)
           (rows (post_reactions db)))) /\
  StronglySorted by_count_reverse emoji_counts.
Proof.
  intros emoji_counts. subst emoji_counts.
  unfold get_emoji_counts_for_post_with_id.
  set (entry := fun e : Emoji => {| emoji := e; count := _ |}).
  set (es := emojis_reacted_with post_id emoji_id db).
  pose proof (sort_by_count_reverse_perm (map entry es)) as Hperm.
  assert (Hmap : map emoji (map entry es) = es).
  { rewrite map_map. simpl. apply map_id. }
  repeat match goal with |- _ /\ _ => split end.
  - apply (Permutation_NoDup (l := es)).
    + rewrite <- Hmap at 1. apply Permutation_map. symmetry. exact Hperm.
    + apply NoDup_nodup.
  - intros e. rewrite <- emojis_reacted_with_In. fold es.
    rewrite <- Hmap at 2. split; apply Permutation_in; apply Permutation_map;
      [exact Hperm | symmetry; exact Hperm].
  - intros x Hx. apply (Permutation_in _ Hperm) in Hx.
    apply in_map_iff in Hx. destruct Hx as [e [<- _]]. reflexivity.
  - apply sort_by_count_reverse_sorted.
Qed.

Example get_emoji_counts_for_post_with_id_sample :
  get_emoji_counts_for_post_with_id 1 None None db_emoji =
    [{| emoji := heart; count := 2 |}; {| emoji := clap; count := 1 |}] /\
  get_emoji_counts_for_post_with_id 1 None (Some 10) db_emoji =
    [{| emoji := clap; count := 1 |}; {| emoji := heart; count := 0 |}] /\
  get_emoji_counts_for_post_with_id 1 (Some 2) None db_emoji =
    [{| emoji := heart; count := 2 |}] /\
  get_emoji_counts_for_post_with_id 1 (Some 0) None db_emoji =
    get_emoji_counts_for_post_with_id 1 None None db_emoji.
Proof. repeat split. Qed.

(** ** The posts endpoint: PUT *)

Lemma NoDup_count_one (a b : nat) (l : list (nat * nat)) :
  NoDup l -> In (a, b) l ->
  List.length (filter (fun x => (fst x =? a) && (snd x =? b)) l) = 1.
Proof.
  induction l as [| [c d] l IH]; simpl; intros Hn Hin; [destruct Hin |].
  inversion Hn as [| ? ? Hx Hl]; subst.
  destruct ((c =? a) && (d =? b)) eqn:E.
  - apply andb_true_iff in E. destruct E as [Ea Eb].
    apply Nat.eqb_eq in Ea, Eb. subst. simpl. f_equal.
    destruct (filter _ l) as [| [c d] l'] eqn:Ef; [reflexivity |].
    exfalso. apply Hx.
    assert (Hy : In (c, d) (filter (fun x => (fst x =? a) && (snd x =? b)) l))
      by (rewrite Ef; left; reflexivity).
    apply filter_In in Hy. destruct Hy as [Hy Hq]. simpl in Hq.
    apply andb_true_iff in Hq. destruct Hq as [Ea Eb].
    apply Nat.eqb_eq in Ea, Eb. subst. exact Hy.
  - destruct Hin as [Heq | Hin].
    + inversion Heq; subst. rewrite !Nat.eqb_refl in E. discriminate.
    + apply IH; assumption.
Qed.

Lemma post_circles_created_db (now : DateTime) (creator : nat) (circles_ids : list nat)
    (image : option File) (text : option string) (video : option File)
    (created : option DateTime) (db : DB) :
  post_circles (created_db now creator circles_ids image text video created db) =
  fold_left add_link (map (fun c => (next_pk (posts db), c)) circles_ids)
    (post_circles db).
Proof.
  unfold created_db. simpl.
  rewrite post_circles_insert_video, post_circles_insert_image. reflexivity.
Qed.

Lemma world_circle_id_created_db (now : DateTime) (creator : nat)
    (circles_ids : list nat) (image : option File) (text : option string)
    (video : option File) (created : option DateTime) (db : DB) :
  world_circle_id (created_db now creator circles_ids image text video created db) =
  world_circle_id db.
Proof.
  unfold created_db. simpl.
  rewrite world_insert_video, world_insert_image. reflexivity.
Qed.

(** What [create_post] leaves for a post it returns: the post is stored,
    is its creator's, and is linked to every circle it was given. *)
Lemma create_post_returns (now : DateTime) (creator : nat) (circles_ids : list nat)
    (image : option File) (text : option string) (video : option File)
    (created : option DateTime) (db db' : DB) (post : Post) :
  reachable db ->
  create_post now creator circles_ids image text video created db = (inr post, db') ->
  exists k,
    Post_id post = Some k /\ In post (rows (posts db')) /\
    Post_creator post = creator /\
    NoDup (post_circles db') /\
    world_circle_id db' = world_circle_id db /\
    forall c, In c circles_ids -> In (k, c) (post_circles db').
Proof.
  intros Hr H.
  assert (Hok' : base_ok db').
  { replace db' with
      (run (Op_create_post now creator circles_ids image text video created) db)
      by (simpl; rewrite H; reflexivity).
    apply reachable_base_ok, reachable_run, Hr. }
  pose proof (reachable_base_ok Hr) as Hok.
  destruct (@create_post_inr _ _ _ _ _ _ _ _ _ _ Hok H) as (Hrej & _ & _ & -> & ->).
  exists (next_pk (posts db)).
  split; [apply Post_id_created_post |]. split.
  { rewrite rows_posts_created_db. apply in_map_iff.
    exists (new_post now creator created (next_pk (posts db))). split.
    - unfold has_pk. simpl. rewrite Nat.eqb_refl. reflexivity.
    - apply in_app_iff. right. left. reflexivity. }
  split; [unfold created_post; destruct (truthy text); reflexivity |].
  split; [apply Hok' |].
  split; [apply world_circle_id_created_db |].
  intros c Hc. rewrite post_circles_created_db.
  apply fold_add_link_In. right. apply in_map_iff. exists c. auto.
Qed.

(** No write touches the circles or the key of the world circle. *)
Lemma stable_circles (w : nat) (cs : list nat) :
  stable (fun d => world_circle_id d = w /\ circles d = cs).
Proof.
  unfold stable. repeat match goal with |- _ /\ _ => split end.
  - intros p db H. unfold Post_super_save.
    destruct (Post_created p); [| exact H].
    destruct (base_save p (posts db)). exact H.
  - intros i db H. unfold PostImage_save.
    destruct (negb _); [exact H |].
    destruct (negb _); [exact H |].
    destruct (existsb _ (others i (post_images db))); [exact H |].
    destruct (base_save i (post_images db)). exact H.
  - intros v db H. unfold PostVideo_save.
    destruct (negb _); [exact H |].
    destruct (existsb _ (others v (post_videos db))); [exact H |].
    destruct (base_save v (post_videos db)). exact H.
  - intros p cs' db H. unfold circles_add.
    destruct (Post_id p); [| exact H].
    destruct (negb _); [exact H |].
    destruct (existsb _ cs'); exact H.
  - intros c db H. unfold PostComment_super_save.
    destruct (PostComment_created c); [| exact H].
    destruct (negb _); [exact H |].
    destruct (base_save c (post_comments db)). exact H.
  - intros r db H. unfold PostReaction_super_save.
    destruct (PostReaction_created r); [| exact H].
    destruct (negb _); [exact H |].
    destruct (negb _); [exact H |].
    destruct (existsb _ (others r (post_reactions db))); [exact H |].
    destruct (base_save r (post_reactions db)). exact H.
  - intros p i db H. unfold remove_comment_with_id.
    destruct (Post_id p); exact H.
  - intros p i db H. unfold remove_reaction_with_id.
    destruct (Post_id p); exact H.
  - intros p db H. unfold Post_delete.
    destruct (Post_id p); exact H.
Qed.

(** The world circle is a stored circle in every reachable database. *)
Lemma reachable_world_ok (db : DB) : reachable db -> world_ok db.
Proof.
  intros Hr. unfold world_ok, circle_exists.
  induction Hr as [es world cs cm lm | op db Hr IH].
  - simpl. rewrite Nat.eqb_refl. reflexivity.
  - destruct (@stable_run _ op db
                (stable_circles (world_circle_id db) (circles db))
                (conj eq_refl eq_refl)) as [-> ->].
    exact IH.
Qed.

(** C3.  A PUT on the posts endpoint that names no circle and is answered
    201 leaves the created post among its creator's posts and in the world
    circle, where [is_public_post] finds it; and such a request is answered
    201 whenever it carries text, an image or a video, not both an image
    and a video, and its image, if it carries one, can be opened. *)
Theorem posts_put_adds_to_creator_and_world_circle (now : DateTime) (user : nat)
    (text : option string) (image video : option File) (db : DB) :
  reachable db ->
  (rejected image text video = false -> image_ok image = true ->
   exists post db',
     posts_put now user text image video [] db = (HTTP_201_CREATED post, db')) /\
  (forall post db',
     posts_put now user text image video [] db = (HTTP_201_CREATED post, db') ->
     exists k,
       Post_id post = Some k /\
       In post (rows (posts db')) /\ Post_creator post = user /\
       In (k, world_circle_id db') (post_circles db') /\
       is_public_post post db' = true).
Proof.
  intros Hr. pose proof (reachable_base_ok Hr) as Hok. split.
  - intros Hrej Him. unfold posts_put.
    assert (Hcs : circles_ok [world_circle_id db] db = true).
    { unfold circles_ok. simpl. rewrite (reachable_world_ok Hr). reflexivity. }
    rewrite create_post_eq by assumption.
    do 2 eexists. reflexivity.
  - intros post db' H. unfold posts_put in H.
    destruct (create_post now user [world_circle_id db] image text video None db)
      as [[e | p] d] eqn:Hc.
    + destruct e; discriminate.
    + inversion H; subst; clear H.
      destruct (create_post_returns _ _ _ _ _ _ _ Hr Hc)
        as [k (Hk & Hin & Hcr & Hn & Hw & Hl)].
      exists k. split; [exact Hk |]. split; [exact Hin |]. split; [exact Hcr |].
      assert (Hlink : In (k, world_circle_id db') (post_circles db')).
      { rewrite Hw. apply Hl. left. reflexivity. }
      split; [exact Hlink |].
      unfold is_public_post. rewrite Hk. apply Nat.eqb_eq.
      apply NoDup_count_one; assumption.
Qed.

Lemma posts_put_adds_to_creator_and_world_circle_witness :
  reachable db_two_posts /\
  exists post db',
    posts_put t1 8 hello photo None [] db_two_posts = (HTTP_201_CREATED post, db') /\
    Post_creator post = 8 /\ is_public_post post db' = true.
Proof.
  assert (H : reachable db_two_posts)
    by (repeat apply reachable_run; apply reachable_initial).
  split; [exact H |].
  destruct (posts_put_adds_to_creator_and_world_circle t1 8 hello photo None H)
    as [H1 H2].
  destruct (H1 eq_refl eq_refl) as [post [db' Hput]].
  exists post, db'. split; [exact Hput |].
  destruct (H2 post db' Hput) as [k (_ & _ & Hc & _ & Hp)].
  split; assumption.
Defined.

(** ** The posts endpoint: GET *)

Lemma In_firstn {A : Type} (n : nat) (l : list A) (x : A) :
  In x (firstn n l) -> In x l.
Proof.
  revert l. induction n as [| n IH]; intros [| y l]; simpl; try tauto.
  intros [H | H]; [left; exact H | right; apply IH, H].
Qed.

Lemma paginate_In (q : FeedQuery) (l : list Post) (p : Post) :
  In p (paginate q l) -> In p l.
Proof.
  unfold paginate. intros H.
  assert (H' : In p (match q_max_id q with
                     | Some m => filter (fun p => match Post_id p with
                                                  | Some k => k <? m
                                                  | None => false
                                                  end) l
                     | None => l
                     end)).
  { destruct (q_count q); [apply In_firstn in H |]; exact H. }
  destruct (q_max_id q); [apply filter_In in H'; apply H' | exact H'].
Qed.

Lemma filter_all {A : Type} (f : A -> bool) (l : list A) :
  (forall x, In x l -> f x = true) -> filter f l = l.
Proof.
  induction l as [| x l IH]; simpl; intros H; [reflexivity |].
  rewrite (H x (or_introl eq_refl)). f_equal. apply IH.
  intros y Hy. apply H. right. exact Hy.
Qed.

(** The window leaves out none of the posts of [l]. *)
Lemma paginate_all (q : FeedQuery) (l : list Post) :
  (forall m, q_max_id q = Some m ->
     forall p, In p l -> exists k, Post_id p = Some k /\ k < m) ->
  (forall c, q_count q = Some c -> List.length l <= c) ->
  paginate q l = l.
Proof.
  intros Hm Hc. unfold paginate.
  assert (Hbelow : match q_max_id q with
                   | Some m => filter (fun p => match Post_id p with
                                                | Some k => k <? m
                                                | None => false
                                                end) l
                   | None => l
                   end = l).
  { destruct (q_max_id q) as [m |]; [| reflexivity].
    apply filter_all. intros p Hp.
    destruct (Hm m eq_refl p Hp) as [k [-> Hlt]]. apply Nat.ltb_lt, Hlt. }
  rewrite Hbelow. destruct (q_count q) as [c |]; [| reflexivity].
  apply firstn_all2. apply Hc. reflexivity.
Qed.

(** C4.  A feed request with [max_id] and [count] returns posts of an id
    below [max_id], and at most [count] of them. *)
Theorem posts_get_respects_max_id_and_count
    (timeline : nat -> DB -> Post -> bool) (viewer : option nat) (q : FeedQuery)
    (db : DB) (max_id count : nat) :
  q_max_id q = Some max_id ->
  q_count q = Some count ->
  (forall p, In p (posts_get timeline viewer q db) ->
             exists k, Post_id p = Some k /\ k < max_id) /\
  List.length (posts_get timeline viewer q db) <= count.
Proof.
  intros Hm Hc. unfold posts_get, paginate. rewrite Hm, Hc. split.
  - intros p Hp. apply In_firstn in Hp. apply filter_In in Hp.
    destruct Hp as [_ Hp]. destruct (Post_id p) as [k |]; [| discriminate].
    exists k. split; [reflexivity | apply Nat.ltb_lt, Hp].
  - apply firstn_le_length.
Qed.

Lemma posts_get_respects_max_id_and_count_witness :
  q_max_id window_query = Some 2 /\ q_count window_query = Some 5 /\
  posts_get everything None window_query db_two_posts = [saved_post 1] /\
  List.length (posts_get everything None window_query db_two_posts) <= 5.
Proof.
  split; [reflexivity |]. split; [reflexivity |]. split; [reflexivity |].
  apply (@posts_get_respects_max_id_and_count everything None window_query
           db_two_posts 2 5 eq_refl eq_refl).
Defined.

Lemma is_public_post_link (p : Post) (db : DB) :
  is_public_post p db = true ->
  exists k, Post_id p = Some k /\ In (k, world_circle_id db) (post_circles db).
Proof.
  unfold is_public_post. destruct (Post_id p) as [k |]; [| discriminate].
  intros H. exists k. split; [reflexivity |].
  destruct (filter _ (post_circles db)) as [| [a b] l] eqn:E; [discriminate |].
  assert (Hin : In (a, b) (filter (fun l => (fst l =? k) &&
                                            (snd l =? world_circle_id db))
                                  (post_circles db)))
    by (rewrite E; left; reflexivity).
  apply filter_In in Hin. destruct Hin as [Hin Hq]. simpl in Hq.
  apply andb_true_iff in Hq. destruct Hq as [Ha Hb].
  apply Nat.eqb_eq in Ha, Hb. subst. exact Hin.
Qed.

Lemma feed_candidates_unauthenticated (timeline : nat -> DB -> Post -> bool)
    (q : FeedQuery) (db : DB) (u : nat) (p : Post) :
  q_username q = Some u ->
  (In p (feed_candidates timeline None q db) <->
   In p (rows (posts db)) /\ Post_creator p = u /\ is_public_post p db = true).
Proof.
  intros Hu. unfold feed_candidates. rewrite filter_In, Hu, andb_true_iff, Nat.eqb_eq.
  tauto.
Qed.

(** C5, as amended.  An unauthenticated feed request for a user's posts
    returns only public posts of that user, each of them in the world
    circle; and it returns all of that user's public posts when the window
    of [max_id] and [count] leaves none of them out. *)
Theorem posts_get_unauthenticated_only_public
    (timeline : nat -> DB -> Post -> bool) (q : FeedQuery) (db : DB) (u : nat) :
  q_username q = Some u ->
  (forall p, In p (posts_get timeline None q db) ->
     In p (rows (posts db)) /\ Post_creator p = u /\ is_public_post p db = true /\
     exists k, Post_id p = Some k /\ In (k, world_circle_id db) (post_circles db)) /\
  ((forall m, q_max_id q = Some m ->
      forall p, In p (rows (posts db)) -> Post_creator p = u ->
                is_public_post p db = true ->
                exists k, Post_id p = Some k /\ k < m) ->
   (forall c, q_count q = Some c ->
      List.length (feed_candidates timeline None q db) <= c) ->
   forall p, In p (posts_get timeline None q db) <->
             In p (rows (posts db)) /\ Post_creator p = u /\
             is_public_post p db = true).
Proof.
  intros Hu. split.
  - intros p Hp. apply paginate_In in Hp.
    apply (feed_candidates_unauthenticated timeline q db p Hu) in Hp.
    destruct Hp as (H1 & H2 & H3).
    repeat split; try assumption. apply is_public_post_link, H3.
  - intros Hm Hc p. unfold posts_get. rewrite paginate_all.
    + apply feed_candidates_unauthenticated, Hu.
    + intros m Hq p' Hp'.
      apply (feed_candidates_unauthenticated timeline q db p' Hu) in Hp'.
      destruct Hp' as (H1 & H2 & H3). apply (Hm m Hq p' H1 H2 H3).
    + exact Hc.
Qed.

Lemma posts_get_unauthenticated_only_public_witness :
  q_username window_query = Some 7 /\
  In (saved_post 1) (posts_get everything None window_query db_two_posts) /\
  Post_creator (saved_post 1) = 7 /\
  is_public_post (saved_post 1) db_two_posts = true.
Proof.
  split; [reflexivity |].
  assert (Hin : In (saved_post 1)
                  (posts_get everything None window_query db_two_posts))
    by (left; reflexivity).
  split; [exact Hin |].
  destruct (@posts_get_unauthenticated_only_public everything window_query
              db_two_posts 7 eq_refl) as [H _].
  destruct (H (saved_post 1) Hin) as (_ & H2 & H3 & _). split; assumption.
Defined.

(** C5, as stated, fails for a request with a window: user 7 has two
    public posts, and the request with [max_id] 2 and [count] 5 returns the
    first only. *)
Lemma posts_get_unauthenticated_window_omits_public_post :
  In (saved_post 2) (rows (posts db_two_posts)) /\
  Post_creator (saved_post 2) = 7 /\
  is_public_post (saved_post 2) db_two_posts = true /\
  ~ In (saved_post 2) (posts_get everything None window_query db_two_posts).
Proof.
  split; [right; left; reflexivity |]. split; [reflexivity |].
  split; [reflexivity |].
  intros [H | []]. discriminate.
Qed.







(** * Further properties of the models *)

(** ** Reacting and commenting *)

Lemma existsb_same_reactor_and_post (self : PostReaction) (l : list PostReaction) :
  existsb (same_reactor_and_post self) l = false <->
  filter (fun r => (PostReaction_reactor r =? PostReaction_reactor self) &&
                   (PostReaction_post_id r =? PostReaction_post_id self)) l = [].
Proof.
  induction l as [| x l IH]; simpl; [tauto |].
  unfold same_reactor_and_post at 1.
  rewrite (Nat.eqb_sym (PostReaction_reactor self)),
          (Nat.eqb_sym (PostReaction_post_id self)).
  destruct ((PostReaction_reactor x =? PostReaction_reactor self) &&
            (PostReaction_post_id x =? PostReaction_post_id self));
    simpl; [split; discriminate | exact IH].
Qed.

Lemma react_returns (now : DateTime) (self : Post) (reactor emoji_id k : nat) (db : DB) :
  Post_id self = Some k -> post_exists k db = true ->
  emoji_exists emoji_id db = true ->
  reactions_by reactor k db = [] ->
  react now self reactor emoji_id db =
  (inr {| PostReaction_id := Some (next_pk (post_reactions db));
          PostReaction_post_id := k; PostReaction_created := Some now;
          PostReaction_reactor := reactor; PostReaction_emoji_id := emoji_id |},
   set_post_reactions
     {| rows := rows (post_reactions db) ++
                [{| PostReaction_id := Some (next_pk (post_reactions db));
                    PostReaction_post_id := k; PostReaction_created := Some now;
                    PostReaction_reactor := reactor;
                    PostReaction_emoji_id := emoji_id |}];
        next_pk := S (next_pk (post_reactions db)) |} db).
Proof.
  intros Hk Hex Hem Hnone. unfold react, create_reaction. rewrite Hk.
  unfold PostReaction_save, PostReaction_super_save, others, base_save.
  cbn -[same_reactor_and_post existsb emoji_exists].
  rewrite Hex. cbn -[same_reactor_and_post existsb emoji_exists].
  rewrite Hem. cbn -[same_reactor_and_post existsb emoji_exists].
  match goal with
  | |- context [existsb (same_reactor_and_post ?s) ?l] =>
      assert (Ex : existsb (same_reactor_and_post s) l = false)
        by (apply existsb_same_reactor_and_post; exact Hnone);
      rewrite Ex
  end.
  reflexivity.
Qed.

Lemma comment_returns (now : DateTime) (self : Post) (text : string)
    (commenter k : nat) (db : DB) :
  Post_id self = Some k -> post_exists k db = true ->
  comment now self text commenter db =
  (inr {| PostComment_id := Some (next_pk (post_comments db));
          PostComment_post_id := k; PostComment_created := Some now;
          PostComment_commenter := commenter; PostComment_text := text |},
   set_post_comments
     {| rows := rows (post_comments db) ++
                [{| PostComment_id := Some (next_pk (post_comments db));
                    PostComment_post_id := k; PostComment_created := Some now;
                    PostComment_commenter := commenter;
                    PostComment_text := text |}];
        next_pk := S (next_pk (post_comments db)) |} db).
Proof.
  intros Hk Hex. unfold comment, create_comment. rewrite Hk.
  unfold PostComment_save, PostComment_super_save, base_save. simpl.
  rewrite Hex. reflexivity.
Qed.

Lemma react_raises (now : DateTime) (self : Post) (reactor emoji_id k : nat) (db : DB) :
  Post_id self = Some k ->
  post_exists k db = false \/ emoji_exists emoji_id db = false \/
  reactions_by reactor k db <> [] ->
  react now self reactor emoji_id db = (inl IntegrityError, db).
Proof.
  intros Hk H. unfold react, create_reaction. rewrite Hk.
  unfold PostReaction_save, PostReaction_super_save, others, base_save.
  cbn -[same_reactor_and_post existsb emoji_exists].
  destruct (post_exists k db) eqn:Ep;
    cbn -[same_reactor_and_post existsb emoji_exists]; [| reflexivity].
  destruct (emoji_exists emoji_id db) eqn:Ee;
    cbn -[same_reactor_and_post existsb emoji_exists]; [| reflexivity].
  destruct H as [H | [H | H]]; [discriminate | discriminate |].
  destruct (existsb _ (rows (post_reactions db))) eqn:Ex; [reflexivity |].
  exfalso. apply H. unfold reactions_by.
  apply existsb_same_reactor_and_post in Ex. exact Ex.
Qed.

(** What held before a call of [react] that returned. *)
Lemma react_inr (now : DateTime) (self : Post) (reactor emoji_id k : nat)
    (db db' : DB) (r : PostReaction) :
  Post_id self = Some k ->
  react now self reactor emoji_id db = (inr r, db') ->
  post_exists k db = true /\ emoji_exists emoji_id db = true /\
  reactions_by reactor k db = [].
Proof.
  intros Hk Hc.
  destruct (post_exists k db) eqn:Hex.
  2:{ rewrite (react_raises now self reactor emoji_id db Hk) in Hc;
        [discriminate | left; exact Hex]. }
  destruct (emoji_exists emoji_id db) eqn:Hem.
  2:{ rewrite (react_raises now self reactor emoji_id db Hk) in Hc;
        [discriminate | right; left; exact Hem]. }
  destruct (reactions_by reactor k db) as [| x l] eqn:E; [auto |].
  rewrite (react_raises now self reactor emoji_id db Hk) in Hc;
    [discriminate | right; right; rewrite E; discriminate].
Qed.

(** X1.  [react] on an unsaved post raises [ValueError]; on a post that is
    not stored, or with an emoji that is not stored, or on a post that the
    reactor has reacted to, it raises [IntegrityError]; either way nothing
    is written.  Otherwise it returns a reaction of the reactor to the post
    with the emoji, stamped with the time of the call, and that row is the
    one thing it adds. *)
Theorem react_outcome (now : DateTime) (self : Post) (reactor emoji_id : nat) (db : DB) :
  (Post_id self = None ->
   react now self reactor emoji_id db = (inl ValueError, db)) /\
  (forall k, Post_id self = Some k ->
     post_exists k db = false \/ emoji_exists emoji_id db = false \/
     reactions_by reactor k db <> [] ->
     react now self reactor emoji_id db = (inl IntegrityError, db)) /\
  (forall k, Post_id self = Some k ->
     post_exists k db = true -> emoji_exists emoji_id db = true ->
     reactions_by reactor k db = [] ->
     exists r db',
       react now self reactor emoji_id db = (inr r, db') /\
       rows (post_reactions db') = rows (post_reactions db) ++ [r] /\
       PostReaction_id r = Some (next_pk (post_reactions db)) /\
       PostReaction_post_id r = k /\ PostReaction_reactor r = reactor /\
       PostReaction_emoji_id r = emoji_id /\ PostReaction_created r = Some now /\
       same_posts db db' /\ post_comments db' = post_comments db /\
       post_circles db' = post_circles db).
Proof.
  unfold react, create_reaction. split; [| split].
  - intros ->. reflexivity.
  - intros k Hk H. fold (create_reaction now reactor emoji_id self).
    fold (react now self reactor emoji_id).
    apply (react_raises now self reactor emoji_id db Hk H).
  - intros k Hk Hex Hem Hnone. fold (create_reaction now reactor emoji_id self).
    fold (react now self reactor emoji_id).
    rewrite (react_returns now self reactor emoji_id db Hk Hex Hem Hnone).
    do 2 eexists. split; [reflexivity |]. simpl.
    repeat split.
Qed.

Lemma react_outcome_witness :
  react t1 (saved_post 2) 9 3 db_reacted =
    (inr {| PostReaction_id := Some 2; PostReaction_post_id := 2;
            PostReaction_created := Some t1; PostReaction_reactor := 9;
            PostReaction_emoji_id := 3 |},
     snd (react t1 (saved_post 2) 9 3 db_reacted)) /\
  react t1 (saved_post 1) 9 3 db_reacted = (inl IntegrityError, db_reacted) /\
  react t1 (saved_post 5) 9 3 db_reacted = (inl IntegrityError, db_reacted) /\
  react t1 (saved_post 2) 9 8 db_reacted = (inl IntegrityError, db_reacted) /\
  react t1 supplied_post 9 3 db_reacted = (inl ValueError, db_reacted).
Proof.
  destruct (react_outcome t1 (saved_post 2) 9 3 db_reacted) as (_ & _ & H3).
  destruct (H3 2 eq_refl eq_refl eq_refl eq_refl) as [r [db' [Hr _]]].
  split; [reflexivity |].
  destruct (react_outcome t1 (saved_post 1) 9 3 db_reacted) as (_ & H2 & _).
  split; [apply (H2 1 eq_refl); right; right; discriminate |].
  destruct (react_outcome t1 (saved_post 5) 9 3 db_reacted) as (_ & H2' & _).
  split; [apply (H2' 5 eq_refl); left; reflexivity |].
  destruct (react_outcome t1 (saved_post 2) 9 8 db_reacted) as (_ & H2e & _).
  split; [apply (H2e 2 eq_refl); right; left; reflexivity |].
  destruct (react_outcome t1 supplied_post 9 3 db_reacted) as (H1 & _ & _).
  apply H1. reflexivity.
Defined.

(** X2.  [comment] on an unsaved post raises [ValueError] and on a post
    that is not stored [IntegrityError], and writes nothing; on a stored
    post it returns a comment with the text and the commenter, stamped with
    the time of the call, adds that row and nothing else, and the post's
    count of comments, and of comments by that commenter, goes up by one
    while the counts of the other posts stay. *)
Theorem comment_outcome (now : DateTime) (self : Post) (text : string)
    (commenter : nat) (db : DB) :
  (Post_id self = None ->
   comment now self text commenter db = (inl ValueError, db)) /\
  (forall k, Post_id self = Some k -> post_exists k db = false ->
     comment now self text commenter db = (inl IntegrityError, db)) /\
  (forall k, Post_id self = Some k -> post_exists k db = true ->
     exists c db',
       comment now self text commenter db = (inr c, db') /\
       rows (post_comments db') = rows (post_comments db) ++ [c] /\
       PostComment_id c = Some (next_pk (post_comments db)) /\
       PostComment_post_id c = k /\ PostComment_commenter c = commenter /\
       PostComment_text c = text /\ PostComment_created c = Some now /\
       same_posts db db' /\ post_reactions db' = post_reactions db /\
       count_comments self None db' = S (count_comments self None db) /\
       count_comments self (Some commenter) db' =
         S (count_comments self (Some commenter) db) /\
       (forall j u, j <> k ->
          count_comments_for_post_with_id j u db' =
          count_comments_for_post_with_id j u db)).
Proof.
  unfold comment, create_comment. split; [| split].
  - intros ->. reflexivity.
  - intros k -> H.
    unfold PostComment_save, PostComment_super_save. simpl. rewrite H. reflexivity.
  - intros k Hk Hex. fold (create_comment now text commenter self).
    fold (comment now self text commenter).
    rewrite (comment_returns now self text commenter db Hk Hex).
    do 2 eexists. split; [reflexivity |]. simpl.
    repeat match goal with |- _ /\ _ => split end; try reflexivity;
      try (unfold same_posts; repeat split; reflexivity).
    + unfold count_comments, count_comments_for_post_with_id. rewrite Hk. simpl.
      rewrite filter_app, length_app. simpl. rewrite Nat.eqb_refl. simpl. lia.
    + unfold count_comments, count_comments_for_post_with_id. rewrite Hk. simpl.
      rewrite filter_app, length_app. simpl. rewrite !Nat.eqb_refl.
      destruct (truthy commenter); simpl; lia.
    + intros j u Hne. unfold count_comments_for_post_with_id. simpl.
      rewrite filter_app, length_app. simpl.
      assert (E : (k =? j) = false) by (apply Nat.eqb_neq; lia).
      rewrite E. simpl. lia.
Qed.

Lemma comment_outcome_witness :
  count_comments (saved_post 1) None db_two_posts = 0 /\
  count_comments (saved_post 1) None
    (snd (comment t1 (saved_post 1) "nice" 9 db_two_posts)) = 1 /\
  comment t1 (saved_post 5) "nice" 9 db_two_posts = (inl IntegrityError, db_two_posts).
Proof.
  destruct (comment_outcome t1 (saved_post 1) "nice" 9 db_two_posts) as (_ & _ & H3).
  destruct (H3 1 eq_refl eq_refl) as [c [db' (Hc & _ & _ & _ & _ & _ & _ & _ & _ & Hn & _)]].
  split; [reflexivity |]. split.
  - rewrite Hc. exact Hn.
  - destruct (comment_outcome t1 (saved_post 5) "nice" 9 db_two_posts) as (_ & H2 & _).
    apply (H2 5 eq_refl eq_refl).
Defined.

(** ** Removing what was added *)

Lemma pk_with_pk_PostComment (k : nat) (c : PostComment) : pk (with_pk k c) = Some k.
Proof. reflexivity. Qed.

Lemma stable_comments_ok : stable comments_ok.
Proof.
  unfold stable, comments_ok.
  repeat match goal with |- _ /\ _ => split end.
  - intros p db H. unfold Post_super_save.
    destruct (Post_created p); [| exact H].
    destruct (base_save p (posts db)). exact H.
  - intros i db H. unfold PostImage_save.
    destruct (negb _); [exact H |].
    destruct (negb _); [exact H |].
    destruct (existsb _ (others i (post_images db))); [exact H |].
    destruct (base_save i (post_images db)). exact H.
  - intros v db H. unfold PostVideo_save.
    destruct (negb _); [exact H |].
    destruct (existsb _ (others v (post_videos db))); [exact H |].
    destruct (base_save v (post_videos db)). exact H.
  - intros p cs db H. unfold circles_add.
    destruct (Post_id p); [| exact H].
    destruct (negb _); [exact H |].
    destruct (existsb _ cs); exact H.
  - intros c db H. unfold PostComment_super_save.
    destruct (PostComment_created c); [| exact H].
    destruct (negb _); [exact H |].
    pose proof (base_save_ok pk_with_pk_PostComment c H) as Hok.
    destruct (base_save c (post_comments db)). exact Hok.
  - intros r db H. unfold PostReaction_super_save.
    destruct (PostReaction_created r); [| exact H].
    destruct (negb _); [exact H |].
    destruct (negb _); [exact H |].
    destruct (existsb _ (others r (post_reactions db))); [exact H |].
    destruct (base_save r (post_reactions db)). exact H.
  - intros p i db H. unfold remove_comment_with_id.
    destruct (Post_id p); [| exact H]. simpl. apply delete_where_ok, H.
  - intros p i db H. unfold remove_reaction_with_id.
    destruct (Post_id p); exact H.
  - intros p db H. unfold Post_delete.
    destruct (Post_id p); [| exact H]. simpl. apply delete_where_ok, H.
Qed.

Lemma reachable_comments_ok (db : DB) : reachable db -> comments_ok db.
Proof.
  apply stable_reachable; [apply stable_comments_ok |].
  intros. apply table_ok_empty.
Qed.

Lemma filter_snoc_selected {A : Type} (sel : A -> bool) (l : list A) (x : A) :
  (forall y, In y l -> sel y = false) -> sel x = true ->
  filter (fun y => negb (sel y)) (l ++ [x]) = l.
Proof.
  intros Hl Hx. rewrite filter_app. simpl. rewrite Hx. simpl.
  rewrite app_nil_r. apply filter_all. intros y Hy. rewrite (Hl y Hy). reflexivity.
Qed.

Lemma has_pk_next_false {R : Type} `{Model R} (t : Table R) (x : R) :
  table_ok t -> In x (rows t) -> has_pk (next_pk t) x = false.
Proof.
  intros [Hk _] Hx. destruct (Hk x Hx) as [j [Hj Hlt]].
  unfold has_pk. rewrite Hj. apply Nat.eqb_neq. lia.
Qed.

(** X3.  In a reachable database, removing through a post the comment that
    [comment] has just returned for it puts the comments back as they were;
    removing it through another post removes nothing. *)
Theorem remove_comment_with_id_undoes_comment (now : DateTime) (self : Post)
    (text : string) (commenter k i : nat) (db db' : DB) (c : PostComment) :
  reachable db ->
  Post_id self = Some k ->
  comment now self text commenter db = (inr c, db') ->
  PostComment_id c = Some i ->
  remove_comment_with_id self i db' =
    (inr tt,
     set_post_comments
       {| rows := rows (post_comments db); next_pk := S (next_pk (post_comments db)) |}
       db) /\
  (forall other j, Post_id other = Some j -> j <> k ->
     rows (post_comments (snd (remove_comment_with_id other i db'))) =
     rows (post_comments db')).
Proof.
  intros Hr Hk Hc Hi. pose proof (reachable_comments_ok Hr) as Hok.
  destruct (post_exists k db) eqn:Hex.
  - rewrite (comment_returns now self text commenter db Hk Hex) in Hc.
    inversion Hc; subst; clear Hc. simpl in Hi. inversion Hi; subst; clear Hi.
    split.
    + unfold remove_comment_with_id. rewrite Hk. simpl.
      unfold delete_where. simpl. rewrite filter_snoc_selected.
      * reflexivity.
      * intros y Hy. rewrite (@has_pk_next_false _ _ _ y Hok Hy). apply andb_false_r.
      * unfold has_pk. simpl. rewrite !Nat.eqb_refl. reflexivity.
    + intros other j Hj Hne. unfold remove_comment_with_id. rewrite Hj. simpl.
      apply filter_all. intros y Hy. apply negb_true_iff.
      apply in_app_iff in Hy. destruct Hy as [Hy | [<- | []]].
      * rewrite (@has_pk_next_false _ _ _ y Hok Hy). apply andb_false_r.
      * simpl. assert (E : (k =? j) = false) by (apply Nat.eqb_neq; lia).
        rewrite E. reflexivity.
  - unfold comment, create_comment in Hc. rewrite Hk in Hc.
    unfold PostComment_save, PostComment_super_save in Hc. simpl in Hc.
    rewrite Hex in Hc. discriminate.
Qed.

Lemma remove_comment_with_id_undoes_comment_witness :
  reachable db_two_posts /\
  rows (post_comments
          (snd (remove_comment_with_id (saved_post 1) 1
                  (snd (comment t1 (saved_post 1) "nice" 9 db_two_posts))))) =
  rows (post_comments db_two_posts).
Proof.
  assert (H : reachable db_two_posts)
    by (repeat apply reachable_run; apply reachable_initial).
  split; [exact H |].
  destruct (@remove_comment_with_id_undoes_comment t1 (saved_post 1) "nice" 9 1 1
              db_two_posts
              (snd (comment t1 (saved_post 1) "nice" 9 db_two_posts))
              {| PostComment_id := Some 1; PostComment_post_id := 1;
                 PostComment_created := Some t1; PostComment_commenter := 9;
                 PostComment_text := "nice" |}
              H eq_refl eq_refl eq_refl) as [H1 _].
  rewrite H1. reflexivity.
Defined.

(** X4.  In a reachable database, removing through a post the reaction
    that [react] has just returned for it puts the reactions back as they
    were, so that the same user can react to the post again, with any
    stored emoji, under a new key. *)
Theorem remove_reaction_with_id_undoes_react (now now' : DateTime) (self : Post)
    (reactor emoji_id emoji_id' k i : nat) (db db' : DB) (r : PostReaction) :
  reachable db ->
  Post_id self = Some k ->
  react now self reactor emoji_id db = (inr r, db') ->
  PostReaction_id r = Some i ->
  let db'' := snd (remove_reaction_with_id self i db') in
  fst (remove_reaction_with_id self i db') = inr tt /\
  rows (post_reactions db'') = rows (post_reactions db) /\
  (emoji_exists emoji_id' db = true ->
   exists r' db3,
     react now' self reactor emoji_id' db'' = (inr r', db3) /\
     PostReaction_id r' = Some (S i) /\ PostReaction_emoji_id r' = emoji_id') /\
  (emoji_exists emoji_id' db = false ->
   react now' self reactor emoji_id' db'' = (inl IntegrityError, db'')).
Proof.
  intros Hr Hk Hc Hi db''. subst db''.
  pose proof (reachable_base_ok Hr) as (_ & Hok & _).
  destruct (@react_inr now self reactor emoji_id k db db' r Hk Hc)
    as (Hex & Hem & Hnone).
  rewrite (react_returns now self reactor emoji_id db Hk Hex Hem Hnone) in Hc.
  inversion Hc; subst; clear Hc. simpl in Hi. inversion Hi; subst; clear Hi.
  assert (Hrows :
    filter (fun y => negb ((PostReaction_post_id y =? k) &&
                           has_pk (next_pk (post_reactions db)) y))
      (rows (post_reactions db) ++
       [{| PostReaction_id := Some (next_pk (post_reactions db));
           PostReaction_post_id := k; PostReaction_created := Some now;
           PostReaction_reactor := reactor; PostReaction_emoji_id := emoji_id |}]) =
    rows (post_reactions db)).
  { apply (filter_snoc_selected
             (fun y => (PostReaction_post_id y =? k) &&
                       has_pk (next_pk (post_reactions db)) y)).
    - intros y Hy. rewrite (@has_pk_next_false _ _ _ y Hok Hy). apply andb_false_r.
    - unfold has_pk. simpl. rewrite !Nat.eqb_refl. reflexivity. }
  unfold remove_reaction_with_id. rewrite Hk. simpl. unfold delete_where. simpl.
  rewrite Hrows. split; [reflexivity |]. split; [reflexivity |]. split.
  - intros Hem'. do 2 eexists. split.
    + apply react_returns; [exact Hk | exact Hex | exact Hem' |].
      unfold reactions_by. simpl. exact Hnone.
    + split; reflexivity.
  - intros Hem'. apply (react_raises now' self reactor emoji_id' _ Hk).
    right. left. exact Hem'.
Qed.

Lemma remove_reaction_with_id_undoes_react_witness :
  reachable db_two_posts /\
  rows (post_reactions
          (snd (remove_reaction_with_id (saved_post 1) 1 db_reacted))) = [] /\
  exists r' db3,
    react t1 (saved_post 1) 9 2
      (snd (remove_reaction_with_id (saved_post 1) 1 db_reacted)) = (inr r', db3) /\
    PostReaction_id r' = Some 2.
Proof.
  assert (H : reachable db_two_posts)
    by (repeat apply reachable_run; apply reachable_initial).
  split; [exact H |].
  destruct (@remove_reaction_with_id_undoes_react t1 t1 (saved_post 1) 9 3 2 1 1
              db_two_posts db_reacted
              {| PostReaction_id := Some 1; PostReaction_post_id := 1;
                 PostReaction_created := Some t1; PostReaction_reactor := 9;
                 PostReaction_emoji_id := 3 |}
              H eq_refl eq_refl eq_refl) as (_ & H2 & H3 & _).
  split; [exact H2 |].
  destruct (H3 eq_refl) as (r' & db3 & H4 & H5 & _).
  exists r', db3. split; assumption.
Defined.

(** ** What [create_post] writes *)

Lemma find_replace_new (k : nat) (p p0 : Post) (l : list Post) :
  (forall y, In y l -> has_pk k y = false) ->
  has_pk k p0 = true -> has_pk k p = true ->
  find (has_pk k) (map (fun x => if has_pk k x then p else x) (l ++ [p0])) = Some p.
Proof.
  intros Hl H0 Hp. induction l as [| y l IH]; simpl.
  - rewrite H0, Hp. reflexivity.
  - rewrite (Hl y (or_introl eq_refl)). rewrite (Hl y (or_introl eq_refl)).
    apply IH. intros z Hz. apply Hl. right. exact Hz.
Qed.

Lemma map_replace_old (k : nat) (p : Post) (l : list Post) :
  (forall y, In y l -> has_pk k y = false) ->
  map (fun x => if has_pk k x then p else x) l = l.
Proof.
  intros Hl. induction l as [| y l IH]; simpl; [reflexivity |].
  rewrite (Hl y (or_introl eq_refl)). f_equal. apply IH.
  intros z Hz. apply Hl. right. exact Hz.
Qed.

Lemma rows_posts_created_db_snoc (now : DateTime) (creator : nat)
    (circles_ids : list nat) (image : option File) (text : option string)
    (video : option File) (created : option DateTime) (db : DB) :
  base_ok db ->
  rows (posts (created_db now creator circles_ids image text video created db)) =
  rows (posts db) ++ [created_post now creator text created db].
Proof.
  intros (Hok & _). rewrite rows_posts_created_db, map_app.
  rewrite map_replace_old.
  - simpl. unfold has_pk. simpl. rewrite Nat.eqb_refl. reflexivity.
  - intros y Hy. apply (@has_pk_next_false _ _ _ y Hok Hy).
Qed.

Lemma post_images_created_db (now : DateTime) (creator : nat) (circles_ids : list nat)
    (image : option File) (text : option string) (video : option File)
    (created : option DateTime) (db : DB) :
  post_images (created_db now creator circles_ids image text video created db) =
  post_images (insert_image image (next_pk (posts db)) db).
Proof.
  unfold created_db. simpl. rewrite post_images_insert_video.
  unfold insert_image. destruct image as [f |]; [destruct (truthy f) |]; reflexivity.
Qed.

Lemma post_videos_created_db (now : DateTime) (creator : nat) (circles_ids : list nat)
    (image : option File) (text : option string) (video : option File)
    (created : option DateTime) (db : DB) :
  post_videos (created_db now creator circles_ids image text video created db) =
  post_videos (insert_video video (next_pk (posts db)) db) /\
  video_jobs (created_db now creator circles_ids image text video created db) =
  video_jobs (insert_video video (next_pk (posts db)) db).
Proof.
  unfold created_db. simpl. unfold insert_video.
  destruct video as [f |]; [destruct (truthy f) |]; simpl;
    unfold insert_image;
    (destruct image as [g |]; [destruct (truthy g) |]); split; reflexivity.
Qed.

Lemma others_created_db (now : DateTime) (creator : nat) (circles_ids : list nat)
    (image : option File) (text : option string) (video : option File)
    (created : option DateTime) (db : DB) :
  post_comments (created_db now creator circles_ids image text video created db) =
    post_comments db /\
  post_reactions (created_db now creator circles_ids image text video created db) =
    post_reactions db /\
  emojis (created_db now creator circles_ids image text video created db) = emojis db.
Proof.
  unfold created_db. simpl. unfold insert_video, insert_image.
  destruct video as [f |]; [destruct (truthy f) |]; simpl;
    (destruct image as [g |]; [destruct (truthy g) |]); repeat split; reflexivity.
Qed.

(** X5.  In a reachable database a call of [create_post] that passes the
    checks, whose image, if it has one, can be opened and whose circles are
    stored, returns the post it stored, under a key no stored post has: its
    text is the text given, or none when that was an empty string; its
    [created] is the value given, or the time of the call; it has the
    creator given and public comments and reactions; and looking the key up
    afterwards finds that post. *)
Theorem create_post_returns_the_stored_post (now : DateTime) (creator : nat)
    (circles_ids : list nat) (image : option File) (text : option string)
    (video : option File) (created : option DateTime) (db : DB) :
  reachable db ->
  rejected image text video = false ->
  image_ok image = true -> circles_ok circles_ids db = true ->
  exists post db' k,
    create_post now creator circles_ids image text video created db = (inr post, db') /\
    Post_id post = Some k /\
    (forall p, In p (rows (posts db)) -> Post_id p <> Some k) /\
    Post_text post = (if truthy text then text else None) /\
    Post_created post = match created with Some c => Some c | None => Some now end /\
    Post_creator post = creator /\
    Post_public_comments post = true /\ Post_public_reactions post = true /\
    find (has_pk k) (rows (posts db')) = Some post /\
    rows (posts db') = rows (posts db) ++ [post].
Proof.
  intros Hr Hrej Him Hcs. pose proof (reachable_base_ok Hr) as Hok.
  exists (created_post now creator text created db),
         (created_db now creator circles_ids image text video created db),
         (next_pk (posts db)).
  split; [apply create_post_eq; assumption |].
  split; [apply Post_id_created_post |].
  assert (Hold : forall y, In y (rows (posts db)) ->
                           has_pk (next_pk (posts db)) y = false).
  { intros y Hy. destruct Hok as (Hp & _). apply (@has_pk_next_false _ _ _ y Hp Hy). }
  split.
  { intros p Hp Heq. specialize (Hold p Hp). unfold has_pk in Hold. simpl in Hold.
    rewrite Heq, Nat.eqb_refl in Hold. discriminate. }
  unfold created_post at 1 2 3 4 5.
  repeat match goal with |- _ /\ _ => split end;
    try (destruct (truthy text); reflexivity).
  - rewrite rows_posts_created_db. apply find_replace_new.
    + exact Hold.
    + unfold has_pk. simpl. rewrite Nat.eqb_refl. reflexivity.
    + unfold has_pk. simpl. rewrite Post_id_created_post, Nat.eqb_refl. reflexivity.
  - apply rows_posts_created_db_snoc, Hok.
Qed.

Lemma create_post_returns_the_stored_post_witness :
  reachable db_two_posts /\
  exists post db',
    create_post t1 8 [3; 3; 4] photo (Some EmptyString) None (Some t0) db_two_posts =
      (inr post, db') /\
    Post_id post = Some 3 /\ Post_text post = None /\ Post_created post = Some t0.
Proof.
  assert (H : reachable db_two_posts)
    by (repeat apply reachable_run; apply reachable_initial).
  split; [exact H |].
  destruct (@create_post_returns_the_stored_post t1 8 [3; 3; 4] photo
              (Some EmptyString) None (Some t0) db_two_posts H eq_refl eq_refl
              eq_refl)
    as (post & db' & k & H1 & H2 & _ & H4 & H5 & _).
  exists post, db'. split; [exact H1 |].
  assert (Hk : k = 3).
  { assert (E : fst (create_post t1 8 [3; 3; 4] photo (Some EmptyString) None
                       (Some t0) db_two_posts) = inr post) by (rewrite H1; reflexivity).
    vm_compute in E. inversion E; subst post. simpl in H2. congruence. }
  subst k. split; [exact H2 |]. split; assumption.
Defined.

(** X6.  In a reachable database a call of [create_post] that passes the
    checks, whose image, if it has one, can be opened and whose circles are
    stored, adds one row of [PostImage] for the new post when it is given
    an image and none otherwise, one row of [PostVideo] when it is given a
    video and none otherwise, and enqueues the conversion of exactly the
    video row it added.  A call whose image cannot be opened raises and
    adds no row of [PostImage] or [PostVideo] and enqueues nothing. *)
Theorem create_post_writes_media (now : DateTime) (creator : nat)
    (circles_ids : list nat) (image : option File) (text : option string)
    (video : option File) (created : option DateTime) (db : DB) :
  reachable db ->
  rejected image text video = false ->
  let db' := snd (create_post now creator circles_ids image text video created db) in
  let k := next_pk (posts db) in
  (image_ok image = false ->
   fst (create_post now creator circles_ids image text video created db) =
     inl OSError /\
   post_images db' = post_images db /\ post_videos db' = post_videos db /\
   video_jobs db' = video_jobs db) /\
  (image_ok image = true -> circles_ok circles_ids db = true ->
  rows (post_images db') =
    rows (post_images db) ++
    match image with
    | Some f => if truthy f
                then [{| PostImage_id := Some (next_pk (post_images db));
                         PostImage_post_id := k; PostImage_image := f |}]
                else []
    | None => []
    end /\
  rows (post_videos db') =
    rows (post_videos db) ++
    match video with
    | Some f => if truthy f
                then [{| PostVideo_id := Some (next_pk (post_videos db));
                         PostVideo_post_id := k; PostVideo_video := f |}]
                else []
    | None => []
    end /\
  video_jobs db' =
    video_jobs db ++ (if truthy video then [next_pk (post_videos db)] else []) /\
  image_exists k db' = truthy image /\ video_exists k db' = truthy video).
Proof.
  intros Hr Hrej db' k. subst db' k. pose proof (reachable_base_ok Hr) as Hok.
  split.
  { intros Him.
    rewrite (@create_post_outcome now creator circles_ids image text video
               created db Hok Hrej).
    rewrite Him. cbn [negb fst snd]. repeat split. }
  intros Him Hcs.
  rewrite create_post_eq by assumption. cbn [snd].
  rewrite image_exists_created_db, video_exists_created_db.
  rewrite (image_exists_false Hok), (video_exists_false Hok), Nat.eqb_refl.
  rewrite post_images_created_db.
  destruct (post_videos_created_db now creator circles_ids image text video created db)
    as [-> ->].
  repeat match goal with |- _ /\ _ => split end.
  - unfold insert_image. destruct image as [f |]; [destruct (truthy f) |]; simpl;
      try rewrite app_nil_r; reflexivity.
  - unfold insert_video. destruct video as [f |]; [destruct (truthy f) |]; simpl;
      try rewrite app_nil_r; reflexivity.
  - unfold insert_video. destruct video as [f |];
      [change (truthy (Some f)) with (truthy f); destruct (truthy f) |]; simpl;
      try rewrite app_nil_r; reflexivity.
  - simpl. apply andb_true_r.
  - simpl. apply andb_true_r.
Qed.

Lemma create_post_writes_media_witness :
  reachable db_two_posts /\
  video_jobs (snd (create_post t1 7 [1] None None clip None db_two_posts)) = [1] /\
  rows (post_images (snd (create_post t1 7 [1] None None clip None db_two_posts))) = [].
Proof.
  assert (H : reachable db_two_posts)
    by (repeat apply reachable_run; apply reachable_initial).
  split; [exact H |].
  destruct (@create_post_writes_media t1 7 [1] None None clip None db_two_posts
              H eq_refl) as [_ Hw].
  destruct (Hw eq_refl eq_refl) as (H1 & _ & H3 & _).
  split; [exact H3 | exact H1].
Defined.

Lemma filter_link_nil (a b : nat) (l : list (nat * nat)) :
  ~ In (a, b) l -> filter (fun x => (fst x =? a) && (snd x =? b)) l = [].
Proof.
  induction l as [| [c d] l IH]; simpl; intros H; [reflexivity |].
  destruct ((c =? a) && (d =? b)) eqn:E.
  - apply andb_true_iff in E. destruct E as [Ea Eb].
    apply Nat.eqb_eq in Ea, Eb. subst. exfalso. apply H. left. reflexivity.
  - apply IH. intros Hin. apply H. right. exact Hin.
Qed.

(** X7.  In a reachable database a call of [create_post] that passes the
    checks links the new post to the circles it is given, each once however
    often it is listed, and changes no link of another post; the new post is
    public exactly when the world circle is among the circles given. *)
Theorem create_post_links_circles (now : DateTime) (creator : nat)
    (circles_ids : list nat) (image : option File) (text : option string)
    (video : option File) (created : option DateTime) (db db' : DB) (post : Post) :
  reachable db ->
  create_post now creator circles_ids image text video created db = (inr post, db') ->
  NoDup (post_circles db') /\
  (forall j c, In (j, c) (post_circles db') <->
               In (j, c) (post_circles db) \/ (Post_id post = Some j /\ In c circles_ids)) /\
  (is_public_post post db' = true <-> In (world_circle_id db) circles_ids).
Proof.
  intros Hr H. pose proof (reachable_base_ok Hr) as Hok.
  assert (Hok' : base_ok db').
  { replace db' with
      (run (Op_create_post now creator circles_ids image text video created) db)
      by (simpl; rewrite H; reflexivity).
    apply reachable_base_ok, reachable_run, Hr. }
  destruct (@create_post_inr _ _ _ _ _ _ _ _ _ _ Hok H) as (Hrej & _ & _ & -> & ->).
  assert (Hlinks : forall j c,
    In (j, c) (post_circles (created_db now creator circles_ids image text video
                               created db)) <->
    In (j, c) (post_circles db) \/
    (Post_id (created_post now creator text created db) = Some j /\ In c circles_ids)).
  { intros j c. rewrite post_circles_created_db, fold_add_link_In, in_map_iff.
    rewrite Post_id_created_post. split.
    - intros [Hin | [c' [Heq Hc]]]; [left; exact Hin |].
      inversion Heq; subst. right. auto.
    - intros [Hin | [Heq Hc]]; [left; exact Hin |].
      inversion Heq; subst. right. exists c. auto. }
  split; [apply Hok' |]. split; [exact Hlinks |].
  unfold is_public_post. rewrite Post_id_created_post, world_circle_id_created_db.
  rewrite Nat.eqb_eq. split.
  - intros Hone.
    destruct (in_dec Nat.eq_dec (world_circle_id db) circles_ids) as [Hin | Hnin];
      [exact Hin |].
    rewrite filter_link_nil in Hone; [discriminate |].
    intros Hl. apply Hlinks in Hl. destruct Hl as [Hl | [_ Hl]]; [| contradiction].
    destruct Hok as (_ & _ & _ & _ & H5 & _). specialize (H5 _ Hl). simpl in H5. lia.
  - intros Hin. apply NoDup_count_one; [apply Hok' |].
    apply Hlinks. right. split; [apply Post_id_created_post | exact Hin].
Qed.

Lemma create_post_links_circles_witness :
  reachable db_two_posts /\
  exists post db',
    create_post t1 8 [3; 3; 4] photo hello None None db_two_posts = (inr post, db') /\
    post_circles db' = [(1, 1); (2, 1); (3, 3); (3, 4)] /\
    NoDup (post_circles db') /\
    ~ is_public_post post db' = true.
Proof.
  assert (H : reachable db_two_posts)
    by (repeat apply reachable_run; apply reachable_initial).
  split; [exact H |].
  assert (Hc : create_post t1 8 [3; 3; 4] photo hello None None db_two_posts =
               (inr (created_post t1 8 hello None db_two_posts),
                created_db t1 8 [3; 3; 4] photo hello None None db_two_posts))
    by reflexivity.
  do 2 eexists. split; [exact Hc |]. split; [reflexivity |].
  destruct (create_post_links_circles _ _ _ _ _ _ _ H Hc) as (H1 & _ & H3).
  split; [exact H1 |].
  intros Hp. apply H3 in Hp. simpl in Hp.
  destruct Hp as [Hp | [Hp | [Hp | []]]]; discriminate.
Defined.

Lemma rows_posts_media_db (now : DateTime) (creator : nat)
    (image video : option File) (created : option DateTime) (db : DB) :
  rows (posts (media_db now creator image video created db)) =
  rows (posts db) ++ [new_post now creator created (next_pk (posts db))].
Proof.
  unfold media_db, stored_db. rewrite posts_insert_video, posts_insert_image.
  reflexivity.
Qed.

Lemma others_media_db (now : DateTime) (creator : nat)
    (image video : option File) (created : option DateTime) (db : DB) :
  post_comments (media_db now creator image video created db) = post_comments db /\
  post_reactions (media_db now creator image video created db) = post_reactions db /\
  emojis (media_db now creator image video created db) = emojis db /\
  post_circles (media_db now creator image video created db) = post_circles db /\
  post_images (media_db now creator image video created db) =
    post_images (insert_image image (next_pk (posts db)) db) /\
  post_videos (media_db now creator image video created db) =
    post_videos (insert_video video (next_pk (posts db)) db).
Proof.
  unfold media_db, stored_db, insert_video, insert_image.
  destruct video as [f |]; [destruct (truthy f) |]; simpl;
    (destruct image as [g |]; [destruct (truthy g) |]); repeat split; reflexivity.
Qed.

(** X8.  In a reachable database no call of [create_post], returning or
    raising, changes a comment, a reaction or the emoji, and none removes or
    alters a stored post, image, video or circle link. *)
Theorem create_post_keeps_what_is_stored (now : DateTime) (creator : nat)
    (circles_ids : list nat) (image : option File) (text : option string)
    (video : option File) (created : option DateTime) (db : DB) :
  reachable db ->
  let db' := snd (create_post now creator circles_ids image text video created db) in
  post_comments db' = post_comments db /\
  post_reactions db' = post_reactions db /\
  emojis db' = emojis db /\
  (forall p, In p (rows (posts db)) -> In p (rows (posts db'))) /\
  (forall i, In i (rows (post_images db)) -> In i (rows (post_images db'))) /\
  (forall v, In v (rows (post_videos db)) -> In v (rows (post_videos db'))) /\
  (forall l, In l (post_circles db) -> In l (post_circles db')).
Proof.
  intros Hr db'. subst db'. pose proof (reachable_base_ok Hr) as Hok.
  destruct (rejected image text video) eqn:Hrej.
  { destruct (create_post_rejected now creator circles_ids image text video
                created db Hrej) as [detail ->]. simpl. repeat split; auto. }
  rewrite (@create_post_outcome now creator circles_ids image text video
             created db Hok Hrej).
  destruct (image_ok image); cbn [negb snd].
  2:{ unfold stored_db. simpl. repeat split; auto.
      intros p Hp. apply in_app_iff. left. exact Hp. }
  destruct (circles_ok circles_ids db); cbn [negb snd].
  2:{ destruct (others_media_db now creator image video created db)
        as (-> & -> & -> & -> & -> & ->).
      rewrite rows_posts_media_db.
      repeat match goal with |- _ /\ _ => split end; try reflexivity.
      - intros p Hp. apply in_app_iff. left. exact Hp.
      - intros i Hi. unfold insert_image.
        destruct image as [f |]; [destruct (truthy f) |]; simpl; try exact Hi.
        apply in_app_iff. left. exact Hi.
      - intros v Hv. unfold insert_video.
        destruct video as [f |]; [destruct (truthy f) |]; simpl; try exact Hv.
        apply in_app_iff. left. exact Hv.
      - auto. }
  destruct (others_created_db now creator circles_ids image text video created db)
    as (-> & -> & ->).
  repeat match goal with |- _ /\ _ => split end; try reflexivity.
  - intros p Hp. rewrite rows_posts_created_db_snoc by assumption.
    apply in_app_iff. left. exact Hp.
  - intros i Hi. rewrite post_images_created_db. unfold insert_image.
    destruct image as [f |]; [destruct (truthy f) |]; simpl; try exact Hi.
    apply in_app_iff. left. exact Hi.
  - intros v Hv.
    destruct (post_videos_created_db now creator circles_ids image text video
                created db) as [-> _].
    unfold insert_video.
    destruct video as [f |]; [destruct (truthy f) |]; simpl; try exact Hv.
    apply in_app_iff. left. exact Hv.
  - intros l Hl. rewrite post_circles_created_db. apply fold_add_link_In.
    left. exact Hl.
Qed.

Lemma create_post_keeps_what_is_stored_witness :
  reachable db_reacted /\
  post_reactions (snd (create_post t1 8 [3; 3; 4] photo hello None None db_reacted)) =
    post_reactions db_reacted /\
  In (saved_post 1)
     (rows (posts (snd (create_post t1 8 [3; 3; 4] photo hello None None db_reacted)))).
Proof.
  assert (H : reachable db_reacted)
    by (repeat apply reachable_run; apply reachable_initial).
  split; [exact H |].
  destruct (@create_post_keeps_what_is_stored t1 8 [3; 3; 4] photo hello None None
              db_reacted H) as (_ & H2 & _ & H4 & _).
  split; [exact H2 |]. apply H4. left. reflexivity.
Defined.

(** ** [has_text], [has_image] and [has_video] *)

Lemma find_existsb {A : Type} (f : A -> bool) (l : list A) :
  existsb f l = match find f l with Some _ => true | None => false end.
Proof.
  induction l as [| y l IH]; simpl; [reflexivity |].
  destruct (f y); simpl; [reflexivity | exact IH].
Qed.

Lemma has_image_cases (self : Post) (db : DB) :
  has_image self db =
  match Post_id self with
  | Some k => if image_exists k db then inr true else inl RelatedObjectDoesNotExist
  | None => inl RelatedObjectDoesNotExist
  end.
Proof.
  unfold has_image, Post_image, image_exists.
  destruct (Post_id self) as [k |]; [| reflexivity].
  rewrite find_existsb. destruct (find _ (rows (post_images db))); reflexivity.
Qed.

Lemma has_video_cases (self : Post) (db : DB) :
  has_video self db =
  match Post_id self with
  | Some k => if video_exists k db then inr true else inl RelatedObjectDoesNotExist
  | None => inl RelatedObjectDoesNotExist
  end.
Proof.
  unfold has_video, Post_video, video_exists.
  destruct (Post_id self) as [k |]; [| reflexivity].
  rewrite find_existsb. destruct (find _ (rows (post_videos db))); reflexivity.
Qed.

(** X9.  [has_image] and [has_video] never return [False]: each returns
    [True] when the post has the row, and raises when it has none or is not
    saved. *)
Theorem has_image_returns_true_or_raises (self : Post) (db : DB) :
  has_image self db <> inr false /\ has_video self db <> inr false /\
  (has_image self db = inr true <->
   exists k, Post_id self = Some k /\ image_exists k db = true) /\
  (has_video self db = inr true <->
   exists k, Post_id self = Some k /\ video_exists k db = true) /\
  (has_image self db = inl RelatedObjectDoesNotExist <->
   forall k, Post_id self = Some k -> image_exists k db = false) /\
  (has_video self db = inl RelatedObjectDoesNotExist <->
   forall k, Post_id self = Some k -> video_exists k db = false).
Proof.
  rewrite has_image_cases, has_video_cases.
  destruct (Post_id self) as [k |].
  - destruct (image_exists k db) eqn:Ei, (video_exists k db) eqn:Ev;
      repeat match goal with |- _ /\ _ => split end; try discriminate;
      try (split; [intros _; exists k; auto | reflexivity]);
      try (split; [discriminate | intros [j [Hj Hf]]; inversion Hj; congruence]);
      try (split; [discriminate | intros H; specialize (H k eq_refl); congruence]);
      try (split; [intros _ j Hj; inversion Hj; congruence | reflexivity]).
  - repeat match goal with |- _ /\ _ => split end; try discriminate;
      try (split; [discriminate | intros [j [Hj _]]; discriminate]);
      (split; [intros _ j Hj; discriminate | reflexivity]).
Qed.

(** X10.  In a reachable database, of [has_text], [has_image] and
    [has_video] at least one returns [True] for the post that a call of
    [create_post] returns; and for no stored post, however the call that
    stored it ended, do [has_image] and [has_video] both return [True]. *)
Theorem returned_post_has_text_image_or_video (now : DateTime) (creator : nat)
    (circles_ids : list nat) (image : option File) (text : option string)
    (video : option File) (created : option DateTime) (db db' : DB) (post : Post) :
  reachable db ->
  create_post now creator circles_ids image text video created db = (inr post, db') ->
  (has_text post = true \/ has_image post db' = inr true \/
   has_video post db' = inr true) /\
  (forall p, ~ (has_image p db = inr true /\ has_video p db = inr true)) /\
  (forall p, ~ (has_image p db' = inr true /\ has_video p db' = inr true)).
Proof.
  intros Hr H. pose proof (reachable_base_ok Hr) as Hok.
  assert (Hr' : reachable db').
  { replace db' with
      (run (Op_create_post now creator circles_ids image text video created) db)
      by (simpl; rewrite H; reflexivity).
    apply reachable_run, Hr. }
  assert (Hnb : forall d p, never_both d ->
                  ~ (has_image p d = inr true /\ has_video p d = inr true)).
  { intros d p Hn. rewrite has_image_cases, has_video_cases.
    destruct (Post_id p) as [k |]; [| intros [Ha _]; discriminate].
    specialize (Hn k).
    destruct (image_exists k d), (video_exists k d); simpl in Hn;
      try discriminate; intros [Ha Hb]; discriminate. }
  destruct (@create_post_inr _ _ _ _ _ _ _ _ _ _ Hok H) as (Hrej & _ & _ & -> & ->).
  split; [| split].
  - destruct (@created_post_content_ok now creator circles_ids image text video
                created db Hok Hrej)
      as [k [Hk [H1 _]]].
    rewrite has_image_cases, has_video_cases, Hk. unfold has_text.
    destruct (truthy (Post_text (created_post now creator text created db))),
      (image_exists k _), (video_exists k _); simpl in *; auto; discriminate.
  - intros p. apply Hnb, reachable_never_both, Hr.
  - intros p. apply Hnb, reachable_never_both, Hr'.
Qed.

Lemma returned_post_has_text_image_or_video_witness :
  reachable db_two_posts /\
  exists post db',
    create_post t1 8 [3; 3; 4] photo hello None None db_two_posts = (inr post, db') /\
    has_text post = true /\ has_image post db' = inr true /\
    ~ (has_image post db' = inr true /\ has_video post db' = inr true).
Proof.
  assert (H : reachable db_two_posts)
    by (repeat apply reachable_run; apply reachable_initial).
  split; [exact H |].
  assert (Hc : create_post t1 8 [3; 3; 4] photo hello None None db_two_posts =
               (inr (created_post t1 8 hello None db_two_posts),
                created_db t1 8 [3; 3; 4] photo hello None None db_two_posts))
    by reflexivity.
  do 2 eexists. split; [exact Hc |]. split; [reflexivity |]. split; [reflexivity |].
  destruct (@returned_post_has_text_image_or_video t1 8 [3; 3; 4] photo hello None
              None db_two_posts _ _ H Hc) as (_ & _ & Hn).
  apply Hn.
Defined.

(** ** The flags of a post *)

Lemma reachable_flags_ok (db : DB) : reachable db -> flags_ok db.
Proof.
  intros Hr. induction Hr as [es world cs cm lm | op db Hr IH].
  - intros p [].
  - pose proof (reachable_base_ok Hr) as Hok.
    assert (Hsame : forall d, same_posts db d -> flags_ok d).
    { intros d (Hp & _) p Hin. rewrite Hp in Hin. apply IH, Hin. }
    destruct op; simpl; unfold comment, react.
    + destruct (rejected image text video) eqn:Hrej.
      * destruct (create_post_rejected now creator circles_ids image text video
                    created db Hrej) as [detail ->]. exact IH.
      * rewrite (@create_post_outcome now creator circles_ids image text video
                   created db Hok Hrej).
        destruct (image_ok image); cbn [negb snd].
        2:{ intros p Hp. unfold stored_db in Hp. simpl in Hp.
            apply in_app_iff in Hp. destruct Hp as [Hp | [<- | []]]; [apply IH, Hp |].
            split; reflexivity. }
        destruct (circles_ok circles_ids db); cbn [negb snd].
        2:{ intros p Hp. rewrite rows_posts_media_db in Hp.
            apply in_app_iff in Hp. destruct Hp as [Hp | [<- | []]]; [apply IH, Hp |].
            split; reflexivity. }
        intros p Hp. rewrite rows_posts_created_db_snoc in Hp by assumption.
        apply in_app_iff in Hp. destruct Hp as [Hp | [<- | []]]; [apply IH, Hp |].
        unfold created_post. destruct (truthy text); split; reflexivity.
    + apply Hsame. apply preserves_create_comment;
        [apply same_posts_PostComment_super_save | apply same_posts_refl].
    + unfold remove_comment_with_id. destruct (Post_id self); exact IH.
    + apply Hsame. apply preserves_create_reaction;
        [apply same_posts_PostReaction_super_save | apply same_posts_refl].
    + apply Hsame. apply preserves_create_reaction;
        [apply same_posts_PostReaction_super_save | apply same_posts_refl].
    + unfold remove_reaction_with_id. destruct (Post_id self); exact IH.
    + unfold Post_delete. destruct (Post_id self); [| exact IH]. simpl.
      intros p Hp. simpl in Hp. apply filter_In in Hp. apply IH, Hp.
Qed.

Lemma count_has_pk {R : Type} `{Model R} (k : nat) (l : list R) :
  NoDup (map pk l) ->
  List.length (filter (has_pk k) l) = if existsb (has_pk k) l then 1 else 0.
Proof.
  induction l as [| x l IH]; simpl; intros Hn; [reflexivity |].
  inversion Hn as [| ? ? Hx Hl]; subst.
  destruct (has_pk k x) eqn:E; simpl.
  - f_equal. rewrite (IH Hl).
    destruct (existsb (has_pk k) l) eqn:Ex; [| reflexivity].
    exfalso. apply Hx. apply existsb_exists in Ex. destruct Ex as [y [Hy Hk]].
    apply in_map_iff. exists y. split; [| exact Hy].
    unfold has_pk in *. destruct (pk x), (pk y); try discriminate.
    apply Nat.eqb_eq in E, Hk. congruence.
  - apply IH, Hl.
Qed.

(** X11.  In a reachable database [post_with_id_has_public_comments] and
    [post_with_id_has_public_reactions] hold of exactly the keys of the
    stored posts: no operation of the models clears the two flags. *)
Theorem post_with_id_has_public_comments_iff_stored (db : DB) (post_id : nat) :
  reachable db ->
  post_with_id_has_public_comments post_id db = post_exists post_id db /\
  post_with_id_has_public_reactions post_id db = post_exists post_id db.
Proof.
  intros Hr. pose proof (reachable_flags_ok Hr) as Hf.
  pose proof (reachable_base_ok Hr) as ((_ & Hn) & _).
  unfold post_with_id_has_public_comments, post_with_id_has_public_reactions,
    post_exists.
  rewrite (filter_ext_in (fun p => has_pk post_id p && Post_public_comments p)
             (has_pk post_id)).
  2:{ intros p Hp. destruct (Hf p Hp) as [-> _]. apply andb_true_r. }
  rewrite (filter_ext_in (fun p => has_pk post_id p && Post_public_reactions p)
             (has_pk post_id)).
  2:{ intros p Hp. destruct (Hf p Hp) as [_ ->]. apply andb_true_r. }
  rewrite (count_has_pk post_id _ Hn).
  destruct (existsb (has_pk post_id) (rows (posts db))); split; reflexivity.
Qed.

Lemma post_with_id_has_public_comments_iff_stored_witness :
  reachable db_media /\
  post_with_id_has_public_comments 3 db_media = true /\
  post_with_id_has_public_reactions 9 db_media = false.
Proof.
  assert (H : reachable db_media)
    by (repeat apply reachable_run; apply reachable_initial).
  split; [exact H |].
  destruct (@post_with_id_has_public_comments_iff_stored db_media 3 H) as [H1 _].
  destruct (@post_with_id_has_public_comments_iff_stored db_media 9 H) as [_ H2].
  split; [rewrite H1 | rewrite H2]; reflexivity.
Defined.

(** ** After a post is deleted *)






(** ** Referential integrity *)

Lemma existsb_has_pk_base_save {R : Type} `{Model R} (j : nat) (r : R) (t : Table R) :
  existsb (has_pk j) (rows t) = true ->
  existsb (has_pk j) (rows (snd (base_save r t))) = true.
Proof.
  intros Hex. unfold base_save. destruct (pk r) as [k |] eqn:Er.
  - destruct (existsb (has_pk k) (rows t)) eqn:Ek; simpl.
    + apply existsb_exists in Hex. destruct Hex as [y [Hy Hj]].
      apply existsb_exists.
      exists (if has_pk k y then r else y). split.
      * apply in_map_iff. exists y. auto.
      * destruct (has_pk k y) eqn:Eky; [| exact Hj].
        unfold has_pk in *. rewrite Er. destruct (pk y); [| discriminate].
        apply Nat.eqb_eq in Hj, Eky. subst. apply Nat.eqb_refl.
    + rewrite existsb_app, Hex. reflexivity.
  - simpl. rewrite existsb_app, Hex. reflexivity.
Qed.

Lemma existsb_has_pk_filter_other (j k : nat) (l : list Post) :
  j <> k -> existsb (has_pk j) l = true ->
  existsb (has_pk j) (filter (fun p => negb (has_pk k p)) l) = true.
Proof.
  intros Hne Hex. apply existsb_exists in Hex. destruct Hex as [y [Hy Hj]].
  apply existsb_exists. exists y. split; [| exact Hj].
  apply filter_In. split; [exact Hy |]. apply negb_true_iff.
  unfold has_pk in *. destruct (pk y); [| discriminate].
  apply Nat.eqb_eq in Hj. subst. apply Nat.eqb_neq. exact Hne.
Qed.

Lemma stable_references_ok : stable references_ok.
Proof.
  unfold stable. repeat match goal with |- _ /\ _ => split end.
  - intros p db (Hi & Hv & Hc & Hr & Hl). unfold Post_super_save.
    destruct (Post_created p); [| repeat split; assumption].
    pose proof (fun j => existsb_has_pk_base_save j p (posts db)) as Hs.
    destruct (base_save p (posts db)) as [q t]. simpl in *.
    unfold references_ok, post_exists in *. simpl.
    repeat split; intros x Hx; apply Hs; auto.
  - intros i db (Hi & Hv & Hc & Hr & Hl). unfold PostImage_save.
    destruct (file_is_image (PostImage_image i)); simpl;
      [| repeat split; assumption].
    destruct (post_exists (PostImage_post_id i) db) eqn:Ex; simpl;
      [| repeat split; assumption].
    destruct (existsb _ (others i (post_images db))); [repeat split; assumption |].
    pose proof (base_save_rows i (post_images db)) as Hrows.
    pose proof (base_save_fst i (post_images db)) as Hfst.
    destruct (base_save i (post_images db)) as [q t]. simpl in *.
    unfold references_ok. simpl. repeat split; auto.
    intros x Hx. destruct (Hrows x Hx) as [Hin | ->]; [apply Hi, Hin |].
    destruct Hfst as [-> | [_ ->]]; exact Ex.
  - intros v db (Hi & Hv & Hc & Hr & Hl). unfold PostVideo_save.
    destruct (post_exists (PostVideo_post_id v) db) eqn:Ex; simpl;
      [| repeat split; assumption].
    destruct (existsb _ (others v (post_videos db))); [repeat split; assumption |].
    pose proof (base_save_rows v (post_videos db)) as Hrows.
    pose proof (base_save_fst v (post_videos db)) as Hfst.
    destruct (base_save v (post_videos db)) as [q t]. simpl in *.
    unfold references_ok. simpl. repeat split; auto.
    intros x Hx. destruct (Hrows x Hx) as [Hin | ->]; [apply Hv, Hin |].
    destruct Hfst as [-> | [_ ->]]; exact Ex.
  - intros p cs db (Hi & Hv & Hc & Hr & Hl). unfold circles_add.
    destruct (Post_id p) as [k |]; [| repeat split; assumption].
    destruct (post_exists k db) eqn:Ex; simpl; [| repeat split; assumption].
    destruct (existsb _ cs); [repeat split; assumption |].
    unfold references_ok. simpl. repeat split; auto.
    intros l Hin. apply fold_add_link_In in Hin. destruct Hin as [Hin | Hin].
    + apply Hl, Hin.
    + apply in_map_iff in Hin. destruct Hin as [c [<- _]]. exact Ex.
  - intros c db (Hi & Hv & Hc & Hr & Hl). unfold PostComment_super_save.
    destruct (PostComment_created c); [| repeat split; assumption].
    destruct (post_exists (PostComment_post_id c) db) eqn:Ex; simpl;
      [| repeat split; assumption].
    pose proof (base_save_rows c (post_comments db)) as Hrows.
    pose proof (base_save_fst c (post_comments db)) as Hfst.
    destruct (base_save c (post_comments db)) as [q t]. simpl in *.
    unfold references_ok. simpl. repeat split; auto.
    intros x Hx. destruct (Hrows x Hx) as [Hin | ->]; [apply Hc, Hin |].
    destruct Hfst as [-> | [_ ->]]; exact Ex.
  - intros r db (Hi & Hv & Hc & Hr & Hl). unfold PostReaction_super_save.
    destruct (PostReaction_created r); [| repeat split; assumption].
    destruct (post_exists (PostReaction_post_id r) db) eqn:Ex; simpl;
      [| repeat split; assumption].
    destruct (emoji_exists _ db); simpl; [| repeat split; assumption].
    destruct (existsb _ (others r (post_reactions db))); [repeat split; assumption |].
    pose proof (base_save_rows r (post_reactions db)) as Hrows.
    pose proof (base_save_fst r (post_reactions db)) as Hfst.
    destruct (base_save r (post_reactions db)) as [q t]. simpl in *.
    unfold references_ok. simpl. repeat split; auto.
    intros x Hx. destruct (Hrows x Hx) as [Hin | ->]; [apply Hr, Hin |].
    destruct Hfst as [-> | [_ ->]]; exact Ex.
  - intros p i db (Hi & Hv & Hc & Hr & Hl). unfold remove_comment_with_id.
    destruct (Post_id p); [| repeat split; assumption].
    unfold references_ok. simpl. repeat split; auto.
    intros x Hx. apply filter_In in Hx. apply Hc, Hx.
  - intros p i db (Hi & Hv & Hc & Hr & Hl). unfold remove_reaction_with_id.
    destruct (Post_id p); [| repeat split; assumption].
    unfold references_ok. simpl. repeat split; auto.
    intros x Hx. apply filter_In in Hx. apply Hr, Hx.
  - intros p db (Hi & Hv & Hc & Hr & Hl). unfold Post_delete.
    destruct (Post_id p) as [k |]; [| repeat split; assumption].
    unfold references_ok, post_exists in *. simpl.
    repeat split; intros x Hx; apply filter_In in Hx; destruct Hx as [Hx Hne];
      apply negb_true_iff, Nat.eqb_neq in Hne;
      apply existsb_has_pk_filter_other; auto.
Qed.

(** X13.  In every reachable database every image, video, comment,
    reaction and circle link refers to a stored post. *)
Theorem reachable_references_ok (db : DB) : reachable db -> references_ok db.
Proof.
  apply stable_reachable; [apply stable_references_ok |].
  intros. unfold references_ok. simpl. repeat split; intros x [].
Qed.

Lemma reachable_references_ok_witness :
  reachable (snd (Post_delete (saved_post 1) db_emoji)) /\
  references_ok (snd (Post_delete (saved_post 1) db_emoji)) /\
  List.length (rows (post_reactions (snd (Post_delete (saved_post 1) db_emoji)))) = 1.
Proof.
  assert (H : reachable (snd (Post_delete (saved_post 1) db_emoji))).
  { apply (reachable_run (Op_delete (saved_post 1))).
    repeat apply reachable_run. apply reachable_initial. }
  split; [exact H |]. split; [apply reachable_references_ok, H | reflexivity].
Defined.

(** ** Counting the reactions of one user *)

Lemma count_reactions_by (k reactor : nat) (db : DB) :
  truthy reactor = true ->
  count_reactions_for_post_with_id k (Some reactor) db =
  List.length (reactions_by reactor k db).
Proof.
  intros Ht. unfold count_reactions_for_post_with_id, reactions_by. rewrite Ht.
  f_equal. apply filter_ext. intros r. apply andb_comm.
Qed.

(** X14.  In a reachable database [count_reactions] with a reactor counts
    to one at most; when it counts one, [react] by that user raises
    [IntegrityError]; and for a stored post and a stored emoji it is 0
    exactly when that user can still react to the post, and 1 exactly when
    [react] raises [IntegrityError]. *)
Theorem count_reactions_of_reactor (now : DateTime) (self : Post)
    (reactor emoji_id k : nat) (db : DB) :
  reachable db ->
  Post_id self = Some k ->
  truthy reactor = true ->
  count_reactions self (Some reactor) db <= 1 /\
  (count_reactions self (Some reactor) db = 1 ->
   react now self reactor emoji_id db = (inl IntegrityError, db)) /\
  (post_exists k db = true -> emoji_exists emoji_id db = true ->
   (count_reactions self (Some reactor) db = 0 <->
    exists r db', react now self reactor emoji_id db = (inr r, db')) /\
   (count_reactions self (Some reactor) db = 1 <->
    react now self reactor emoji_id db = (inl IntegrityError, db))).
Proof.
  intros Hr Hk Ht. unfold count_reactions. rewrite Hk.
  rewrite (@count_reactions_by k reactor db Ht).
  assert (Hone : List.length (reactions_by reactor k db) <= 1).
  { apply unique_iff_at_most_one. apply (reachable_base_ok Hr). }
  split; [exact Hone |]. split.
  { intros H1. apply (react_raises now self reactor emoji_id db Hk).
    right. right. intros E. rewrite E in H1. discriminate. }
  intros Hex Hem.
  destruct (reactions_by reactor k db) as [| x l] eqn:E.
  - pose proof (react_returns now self reactor emoji_id db Hk Hex Hem E) as Hret.
    split; split; simpl.
    + intros _. do 2 eexists. exact Hret.
    + reflexivity.
    + discriminate.
    + intros H. rewrite Hret in H. discriminate.
  - assert (Hraise : react now self reactor emoji_id db = (inl IntegrityError, db)).
    { apply (react_raises now self reactor emoji_id db Hk).
      right. right. rewrite E. discriminate. }
    split; split; simpl in *.
    + discriminate.
    + intros [r [db' H]]. rewrite Hraise in H. discriminate.
    + intros _. exact Hraise.
    + intros _. destruct l; [reflexivity | simpl in Hone; lia].
Qed.

Lemma count_reactions_of_reactor_witness :
  reachable db_reacted /\
  count_reactions (saved_post 1) (Some 9) db_reacted = 1 /\
  react t1 (saved_post 1) 9 2 db_reacted = (inl IntegrityError, db_reacted) /\
  count_reactions (saved_post 1) (Some 10) db_reacted = 0 /\
  exists r db', react t1 (saved_post 1) 10 2 db_reacted = (inr r, db').
Proof.
  assert (H : reachable db_reacted)
    by (repeat apply reachable_run; apply reachable_initial).
  split; [exact H |]. split; [reflexivity |]. split.
  - destruct (@count_reactions_of_reactor t1 (saved_post 1) 9 2 1 db_reacted
                H eq_refl eq_refl) as (_ & _ & H2).
    destruct (H2 eq_refl eq_refl) as [_ [H3 _]]. apply H3. reflexivity.
  - split; [reflexivity |].
    destruct (@count_reactions_of_reactor t1 (saved_post 1) 10 2 1 db_reacted
                H eq_refl eq_refl) as (_ & _ & H2).
    destruct (H2 eq_refl eq_refl) as [[H3 _] _]. apply H3. reflexivity.
Defined.

(** ** Saving a stored post again *)

Lemma find_replace (k : nat) (p : Post) (l : list Post) :
  existsb (has_pk k) l = true -> has_pk k p = true ->
  find (has_pk k) (map (fun x => if has_pk k x then p else x) l) = Some p.
Proof.
  intros Hex Hp. induction l as [| y l IH]; simpl in *; [discriminate |].
  destruct (has_pk k y) eqn:E; simpl.
  - rewrite Hp. reflexivity.
  - rewrite E. apply IH. exact Hex.
Qed.

(** X15.  Saving a post whose key is stored, after its fields were
    changed, replaces the row of that key by the instance and returns it:
    looking the key up finds the instance, the keys of the table and their
    order stay, the rows of other keys stay, and no other table changes.  A
    save with [created] cleared raises [IntegrityError] and writes
    nothing. *)
Theorem Post_save_updates_the_row (now : DateTime) (self : Post) (k : nat) (db : DB) :
  Post_id self = Some k ->
  post_exists k db = true ->
  (Post_created self = None -> k <> 0 ->
   Post_save now self db = (inl IntegrityError, db)) /\
  (Post_created self <> None ->
   exists db',
     Post_save now self db = (inr self, db') /\
     find (has_pk k) (rows (posts db')) = Some self /\
     map pk (rows (posts db')) = map pk (rows (posts db)) /\
     next_pk (posts db') = next_pk (posts db) /\
     (forall q, In q (rows (posts db)) -> has_pk k q = false ->
                In q (rows (posts db'))) /\
     post_images db' = post_images db /\ post_videos db' = post_videos db /\
     post_comments db' = post_comments db /\ post_reactions db' = post_reactions db /\
     post_circles db' = post_circles db).
Proof.
  intros Hk Hex. unfold Post_save, Post_super_save, base_save.
  split.
  - intros Hc Hne. rewrite Hc, Hk.
    assert (Ht : truthy (Some k) = true).
    { unfold truthy, Truthy_option, truthy, Truthy_nat.
      apply Nat.eqb_neq in Hne. rewrite Hne. reflexivity. }
    rewrite Ht. simpl. rewrite Hc. reflexivity.
  - intros Hc. destruct (Post_created self) as [c |] eqn:Ec; [| contradiction].
    simpl. rewrite andb_false_r, Ec. simpl. rewrite Hk.
    unfold post_exists in Hex. rewrite Hex.
    eexists. split; [reflexivity |]. simpl.
    repeat match goal with |- _ /\ _ => split end; try reflexivity.
    + apply find_replace; [exact Hex |].
      unfold has_pk. simpl. rewrite Hk. apply Nat.eqb_refl.
    + exact (@map_pk_replace Post _ k self (rows (posts db)) Hk).
    + intros q Hq Hpk. apply in_map_iff. exists q. rewrite Hpk. auto.
Qed.

Lemma Post_save_updates_the_row_witness :
  Post_id (Post_set_text (Some "edited"%string) (saved_post 1)) = Some 1 /\
  post_exists 1 db_two_posts = true /\
  exists db',
    Post_save t1 (Post_set_text (Some "edited"%string) (saved_post 1)) db_two_posts =
      (inr (Post_set_text (Some "edited"%string) (saved_post 1)), db') /\
    find (has_pk 1) (rows (posts db')) =
      Some (Post_set_text (Some "edited"%string) (saved_post 1)).
Proof.
  split; [reflexivity |]. split; [reflexivity |].
  destruct (@Post_save_updates_the_row t1
              (Post_set_text (Some "edited"%string) (saved_post 1)) 1
              db_two_posts eq_refl eq_refl) as [_ H].
  destruct H as [db' (H1 & H2 & _)]; [discriminate |].
  exists db'. split; assumption.
Defined.

(** ** Trending posts *)

Lemma trending_leb_spec (a b : Trending) :
  trending_leb a b = true <->
  reactions__count b < reactions__count a \/
  (reactions__count b = reactions__count a /\
   created_key (trending_post b) <= created_key (trending_post a)).
Proof.
  unfold trending_leb.
  rewrite orb_true_iff, andb_true_iff, Nat.ltb_lt, Nat.eqb_eq, Nat.leb_le.
  reflexivity.
Qed.

Lemma trending_leb_total (a b : Trending) :
  trending_leb a b = false -> trending_leb b a = true.
Proof.
  intros H. apply trending_leb_spec.
  destruct (trending_leb a b) eqn:E; [discriminate |].
  assert (Hn : ~ (reactions__count b < reactions__count a \/
                  (reactions__count b = reactions__count a /\
                   created_key (trending_post b) <= created_key (trending_post a)))).
  { intros Hs. apply trending_leb_spec in Hs. congruence. }
  lia.
Qed.

Lemma trending_leb_trans (a b c : Trending) :
  trending_leb a b = true -> trending_leb b c = true -> trending_leb a c = true.
Proof. rewrite !trending_leb_spec. lia. Qed.

Lemma insert_trending_perm (x : Trending) (l : list Trending) :
  Permutation (insert_trending x l) (x :: l).
Proof.
  induction l as [| y l IH]; simpl; [reflexivity |].
  destruct (trending_leb x y); [reflexivity |].
  rewrite IH. apply perm_swap.
Qed.

Lemma sort_trending_perm (l : list Trending) :
  Permutation (fold_right insert_trending [] l) l.
Proof.
  induction l as [| x l IH]; simpl; [constructor |].
  rewrite insert_trending_perm. constructor. exact IH.
Qed.

Lemma insert_trending_sorted (x : Trending) (l : list Trending) :
  StronglySorted trending_before l ->
  StronglySorted trending_before (insert_trending x l).
Proof.
  induction l as [| y l IH]; simpl; intros H.
  - constructor; constructor.
  - inversion H as [| ? ? Hl Hy]; subst.
    destruct (trending_leb x y) eqn:E.
    + constructor; [exact H |]. constructor; [exact E |].
      eapply Forall_impl; [| exact Hy].
      intros z Hz. apply (trending_leb_trans _ _ _ E Hz).
    + constructor; [apply IH, Hl |].
      apply Forall_forall. intros z Hz.
      apply (Permutation_in _ (insert_trending_perm x l)) in Hz.
      destruct Hz as [<- | Hz].
      * apply trending_leb_total, E.
      * rewrite Forall_forall in Hy. apply Hy, Hz.
Qed.

Lemma sort_trending_sorted (l : list Trending) :
  StronglySorted trending_before (fold_right insert_trending [] l).
Proof.
  induction l as [| x l IH]; simpl; [constructor |].
  apply insert_trending_sorted, IH.
Qed.

Lemma NoDup_filter_link (a b : nat) (l : list (nat * nat)) :
  NoDup l ->
  filter (fun x => (fst x =? a) && (snd x =? b)) l = [] \/
  filter (fun x => (fst x =? a) && (snd x =? b)) l = [(a, b)].
Proof.
  intros Hn.
  destruct (filter (fun x => (fst x =? a) && (snd x =? b)) l) as [| [c d] l'] eqn:E;
    [left; reflexivity | right].
  assert (Hin : In (c, d) (filter (fun x => (fst x =? a) && (snd x =? b)) l))
    by (rewrite E; left; reflexivity).
  apply filter_In in Hin. destruct Hin as [Hin Hq]. simpl in Hq.
  apply andb_true_iff in Hq. destruct Hq as [Ha Hb].
  apply Nat.eqb_eq in Ha, Hb. subst.
  pose proof (NoDup_count_one a b Hn Hin) as Hone. rewrite E in Hone.
  destruct l'; [reflexivity | discriminate].
Qed.

Lemma flat_map_if {A B : Type} (g : A -> list B) (f : A -> bool) (h : A -> B)
    (l : list A) :
  (forall x, g x = if f x then [h x] else []) ->
  flat_map g l = map h (filter f l).
Proof.
  intros H. induction l as [| x l IH]; simpl; [reflexivity |].
  rewrite H, IH. destruct (f x); reflexivity.
Qed.

(** The trending posts are the public posts, each with the number of its
    reactions, put in order. *)
Lemma get_trending_posts_eq (db : DB) :
  NoDup (post_circles db) ->
  get_trending_posts db =
  fold_right insert_trending []
    (map (fun p => {| trending_post := p;
                      reactions__count := count_reactions p None db |})
         (filter (fun p => is_public_post p db) (rows (posts db)))).
Proof.
  intros Hn. unfold get_trending_posts. f_equal. apply flat_map_if. intros p.
  unfold is_public_post, count_reactions.
  destruct (Post_id p) as [k |]; [| reflexivity].
  destruct (NoDup_filter_link k (world_circle_id db) Hn) as [-> | ->]; simpl;
    [reflexivity |].
  rewrite app_nil_r. unfold count_reactions_for_post_with_id.
  do 3 f_equal. apply filter_ext. intros r. rewrite andb_true_r. reflexivity.
Qed.

Lemma NoDup_map_inv' {A B : Type} (f : A -> B) (l : list A) :
  NoDup (map f l) -> NoDup l.
Proof.
  induction l as [| x l IH]; simpl; intros H; [constructor |].
  inversion H; subst. constructor; [| apply IH; assumption].
  intros Hin. apply H2. apply in_map. exact Hin.
Qed.

(** X16.  In a reachable database [get_trending_posts] returns the public
    posts, each once and with the number of its reactions, those with more
    reactions first and, among posts with as many, the later created
    first. *)
Theorem get_trending_posts_correct (db : DB) :
  reachable db ->
  NoDup (map trending_post (get_trending_posts db)) /\
  (forall p, In p (map trending_post (get_trending_posts db)) <->
             In p (rows (posts db)) /\ is_public_post p db = true) /\
  (forall x, In x (get_trending_posts db) ->
             reactions__count x = count_reactions (trending_post x) None db) /\
  StronglySorted
    (fun a b =>
       reactions__count b < reactions__count a \/
       (reactions__count b = reactions__count a /\
        created_key (trending_post b) <= created_key (trending_post a)))
    (get_trending_posts db).
Proof.
  intros Hr. pose proof (reachable_base_ok Hr) as ((_ & Hpk) & _ & _ & _ & _ & Hn & _).
  rewrite (@get_trending_posts_eq db Hn).
  set (annotate := fun p : Post => {| trending_post := p; reactions__count := _ |}).
  set (public := filter (fun p => is_public_post p db) (rows (posts db))).
  pose proof (sort_trending_perm (map annotate public)) as Hperm.
  assert (Hmap : map trending_post (map annotate public) = public).
  { rewrite map_map. simpl. apply map_id. }
  repeat match goal with |- _ /\ _ => split end.
  - apply (Permutation_NoDup (l := public)).
    + rewrite <- Hmap at 1. apply Permutation_map. symmetry. exact Hperm.
    + apply NoDup_filter. apply (@NoDup_map_inv' _ _ pk _ Hpk).
  - intros p. unfold public at 1.
    rewrite <- (filter_In (fun p => is_public_post p db)). fold public.
    rewrite <- Hmap at 2. split; apply Permutation_in; apply Permutation_map;
      [exact Hperm | symmetry; exact Hperm].
  - intros x Hx. apply (Permutation_in _ Hperm) in Hx.
    apply in_map_iff in Hx. destruct Hx as [p [<- _]]. reflexivity.
  - eapply StronglySorted_ind with (P := fun l => StronglySorted _ l);
      [constructor | | apply sort_trending_sorted].
    intros a l Hl IH Ha. constructor; [exact IH |].
    eapply Forall_impl; [| exact Ha].
    intros b Hb. apply trending_leb_spec. exact Hb.
Qed.

Lemma get_trending_posts_correct_witness :
  reachable db_emoji /\
  get_trending_posts db_emoji =
    [{| trending_post := saved_post 1; reactions__count := 3 |};
     {| trending_post := saved_post 2; reactions__count := 1 |}] /\
  NoDup (map trending_post (get_trending_posts db_emoji)).
Proof.
  assert (H : reachable db_emoji)
    by (repeat apply reachable_run; apply reachable_initial).
  split; [exact H |]. split; [vm_compute; reflexivity |].
  exact (proj1 (@get_trending_posts_correct db_emoji H)).
Defined.

(** ** The emoji counts add up *)

Lemma total_count_list_sum (l : list EmojiCount) :
  total_count l = list_sum (map count l).
Proof. induction l as [| x l IH]; simpl; [reflexivity | rewrite <- IH; reflexivity]. Qed.

Lemma list_sum_perm (l l' : list nat) : Permutation l l' -> list_sum l = list_sum l'.
Proof. intros H. induction H; simpl; lia. Qed.

Lemma list_sum_map_add {A : Type} (f g : A -> nat) (l : list A) :
  list_sum (map (fun x => f x + g x) l) = list_sum (map f l) + list_sum (map g l).
Proof. induction l as [| x l IH]; simpl; [reflexivity | rewrite IH; lia]. Qed.

Lemma list_sum_indicator (i : nat) (ids : list nat) :
  NoDup ids ->
  list_sum (map (fun j => if i =? j then 1 else 0) ids) = if existsb (Nat.eqb i) ids then 1 else 0.
Proof.
  induction ids as [| j ids IH]; simpl; intros Hn; [reflexivity |].
  inversion Hn as [| ? ? Hj Hids]; subst. rewrite (IH Hids).
  destruct (i =? j) eqn:E; simpl; [| reflexivity].
  apply Nat.eqb_eq in E. subst.
  destruct (existsb (Nat.eqb j) ids) eqn:Ex; [| reflexivity].
  exfalso. apply Hj. apply existsb_exists in Ex. destruct Ex as [y [Hy Heq]].
  apply Nat.eqb_eq in Heq. subst. exact Hy.
Qed.

Lemma list_sum_zero {A : Type} (l : list A) : list_sum (map (fun _ => 0) l) = 0.
Proof. induction l; simpl; [reflexivity | assumption]. Qed.

(** Reactions that each carry one of the emoji [ids], told apart by emoji,
    are counted once each. *)
Lemma counts_by_emoji_add_up (ids : list nat) (h : PostReaction -> bool)
    (l : list PostReaction) :
  NoDup ids ->
  (forall r, In r l -> h r = true -> In (PostReaction_emoji_id r) ids) ->
  list_sum
    (map (fun i => List.length
                     (filter (fun r => h r && (PostReaction_emoji_id r =? i)) l))
         ids) =
  List.length (filter h l).
Proof.
  intros Hn. induction l as [| r l IH]; intros Hin.
  - simpl. apply list_sum_zero.
  - rewrite (map_ext
               (fun i => List.length
                           (filter (fun r0 => h r0 && (PostReaction_emoji_id r0 =? i))
                                   (r :: l)))
               (fun i => (if h r && (PostReaction_emoji_id r =? i) then 1 else 0) +
                         List.length
                           (filter (fun r0 => h r0 && (PostReaction_emoji_id r0 =? i))
                                   l))).
    2:{ intros i. simpl.
        destruct (h r && (PostReaction_emoji_id r =? i)); reflexivity. }
    rewrite list_sum_map_add, IH by (intros r0 Hr0; apply Hin; right; exact Hr0).
    simpl. destruct (h r) eqn:Eh; simpl.
    + rewrite (list_sum_indicator (PostReaction_emoji_id r) Hn).
      assert (Hex : existsb (Nat.eqb (PostReaction_emoji_id r)) ids = true).
      { apply existsb_exists. exists (PostReaction_emoji_id r).
        split; [apply Hin; [left; reflexivity | exact Eh] | apply Nat.eqb_refl]. }
      rewrite Hex. reflexivity.
    + rewrite list_sum_zero. reflexivity.
Qed.

Lemma NoDup_map_inj {A B : Type} (f : A -> B) (l : list A) (a b : A) :
  NoDup (map f l) -> In a l -> In b l -> f a = f b -> a = b.
Proof.
  induction l as [| x l IH]; simpl; intros Hn Ha Hb Heq; [destruct Ha |].
  inversion Hn as [| ? ? Hx Hl]; subst.
  destruct Ha as [-> | Ha], Hb as [-> | Hb]; auto.
  - exfalso. apply Hx. rewrite Heq. apply in_map, Hb.
  - exfalso. apply Hx. rewrite <- Heq. apply in_map, Ha.
Qed.

Lemma NoDup_map_incl {A B : Type} (f : A -> B) (l l' : list A) :
  NoDup (map f l) -> NoDup l' -> incl l' l -> NoDup (map f l').
Proof.
  intros Hn Hn' Hincl. induction l' as [| x l' IH]; simpl; [constructor |].
  inversion Hn' as [| ? ? Hx Hl']; subst. constructor.
  - intros Hin. apply in_map_iff in Hin. destruct Hin as [y [Hy Hin]].
    assert (y = x).
    { apply (NoDup_map_inj f l); auto.
      - apply Hincl. right. exact Hin.
      - apply Hincl. left. reflexivity. }
    subst. contradiction.
  - apply IH; [exact Hl' |]. intros y Hy. apply Hincl. right. exact Hy.
Qed.

(** X17.  When the emoji have distinct keys and every reaction on the post
    carries a stored emoji, the counts [get_emoji_counts_for_post_with_id]
    returns without an [emoji_id] add up to [count_reactions] of the post,
    for all reactors as for one. *)
Theorem get_emoji_counts_add_up (self : Post) (post_id : nat)
    (reactor_id : option nat) (db : DB) :
  Post_id self = Some post_id ->
  NoDup (map Emoji_id (emojis db)) ->
  (forall r, In r (rows (post_reactions db)) -> PostReaction_post_id r = post_id ->
             exists e, In e (emojis db) /\ Emoji_id e = PostReaction_emoji_id r) ->
  total_count (get_emoji_counts_for_post_with_id post_id None reactor_id db) =
  count_reactions self reactor_id db.
Proof.
  intros Hself Hn Hfk. unfold count_reactions. rewrite Hself.
  unfold get_emoji_counts_for_post_with_id.
  set (es := emojis_reacted_with post_id None db).
  rewrite total_count_list_sum.
  rewrite (list_sum_perm (Permutation_map count (sort_by_count_reverse_perm _))).
  rewrite map_map. simpl.
  set (h := fun r : PostReaction =>
              (PostReaction_post_id r =? post_id) &&
              match reactor_id with
              | Some u => if truthy u then PostReaction_reactor r =? u else true
              | None => true
              end).
  rewrite (map_ext _
             (fun e => List.length
                         (filter (fun r => h r && (PostReaction_emoji_id r =? Emoji_id e))
                                 (rows (post_reactions db))))).
  2:{ intros e. f_equal. apply filter_ext. intros r. unfold reaction_query, h.
      destruct (PostReaction_post_id r =? post_id),
               (PostReaction_emoji_id r =? Emoji_id e); simpl;
        try reflexivity; rewrite ?andb_true_r, ?andb_false_r; reflexivity. }
  rewrite <- (map_map Emoji_id
                (fun i => List.length
                            (filter (fun r => h r && (PostReaction_emoji_id r =? i))
                                    (rows (post_reactions db))))).
  rewrite counts_by_emoji_add_up.
  - reflexivity.
  - apply (NoDup_map_incl Emoji_id (l := emojis db)); [exact Hn | apply NoDup_nodup |].
    intros e He. apply emojis_reacted_with_In in He. apply He.
  - intros r Hr Hh. unfold h in Hh. apply andb_true_iff in Hh.
    destruct Hh as [Hp _]. apply Nat.eqb_eq in Hp.
    destruct (Hfk r Hr Hp) as [e [He Hid]].
    rewrite <- Hid. apply in_map. apply emojis_reacted_with_In.
    split; [exact He |]. split; [exists r; auto | discriminate].
Qed.

Lemma get_emoji_counts_add_up_witness :
  Post_id (saved_post 1) = Some 1 /\
  total_count (get_emoji_counts_for_post_with_id 1 None None db_emoji) = 3 /\
  count_reactions (saved_post 1) None db_emoji = 3 /\
  total_count (get_emoji_counts_for_post_with_id 1 None (Some 10) db_emoji) =
    count_reactions (saved_post 1) (Some 10) db_emoji.
Proof.
  split; [reflexivity |]. split; [reflexivity |]. split; [reflexivity |].
  apply (@get_emoji_counts_add_up (saved_post 1) 1 (Some 10) db_emoji eq_refl).
  - vm_compute. repeat constructor; simpl; intuition discriminate.
  - intros r Hr Hp. vm_compute in Hr.
    destruct Hr as [<- | [<- | [<- | [<- | []]]]]; simpl in Hp; try discriminate;
      [exists heart | exists clap | exists heart];
      (split; [vm_compute; auto | reflexivity]).
Defined.

(** ** Removing by key *)

Lemma removed_at_most_one {R : Type} `{Model R} (g : R -> bool) (i : nat) (l : list R) :
  NoDup (map pk l) ->
  List.length l <= S (List.length (filter (fun x => negb (g x && has_pk i x)) l)).
Proof.
  induction l as [| x l IH]; simpl; intros Hn; [lia |].
  inversion Hn as [| ? ? Hx Hl]; subst.
  destruct (g x && has_pk i x) eqn:E; simpl.
  - apply andb_true_iff in E. destruct E as [_ E].
    rewrite filter_all; [lia |].
    intros y Hy. apply negb_true_iff.
    destruct (has_pk i y) eqn:Ey; [| apply andb_false_r].
    exfalso. apply Hx. apply in_map_iff. exists y. split; [| exact Hy].
    unfold has_pk in *. destruct (pk x), (pk y); try discriminate.
    apply Nat.eqb_eq in E, Ey. congruence.
  - specialize (IH Hl). lia.
Qed.

Lemma filter_filter_implied {A : Type} (f g : A -> bool) (l : list A) :
  (forall x, f x = true -> g x = true) -> filter f (filter g l) = filter f l.
Proof.
  intros H. induction l as [| x l IH]; simpl; [reflexivity |].
  destruct (g x) eqn:Eg; simpl.
  - rewrite IH. reflexivity.
  - destruct (f x) eqn:Ef; [| exact IH].
    rewrite (H x Ef) in Eg. discriminate.
Qed.

Lemma remove_with_id_of_saved_post (self : Post) (k i : nat) (db : DB) :
  reachable db ->
  Post_id self = Some k ->
  (let db' := snd (remove_comment_with_id self i db) in
   fst (remove_comment_with_id self i db) = inr tt /\
   (forall c, In c (rows (post_comments db')) <->
              In c (rows (post_comments db)) /\
              ~ (PostComment_post_id c = k /\ PostComment_id c = Some i)) /\
   List.length (rows (post_comments db)) <= S (List.length (rows (post_comments db'))) /\
   (forall j u, j <> k ->
      count_comments_for_post_with_id j u db' =
      count_comments_for_post_with_id j u db) /\
   post_reactions db' = post_reactions db /\ same_posts db db') /\
  (let db' := snd (remove_reaction_with_id self i db) in
   fst (remove_reaction_with_id self i db) = inr tt /\
   (forall r, In r (rows (post_reactions db')) <->
              In r (rows (post_reactions db)) /\
              ~ (PostReaction_post_id r = k /\ PostReaction_id r = Some i)) /\
   List.length (rows (post_reactions db)) <= S (List.length (rows (post_reactions db'))) /\
   (forall j u, j <> k ->
      count_reactions_for_post_with_id j u db' =
      count_reactions_for_post_with_id j u db) /\
   post_comments db' = post_comments db /\ same_posts db db').
Proof.
  intros Hr Hk.
  pose proof (reachable_comments_ok Hr) as (_ & Hnc).
  pose proof (reachable_base_ok Hr) as (_ & (_ & Hnr) & _).
  unfold remove_comment_with_id, remove_reaction_with_id. rewrite Hk. simpl.
  split; repeat match goal with |- _ /\ _ => split end;
    try reflexivity; try (unfold same_posts; repeat split; reflexivity).
  - intros c. rewrite filter_In, negb_true_iff, andb_false_iff.
    unfold has_pk. simpl. rewrite Nat.eqb_neq.
    destruct (PostComment_id c) as [j |].
    + rewrite Nat.eqb_neq. split; intros [H1 H2]; (split; [exact H1 |]).
      * intros [Ha Hb]. inversion Hb. destruct H2; congruence.
      * destruct (Nat.eq_dec (PostComment_post_id c) k) as [E | E]; [| left; exact E].
        right. intros ->. apply H2. auto.
    + split; intros [H1 H2]; (split; [exact H1 |]).
      * intros [_ Hb]. discriminate.
      * right. reflexivity.
  - apply (removed_at_most_one (fun c => PostComment_post_id c =? k) i _ Hnc).
  - intros j u Hne. unfold count_comments_for_post_with_id. simpl. f_equal.
    apply filter_filter_implied. intros c Hc.
    apply andb_true_iff in Hc. destruct Hc as [Hc _]. apply Nat.eqb_eq in Hc.
    apply negb_true_iff, andb_false_iff. left. apply Nat.eqb_neq. lia.
  - intros r. rewrite filter_In, negb_true_iff, andb_false_iff.
    unfold has_pk. simpl. rewrite Nat.eqb_neq.
    destruct (PostReaction_id r) as [j |].
    + rewrite Nat.eqb_neq. split; intros [H1 H2]; (split; [exact H1 |]).
      * intros [Ha Hb]. inversion Hb. destruct H2; congruence.
      * destruct (Nat.eq_dec (PostReaction_post_id r) k) as [E | E]; [| left; exact E].
        right. intros ->. apply H2. auto.
    + split; intros [H1 H2]; (split; [exact H1 |]).
      * intros [_ Hb]. discriminate.
      * right. reflexivity.
  - apply (removed_at_most_one (fun r => PostReaction_post_id r =? k) i _ Hnr).
  - intros j u Hne. unfold count_reactions_for_post_with_id. simpl. f_equal.
    apply filter_filter_implied. intros r Hc.
    apply andb_true_iff in Hc. destruct Hc as [Hc _]. apply Nat.eqb_eq in Hc.
    apply negb_true_iff, andb_false_iff. left. apply Nat.eqb_neq. lia.
Qed.

(** X18.  In a reachable database [remove_comment_with_id] and
    [remove_reaction_with_id] return, on a saved post and on an unsaved
    one; they remove the row of the given key when it belongs to the post
    and no other row, so one row at most and none for an unsaved post, and
    leave the counts of every other post as they were. *)
Theorem remove_with_id_removes_one_of_the_post (self : Post) (i : nat) (db : DB) :
  reachable db ->
  (let db' := snd (remove_comment_with_id self i db) in
   fst (remove_comment_with_id self i db) = inr tt /\
   (forall c, In c (rows (post_comments db')) <->
              In c (rows (post_comments db)) /\
              ~ (Post_id self = Some (PostComment_post_id c) /\
                 PostComment_id c = Some i)) /\
   List.length (rows (post_comments db)) <= S (List.length (rows (post_comments db'))) /\
   (forall j u, Post_id self <> Some j ->
      count_comments_for_post_with_id j u db' =
      count_comments_for_post_with_id j u db) /\
   post_reactions db' = post_reactions db /\ same_posts db db' /\
   (Post_id self = None -> db' = db)) /\
  (let db' := snd (remove_reaction_with_id self i db) in
   fst (remove_reaction_with_id self i db) = inr tt /\
   (forall r, In r (rows (post_reactions db')) <->
              In r (rows (post_reactions db)) /\
              ~ (Post_id self = Some (PostReaction_post_id r) /\
                 PostReaction_id r = Some i)) /\
   List.length (rows (post_reactions db)) <= S (List.length (rows (post_reactions db'))) /\
   (forall j u, Post_id self <> Some j ->
      count_reactions_for_post_with_id j u db' =
      count_reactions_for_post_with_id j u db) /\
   post_comments db' = post_comments db /\ same_posts db db' /\
   (Post_id self = None -> db' = db)).
Proof.
  intros Hr. cbv zeta. destruct (Post_id self) as [k |] eqn:Hk.
  - pose proof (remove_with_id_of_saved_post self i Hr Hk) as Hs.
    cbv zeta in Hs.
    destruct Hs as [(C1 & C2 & C3 & C4 & C5 & C6) (R1 & R2 & R3 & R4 & R5 & R6)].
    split; repeat match goal with |- _ /\ _ => split end;
      try assumption; try discriminate.
    + intros c. rewrite C2. split; intros [H1 H2]; (split; [exact H1 |]).
      * intros [Ha Hb]. apply H2. split; [congruence | exact Hb].
      * intros [Ha Hb]. apply H2. split; [congruence | exact Hb].
    + intros j u Hne. apply C4. congruence.
    + intros r. rewrite R2. split; intros [H1 H2]; (split; [exact H1 |]).
      * intros [Ha Hb]. apply H2. split; [congruence | exact Hb].
      * intros [Ha Hb]. apply H2. split; [congruence | exact Hb].
    + intros j u Hne. apply R4. congruence.
  - unfold remove_comment_with_id, remove_reaction_with_id. rewrite Hk. simpl.
    split; repeat match goal with |- _ /\ _ => split end;
      try reflexivity; try lia; try apply same_posts_refl;
      (intros x; split;
       [intros H; split; [exact H | intros [Ha _]; discriminate]
       | intros [H _]; exact H]).
Qed.

Lemma remove_with_id_removes_one_of_the_post_witness :
  reachable db_emoji /\
  List.length (rows (post_reactions
                       (snd (remove_reaction_with_id (saved_post 1) 2 db_emoji)))) = 3 /\
  rows (post_reactions (snd (remove_reaction_with_id (saved_post 2) 2 db_emoji))) =
    rows (post_reactions db_emoji) /\
  count_reactions_for_post_with_id 2 None
    (snd (remove_reaction_with_id (saved_post 1) 2 db_emoji)) = 1 /\
  remove_reaction_with_id supplied_post 2 db_emoji = (inr tt, db_emoji).
Proof.
  assert (H : reachable db_emoji)
    by (repeat apply reachable_run; apply reachable_initial).
  split; [exact H |]. split; [reflexivity |]. split; [reflexivity |].
  destruct (@remove_with_id_removes_one_of_the_post (saved_post 1) 2 db_emoji H)
    as [_ (_ & _ & _ & H4 & _)].
  split; [rewrite (H4 2 None); [reflexivity | discriminate] |].
  reflexivity.
Defined.

(** ** Emoji counts at the edges *)

Lemma all_equal_length {A : Type} (l : list A) :
  NoDup l -> (forall a b, In a l -> In b l -> a = b) -> List.length l <= 1.
Proof.
  intros Hn Heq. destruct l as [| x [| y l]]; simpl; try lia.
  exfalso. inversion Hn as [| ? ? Hx _]; subst. apply Hx.
  left. apply Heq; [right; left; reflexivity | left; reflexivity].
Qed.

(** X19.  For a post without reactions [get_emoji_counts_for_post_with_id]
    returns the empty list; with an [emoji_id] that is true, and emoji of
    distinct keys, it returns one entry at most, and that entry is of the
    emoji asked for. *)
Theorem get_emoji_counts_edges (post_id : nat) (emoji_id reactor_id : option nat)
    (db : DB) :
  (count_reactions_for_post_with_id post_id None db = 0 ->
   get_emoji_counts_for_post_with_id post_id emoji_id reactor_id db = []) /\
  (forall e, emoji_id = Some e -> truthy e = true ->
     NoDup (map Emoji_id (emojis db)) ->
     List.length (get_emoji_counts_for_post_with_id post_id emoji_id reactor_id db) <= 1 /\
     forall x, In x (get_emoji_counts_for_post_with_id post_id emoji_id reactor_id db) ->
               Emoji_id (emoji x) = e).
Proof.
  unfold get_emoji_counts_for_post_with_id. split.
  - intros Hzero.
    assert (Hes : emojis_reacted_with post_id emoji_id db = []).
    { destruct (emojis_reacted_with post_id emoji_id db) as [| x l] eqn:E;
        [reflexivity |].
      assert (Hx : In x (emojis_reacted_with post_id emoji_id db))
        by (rewrite E; left; reflexivity).
      apply emojis_reacted_with_In in Hx. destruct Hx as (_ & [r [Hr [Hp _]]] & _).
      exfalso. unfold count_reactions_for_post_with_id in Hzero.
      assert (Hin : In r (filter (fun r => (PostReaction_post_id r =? post_id) && true)
                                 (rows (post_reactions db)))).
      { apply filter_In. split; [exact Hr |]. rewrite Hp, Nat.eqb_refl. reflexivity. }
      destruct (filter _ (rows (post_reactions db))); [destruct Hin | discriminate]. }
    rewrite Hes. reflexivity.
  - intros e He Ht Hn.
    set (es := emojis_reacted_with post_id emoji_id db).
    assert (Hid : forall x, In x es -> In x (emojis db) /\ Emoji_id x = e).
    { intros x Hx. apply emojis_reacted_with_In in Hx.
      destruct Hx as (H1 & _ & H3). split; [exact H1 | apply (H3 e He Ht)]. }
    split.
    + rewrite (Permutation_length (sort_by_count_reverse_perm _)), length_map.
      apply all_equal_length; [apply NoDup_nodup |].
      intros a b Ha Hb. destruct (Hid a Ha) as [Ha1 Ha2], (Hid b Hb) as [Hb1 Hb2].
      apply (NoDup_map_inj Emoji_id (emojis db)); auto. congruence.
    + intros x Hx. apply (Permutation_in _ (sort_by_count_reverse_perm _)) in Hx.
      apply in_map_iff in Hx. destruct Hx as [y [<- Hy]]. simpl. apply Hid, Hy.
Qed.

Lemma get_emoji_counts_edges_witness :
  get_emoji_counts_for_post_with_id 7 None None db_emoji = [] /\
  NoDup (map Emoji_id (emojis db_emoji)) /\
  List.length (get_emoji_counts_for_post_with_id 1 (Some 2) None db_emoji) <= 1.
Proof.
  destruct (get_emoji_counts_edges 7 None None db_emoji) as [H1 _].
  split; [apply H1; reflexivity |].
  assert (Hn : NoDup (map Emoji_id (emojis db_emoji))).
  { vm_compute. repeat constructor; simpl; intuition discriminate. }
  split; [exact Hn |].
  destruct (get_emoji_counts_edges 1 (Some 2) None db_emoji) as [_ H2].
  apply (H2 2 eq_refl eq_refl Hn).
Defined.

(** ** A call of [create_post] stopped between its writes *)

(** X20.  In a reachable database a call of [create_post] that passes the
    checks is stopped after the row of the post was stored when its image
    cannot be opened, with [OSError], or when a circle it names is not
    stored, with [IntegrityError]: the row stays, under the next key and
    without the text, no circle link is written, and no image row in the
    first case. *)
Theorem create_post_stopped_after_the_row_is_stored (now : DateTime) (creator : nat)
    (circles_ids : list nat) (image : option File) (text : option string)
    (video : option File) (created : option DateTime) (db : DB) :
  reachable db ->
  rejected image text video = false ->
  image_ok image = false \/ circles_ok circles_ids db = false ->
  let r := create_post now creator circles_ids image text video created db in
  (fst r = inl (if image_ok image then IntegrityError else OSError)) /\
  rows (posts (snd r)) =
    rows (posts db) ++ [new_post now creator created (next_pk (posts db))] /\
  Post_text (new_post now creator created (next_pk (posts db))) = None /\
  post_circles (snd r) = post_circles db /\
  (image_ok image = false ->
   post_images (snd r) = post_images db /\ post_videos (snd r) = post_videos db).
Proof.
  intros Hr Hrej Hstop r. subst r. pose proof (reachable_base_ok Hr) as Hok.
  rewrite (@create_post_outcome now creator circles_ids image text video
             created db Hok Hrej).
  destruct (image_ok image); cbn [negb fst snd].
  - destruct Hstop as [Hstop | Hstop]; [discriminate |]. rewrite Hstop.
    cbn [negb fst snd]. rewrite rows_posts_media_db.
    destruct (others_media_db now creator image video created db)
      as (_ & _ & _ & -> & _).
    repeat split; discriminate.
  - unfold stored_db. simpl. repeat split.
Qed.

Lemma create_post_stopped_after_the_row_is_stored_witness :
  reachable db0 /\
  fst (create_post t0 7 [99] photo hello None None db0) = inl IntegrityError /\
  rows (posts (snd (create_post t0 7 [99] photo hello None None db0))) =
    [new_post t0 7 None 1] /\
  post_circles (snd (create_post t0 7 [99] photo hello None None db0)) = [] /\
  List.length
    (rows (post_images (snd (create_post t0 7 [99] photo hello None None db0)))) = 1.
Proof.
  assert (H : reachable db0) by apply reachable_initial.
  split; [exact H |].
  destruct (@create_post_stopped_after_the_row_is_stored t0 7 [99] photo hello None
              None db0 H eq_refl (or_intror eq_refl)) as (H1 & H2 & _ & H4 & _).
  split; [exact H1 |]. split; [exact H2 |]. split; [exact H4 | reflexivity].
Defined.

(** X21.  Every operation that is not stopped between its writes keeps the
    content rule: when every stored post has text, an image or a video, and
    not both an image and a video, then so it is after a call of
    [create_post] that is rejected or returns, and after every call of the
    other operations. *)
Theorem completed_operations_keep_the_content_rule (op : Op) (db : DB) :
  reachable db -> content_ok db -> completes op db = true ->
  content_ok (run op db).
Proof.
  intros Hr. apply content_ok_run, reachable_base_ok, Hr.
Qed.

Lemma completed_operations_keep_the_content_rule_witness :
  reachable db_two_posts /\ content_ok db_two_posts /\
  content_ok (run (Op_create_post t1 8 [3; 3; 4] photo hello None None) db_two_posts).
Proof.
  assert (H : reachable db_two_posts)
    by (repeat apply reachable_run; apply reachable_initial).
  assert (Hc : content_ok db_two_posts).
  { intros p [<- | [<- | []]].
    - exists 1. repeat split.
    - exists 2. repeat split. }
  split; [exact H |]. split; [exact Hc |].
  apply (@completed_operations_keep_the_content_rule
           (Op_create_post t1 8 [3; 3; 4] photo hello None None) db_two_posts
           H Hc eq_refl).
Defined.

(** ** The circles of the links *)



